(** * NTFS $LogFile journal handling (kext/ntfs_logfile.c)

    A shallow embedding of the restart-page validators, the restart-page
    loader, the journal scanner [ntfs_logfile_check], the clean-shutdown
    test [ntfs_logfile_is_clean] and the log reset [ntfs_logfile_empty],
    followed by the properties proved about them.

    Conventions.
    - C integers are [Z] with the wrap-around of each assignment written out
      ([u8], [u16], [u32]); signed 64-bit values are decoded with [s64].
    - Memory is a list of bytes; a pointer into a buffer is the suffix of the
      buffer that starts at the pointed byte ([ptr_add]).
    - On-disk fields are little-endian.  A field accessor returns the
      unsigned value the bytes denote, so [le16_to_cpu] and [le32_to_cpu] are
      the identity on what an accessor returns, [sle16_to_cpu] and
      [sle64_to_cpu] read it in two's complement, and a comparison of two
      raw little-endian values is the comparison of the values they
      denote.
    - A function that calls [ntfs_error] before [return FALSE] returns the
      message in its verdict, so each failing check can be told apart. *)

From Stdlib Require Import ZArith List String Bool Lia.
Import ListNotations.
Local Open Scope string_scope.
Local Open Scope list_scope.
Local Open Scope Z_scope.

(** ** Machine integers *)

Definition u8 (x : Z) : Z := x mod 2 ^ 8.
Definition u16 (x : Z) : Z := x mod 2 ^ 16.
Definition u32 (x : Z) : Z := x mod 2 ^ 32.
Definition u64 (x : Z) : Z := x mod 2 ^ 64.

(** Two's complement reading of a 16 and of a 64 bit pattern. *)
Definition s16 (x : Z) : Z :=
  let r := x mod 2 ^ 16 in if r <? 2 ^ 15 then r else r - 2 ^ 16.
Definition s64 (x : Z) : Z :=
  let r := x mod 2 ^ 64 in if r <? 2 ^ 63 then r else r - 2 ^ 64.

(** ** Buffers *)

Definition buffer := list Z.

(** The byte at offset [o].  Reading outside the buffer is undefined in C;
    the model reads 0 there. *)
Definition byte_at (b : buffer) (o : Z) : Z :=
  if o <? 0 then 0 else nth (Z.to_nat o) b 0 mod 256.

Definition le16_at (b : buffer) (o : Z) : Z :=
  byte_at b o + 2 ^ 8 * byte_at b (o + 1).
Definition le32_at (b : buffer) (o : Z) : Z :=
  le16_at b o + 2 ^ 16 * le16_at b (o + 2).
Definition le64_at (b : buffer) (o : Z) : Z :=
  le32_at b o + 2 ^ 32 * le32_at b (o + 4).

(** [(u8* )p + n] *)
Definition ptr_add (p : buffer) (n : Z) : buffer := skipn (Z.to_nat n) p.

(** Exactly [n] bytes read from [src], as [memcpy] reads them. *)
Fixpoint take (n : nat) (src : buffer) : buffer :=
  match n with
  | O => []
  | S n' => match src with
            | [] => 0 :: take n' []
            | x :: src' => x :: take n' src'
            end
  end.

(** [memcpy((u8* )dst + off, src, n)] *)
Definition memcpy (dst : buffer) (off : Z) (src : buffer) (n : Z) : buffer :=
  firstn (Z.to_nat off) dst ++ take (Z.to_nat n) src
    ++ skipn (Z.to_nat (off + n)) dst.

Definition le16_to_cpu (x : Z) : Z := x.
Definition le32_to_cpu (x : Z) : Z := x.
Definition sle16_to_cpu (x : Z) : Z := s16 x.
Definition sle64_to_cpu (x : Z) : Z := s64 x.

(** ** Constants and layout of the on-disk structures

    The file takes these from ntfs_layout.h, ntfs_logfile.h and
    ntfs_types.h.  The spec fixes "the pre-existing NTFS $LogFile
    restart-page layout"; the values below are those of that format. *)

(** Modelled from the spec: [NTFS_BLOCK_SIZE] of ntfs_layout.h, the size of
    the block the update sequence array protects. *)
Definition NTFS_BLOCK_SIZE : Z := 512.
(** Modelled from the spec: [NTFS_BLOCK_SIZE_SHIFT] of ntfs_layout.h. *)
Definition NTFS_BLOCK_SIZE_SHIFT : Z := 9.

(** Modelled from the spec: [magic_RSTR] of ntfs_layout.h, the four
    characters RSTR read as a little-endian 32-bit number. *)
Definition magic_RSTR : Z := 0x52545352.
(** Modelled from the spec: [magic_CHKD] of ntfs_layout.h, the magic of a
    restart page modified by chkdsk. *)
Definition magic_CHKD : Z := 0x444b4843.
(** Modelled from the spec: [magic_RCRD] of ntfs_layout.h, the magic of a
    log record page. *)
Definition magic_RCRD : Z := 0x44524352.
(** Modelled from the spec: [magic_empty] of ntfs_layout.h, what the fill
    byte 0xff leaves where a magic is read. *)
Definition magic_empty : Z := 0xffffffff.

(** Modelled from the spec: [LOGFILE_NO_CLIENT] of ntfs_logfile.h, the "no
    client" sentinel as stored. *)
Definition LOGFILE_NO_CLIENT : Z := 0xffff.
(** Modelled from the spec: [LOGFILE_NO_CLIENT_CPU] of ntfs_logfile.h, the
    same sentinel in cpu order. *)
Definition LOGFILE_NO_CLIENT_CPU : Z := 0xffff.
(** Modelled from the spec: [RESTART_VOLUME_IS_CLEAN] of ntfs_logfile.h, the
    "volume is clean" bit of the restart area flags. *)
Definition RESTART_VOLUME_IS_CLEAN : Z := 0x0002.

(** Modelled from the spec: [NtfsMaxLogFileSize] of ntfs_logfile.h. *)
Definition NtfsMaxLogFileSize : Z := 0x100000000.
(** Modelled from the spec: [NtfsDefaultLogPageSize] of ntfs_logfile.h, the
    "default log page size". *)
Definition NtfsDefaultLogPageSize : Z := 4096.
(** Modelled from the spec: [NtfsMinLogRecordPages] of ntfs_logfile.h, the
    "minimum number of record pages". *)
Definition NtfsMinLogRecordPages : Z := 48.

(** The errno values of <sys/errno.h>. *)
Definition EIO : Z := 5.
Definition ENOMEM : Z := 12.
Definition EINVAL : Z := 22.

Definition sizeof_u16 : Z := 2.

(** Modelled from the spec: the packed [RESTART_PAGE_HEADER] of
    ntfs_logfile.h; each field is read at its offset in the structure. *)
Module RESTART_PAGE_HEADER.
Definition magic (rp : buffer) : Z := le32_at rp 0.
Definition usa_ofs (rp : buffer) : Z := le16_at rp 4.
Definition usa_count (rp : buffer) : Z := le16_at rp 6.
Definition chkdsk_lsn (rp : buffer) : Z := le64_at rp 8.
Definition system_page_size (rp : buffer) : Z := le32_at rp 16.
Definition log_page_size (rp : buffer) : Z := le32_at rp 20.
Definition restart_area_offset (rp : buffer) : Z := le16_at rp 24.
Definition minor_ver (rp : buffer) : Z := le16_at rp 26.
Definition major_ver (rp : buffer) : Z := le16_at rp 28.
Definition sizeof : Z := 30.
End RESTART_PAGE_HEADER.

(** Modelled from the spec: the packed [RESTART_AREA] of ntfs_logfile.h. *)
Module RESTART_AREA.
Definition current_lsn (ra : buffer) : Z := le64_at ra 0.
Definition log_clients (ra : buffer) : Z := le16_at ra 8.
Definition client_free_list (ra : buffer) : Z := le16_at ra 10.
Definition client_in_use_list (ra : buffer) : Z := le16_at ra 12.
Definition flags (ra : buffer) : Z := le16_at ra 14.
Definition seq_number_bits (ra : buffer) : Z := le32_at ra 16.
Definition restart_area_length (ra : buffer) : Z := le16_at ra 20.
Definition client_array_offset (ra : buffer) : Z := le16_at ra 22.
Definition file_size (ra : buffer) : Z := le64_at ra 24.
Definition log_record_header_length (ra : buffer) : Z := le16_at ra 36.
Definition log_page_data_offset (ra : buffer) : Z := le16_at ra 38.
Definition offsetof_file_size : Z := 24.
Definition sizeof : Z := 48.
End RESTART_AREA.

(** Modelled from the spec: the packed [LOG_CLIENT_RECORD] of
    ntfs_logfile.h. *)
Module LOG_CLIENT_RECORD.
Definition prev_client (cr : buffer) : Z := le16_at cr 16.
Definition next_client (cr : buffer) : Z := le16_at cr 18.
Definition sizeof : Z := 160.
End LOG_CLIENT_RECORD.

(** Modelled from the spec: the magic tests of ntfs_layout.h. *)
Definition ntfs_is_rstr_record (m : Z) : bool := m =? magic_RSTR.
Definition ntfs_is_chkd_record (m : Z) : bool := m =? magic_CHKD.
Definition ntfs_is_rcrd_record (m : Z) : bool := m =? magic_RCRD.
Definition ntfs_is_empty_record (m : Z) : bool := m =? magic_empty.
(** The [...recordp] forms read the magic through a pointer. *)
Definition ntfs_is_rstr_recordp (p : buffer) : bool := ntfs_is_rstr_record (le32_at p 0).
Definition ntfs_is_chkd_recordp (p : buffer) : bool := ntfs_is_chkd_record (le32_at p 0).
Definition ntfs_is_rcrd_recordp (p : buffer) : bool := ntfs_is_rcrd_record (le32_at p 0).
Definition ntfs_is_empty_recordp (p : buffer) : bool := ntfs_is_empty_record (le32_at p 0).

(** ** Verdicts: a BOOL together with the [ntfs_error] message of a FALSE *)

Inductive verdict : Type :=
| TRUE
| FALSE (error : string).

Definition is_true (v : verdict) : bool :=
  match v with TRUE => true | FALSE _ => false end.

(** ** ntfs_restart_page_header_is_valid *)

(** The code from the label [skip_usa_checks] on, with the values that
    [have_usa] and [usa_end] have there. *)
Definition skip_usa_checks (rp : buffer) (logfile_system_page_size : Z)
    (have_usa : bool) (usa_end : Z) : verdict :=
  let ra_ofs := le16_to_cpu (RESTART_PAGE_HEADER.restart_area_offset rp) in
  if negb (Z.land ra_ofs 7 =? 0)
     || (if have_usa then ra_ofs <? usa_end
         else ra_ofs <? RESTART_PAGE_HEADER.sizeof)
     || (ra_ofs >? logfile_system_page_size)
  then FALSE "$LogFile restart page specifies inconsistent restart area offset."
  else if negb (ntfs_is_chkd_record (RESTART_PAGE_HEADER.magic rp))
          && negb (sle64_to_cpu (RESTART_PAGE_HEADER.chkdsk_lsn rp) =? 0)
  then FALSE "$LogFile restart page is not modified by chkdsk but a chkdsk LSN is specified."
  else TRUE.

Definition ntfs_restart_page_header_is_valid (rp : buffer) (pos : Z) : verdict :=
  let logfile_system_page_size := le32_to_cpu (RESTART_PAGE_HEADER.system_page_size rp) in
  let logfile_log_page_size := le32_to_cpu (RESTART_PAGE_HEADER.log_page_size rp) in
  if (logfile_system_page_size <? NTFS_BLOCK_SIZE)
     || (logfile_log_page_size <? NTFS_BLOCK_SIZE)
     || negb (Z.land logfile_system_page_size (u32 (logfile_system_page_size - 1)) =? 0)
     || negb (Z.land logfile_log_page_size (u32 (logfile_log_page_size - 1)) =? 0)
  then FALSE "$LogFile uses unsupported page size."
  else if negb (pos =? 0) && negb (pos =? logfile_system_page_size)
  then FALSE "Found restart area in incorrect position in $LogFile."
  else if negb (sle16_to_cpu (RESTART_PAGE_HEADER.major_ver rp) =? 1)
          || negb (sle16_to_cpu (RESTART_PAGE_HEADER.minor_ver rp) =? 1)
  then FALSE "$LogFile version is not supported.  (This driver supports version 1.1 only.)"
  else if ntfs_is_chkd_record (RESTART_PAGE_HEADER.magic rp)
          && (le16_to_cpu (RESTART_PAGE_HEADER.usa_count rp) =? 0)
  then skip_usa_checks rp logfile_system_page_size false 0
  else
    let usa_count := u16 (1 + Z.shiftr logfile_system_page_size NTFS_BLOCK_SIZE_SHIFT) in
    if negb (usa_count =? le16_to_cpu (RESTART_PAGE_HEADER.usa_count rp))
    then FALSE "$LogFile restart page specifies inconsistent update sequence array count."
    else
      let usa_ofs := le16_to_cpu (RESTART_PAGE_HEADER.usa_ofs rp) in
      let usa_end := u16 (usa_ofs + usa_count * sizeof_u16) in
      if (usa_ofs <? RESTART_PAGE_HEADER.sizeof)
         || (usa_end >? NTFS_BLOCK_SIZE - sizeof_u16)
      then FALSE "$LogFile restart page specifies inconsistent update sequence array offset."
      else skip_usa_checks rp logfile_system_page_size true usa_end.

(** ** ntfs_restart_area_is_valid *)

(** [while (file_size) { file_size >>= 1; fs_bits++; }] unrolled [fuel]
    times; the result is the pair of both variables.  A 64-bit [file_size]
    is zero after at most 64 rounds ([fs_bits_loop_exits]). *)
Fixpoint fs_bits_loop (fuel : nat) (file_size fs_bits : Z) : Z * Z :=
  match fuel with
  | O => (file_size, fs_bits)
  | S fuel' =>
    if file_size =? 0 then (file_size, fs_bits)
    else fs_bits_loop fuel' (Z.shiftr file_size 1) (u8 (fs_bits + 1))
  end.

Definition fs_bits_of (file_size : Z) : Z := snd (fs_bits_loop 64 file_size 0).

Definition ntfs_restart_area_is_valid (rp : buffer) : verdict :=
  let ra_ofs := le16_to_cpu (RESTART_PAGE_HEADER.restart_area_offset rp) in
  let ra := ptr_add rp ra_ofs in
  if ra_ofs + RESTART_AREA.offsetof_file_size >? NTFS_BLOCK_SIZE - sizeof_u16
  then FALSE "$LogFile restart area specifies inconsistent file offset."
  else
  let ca_ofs := le16_to_cpu (RESTART_AREA.client_array_offset ra) in
  if negb (Z.land (ca_ofs + 7) (Z.lnot 7) =? ca_ofs)
     || (ra_ofs + ca_ofs >? NTFS_BLOCK_SIZE - sizeof_u16)
  then FALSE "$LogFile restart area specifies inconsistent client array offset."
  else
  let ra_len := u16 (ca_ofs + le16_to_cpu (RESTART_AREA.log_clients ra)
                              * LOG_CLIENT_RECORD.sizeof) in
  if (ra_ofs + ra_len >? le32_to_cpu (RESTART_PAGE_HEADER.system_page_size rp))
     || (ra_ofs + le16_to_cpu (RESTART_AREA.restart_area_length ra)
         >? le32_to_cpu (RESTART_PAGE_HEADER.system_page_size rp))
     || (ra_len >? le16_to_cpu (RESTART_AREA.restart_area_length ra))
  then FALSE "$LogFile restart area is out of bounds of the system page size specified by the restart page header and/or the specified restart area length is inconsistent."
  else
  if (negb (RESTART_AREA.client_free_list ra =? LOGFILE_NO_CLIENT)
      && (le16_to_cpu (RESTART_AREA.client_free_list ra)
          >=? le16_to_cpu (RESTART_AREA.log_clients ra)))
     || (negb (RESTART_AREA.client_in_use_list ra =? LOGFILE_NO_CLIENT)
         && (le16_to_cpu (RESTART_AREA.client_in_use_list ra)
             >=? le16_to_cpu (RESTART_AREA.log_clients ra)))
  then FALSE "$LogFile restart area specifies overflowing client free and/or in use lists."
  else
  let file_size := u64 (sle64_to_cpu (RESTART_AREA.file_size ra)) in
  let fs_bits := fs_bits_of file_size in
  if negb (le32_to_cpu (RESTART_AREA.seq_number_bits ra) =? u32 (67 - fs_bits))
  then FALSE "$LogFile restart area specifies inconsistent sequence number bits."
  else
  if negb (Z.land (le16_to_cpu (RESTART_AREA.log_record_header_length ra) + 7) (Z.lnot 7)
           =? le16_to_cpu (RESTART_AREA.log_record_header_length ra))
  then FALSE "$LogFile restart area specifies inconsistent log record header length."
  else
  if negb (Z.land (le16_to_cpu (RESTART_AREA.log_page_data_offset ra) + 7) (Z.lnot 7)
           =? le16_to_cpu (RESTART_AREA.log_page_data_offset ra))
  then FALSE "$LogFile restart area specifies inconsistent log page data offset."
  else TRUE.

(** ** ntfs_log_client_array_is_consistent

    The [for] loop under the label [check_list] and the [goto check_list]
    that follows it are one machine over the four variables the loop
    changes.  [ca_step] is one turn of it: one test of the loop condition
    followed either by one body and increment, or by the code after the
    loop. *)

Record ca_state : Type := {
  in_free_list : bool;
  idx_is_first : bool;
  idx : Z;
  nr_clients : Z
}.

Inductive ca_outcome : Type :=
| Return (b : bool)                       (* [return TRUE] / [goto err] *)
| Visit (cr : Z) (next : ca_state)        (* one body run, on record [ca + cr] *)
| Switch (next : ca_state).               (* [goto check_list] *)

Section ClientArray.
Variable rp : buffer.

Let ra : buffer :=
  ptr_add rp (le16_to_cpu (RESTART_PAGE_HEADER.restart_area_offset rp)).
Let ca : buffer :=
  ptr_add ra (le16_to_cpu (RESTART_AREA.client_array_offset ra)).

(** [ca + idx] *)
Definition client_record (i : Z) : buffer :=
  ptr_add ca (i * LOG_CLIENT_RECORD.sizeof).

Definition ca_init : ca_state :=
  {| in_free_list := true;
     idx_is_first := true;
     idx := le16_to_cpu (RESTART_AREA.client_free_list ra);
     nr_clients := le16_to_cpu (RESTART_AREA.log_clients ra) |}.

Definition ca_step (s : ca_state) : ca_outcome :=
  if negb (idx s =? LOGFILE_NO_CLIENT_CPU) then
    if (nr_clients s =? 0)
       || (idx s >=? le16_to_cpu (RESTART_AREA.log_clients ra))
    then Return false
    else
      let cr := client_record (idx s) in
      let next :=
        {| in_free_list := in_free_list s;
           idx_is_first := false;
           idx := le16_to_cpu (LOG_CLIENT_RECORD.next_client cr);
           nr_clients := u16 (nr_clients s - 1) |} in
      if idx_is_first s then
        if negb (LOG_CLIENT_RECORD.prev_client cr =? LOGFILE_NO_CLIENT)
        then Return false
        else Visit (idx s) next
      else Visit (idx s) next
  else if in_free_list s then
    Switch {| in_free_list := false;
              idx_is_first := true;
              idx := le16_to_cpu (RESTART_AREA.client_in_use_list ra);
              nr_clients := nr_clients s |}
  else Return true.

(** [fuel] turns of the machine.  The result is [None] when the machine
    has not returned by then; otherwise the returned BOOL and the records
    the loop body ran on, in order. *)
Fixpoint ca_run (fuel : nat) (s : ca_state) : option (bool * list Z) :=
  match fuel with
  | O => None
  | S fuel' =>
    match ca_step s with
    | Return b => Some (b, [])
    | Visit cr s' =>
      match ca_run fuel' s' with
      | Some (b, visited) => Some (b, cr :: visited)
      | None => None
      end
    | Switch s' => ca_run fuel' s'
    end
  end.

(** The machine returns within [log_clients + 2] turns
    ([ca_run_returns]), so the [None] case below is never taken. *)
Definition ntfs_log_client_array_is_consistent : verdict :=
  match ca_run (Z.to_nat (le16_to_cpu (RESTART_AREA.log_clients ra)) + 2) ca_init with
  | Some (true, _) => TRUE
  | _ => FALSE "$LogFile log client array is corrupt."
  end.
End ClientArray.

(** ** State, collaborators and effects *)

(** A buffer obtained from [IOMalloc]: the allocation and what it holds. *)
Record kbuf : Type := { addr : nat; contents : buffer }.

(** Calls that leave this file, in the order they are made. *)
Inductive event : Type :=
| vnode_get_call
| vnode_put_call
| lck_rw_lock_shared_call
| lck_rw_unlock_shared_call
| ntfs_page_map_call (pos : Z)
| ntfs_page_unmap_call (pos : Z)
| ntfs_mst_fixup_post_read_call (a : nat) (size : Z)
| ntfs_attr_set_call (ofs cnt val : Z)
| IOMalloc_call (a : nat) (size : Z)
| IOFree_call (a : nat) (size : Z)
| ntfs_error_call (msg : string).

(** The volume and the $LogFile inode: the [NVolLogFileEmpty] flag of
    [ni->vol], [ni->data_size], the bytes of the attribute, the next
    allocation, and the calls made so far (latest first). *)
Record state : Type := {
  LogFileEmpty : bool;
  data_size : Z;
  data : buffer;
  next_alloc : nat;
  trace : list event
}.

Definition NVolLogFileEmpty (s : state) : bool := LogFileEmpty s.

(** What the kernel and the other files of the driver answer.  None of them
    is defined in this file; each is a parameter of the development.
    [PAGE_SHIFT] gives [PAGE_SIZE]; [ntfs_page_map_result] is an errno or the
    mapped page; [ntfs_mst_fixup_post_read_result] is an errno and the buffer
    after the in-place fixup; [ntfs_attr_set_result] is an errno and the
    bytes of the attribute after the call. *)
Record host : Type := {
  PAGE_SHIFT : Z;
  vnode_get_result : state -> Z;
  ntfs_page_map_result : state -> Z -> Z + buffer;
  ntfs_mst_fixup_post_read_result : buffer -> Z -> Z * buffer;
  ntfs_attr_set_result : state -> Z -> Z -> Z -> Z * buffer;
  IOMalloc_succeeds : state -> Z -> bool
}.

(** A computation ends with a value and a state, in a [panic], or it has
    not ended within the rounds given to one of its loops. *)
Inductive result (A : Type) : Type :=
| Ok (a : A) (s : state)
| Panic (msg : string)
| OutOfFuel.
Arguments Ok {A} a s.
Arguments Panic {A} msg.
Arguments OutOfFuel {A}.

Definition M (A : Type) : Type := state -> result A.

Definition ret {A} (a : A) : M A := fun s => Ok a s.
Definition bind {A B} (m : M A) (k : A -> M B) : M B :=
  fun s => match m s with
           | Ok a s' => k a s'
           | Panic msg => Panic msg
           | OutOfFuel => OutOfFuel
           end.
Definition panic {A} (msg : string) : M A := fun _ => Panic msg.
Definition out_of_fuel {A} : M A := fun _ => OutOfFuel.

Notation "x <- m ;; k" := (bind m (fun x => k))
  (at level 100, m at next level, right associativity).
Notation "m ;; k" := (bind m (fun _ => k))
  (at level 100, right associativity).

(** The state after one more call. *)
Definition called (e : event) (s : state) : state :=
  {| LogFileEmpty := LogFileEmpty s; data_size := data_size s;
     data := data s; next_alloc := next_alloc s;
     trace := e :: trace s |}.

Definition emit (e : event) : M unit := fun s => Ok tt (called e s).

Definition ntfs_error (msg : string) : M unit := emit (ntfs_error_call msg).

(** The state after [ntfs_attr_set(ni, ofs, cnt, val)] has left [bytes] in
    the attribute. *)
Definition attr_set_done (ofs cnt val : Z) (bytes : buffer) (s : state) : state :=
  {| LogFileEmpty := LogFileEmpty s; data_size := data_size s;
     data := bytes; next_alloc := next_alloc s;
     trace := ntfs_attr_set_call ofs cnt val :: trace s |}.

Definition set_LogFileEmpty (s : state) : state :=
  {| LogFileEmpty := true; data_size := data_size s;
     data := data s; next_alloc := next_alloc s;
     trace := trace s |}.

Definition NVolSetLogFileEmpty : M unit := fun s => Ok tt (set_LogFileEmpty s).

(** libkern's [ffs]: the 1-based index of the lowest set bit of a 32-bit
    value, 0 when there is none. *)
Fixpoint ffs_from (fuel : nat) (i x : Z) : Z :=
  match fuel with
  | O => 0
  | S fuel' => if Z.testbit x i then i + 1 else ffs_from fuel' (i + 1) x
  end.
Definition ffs (x : Z) : Z := ffs_from 32 0 x.

Section Logfile.
Variable h : host.

Definition PAGE_SIZE : Z := 2 ^ PAGE_SHIFT h.
Definition PAGE_MASK : Z := PAGE_SIZE - 1.
Definition PAGE_MASK_64 : Z := PAGE_SIZE - 1.

Definition vnode_get : M Z :=
  fun s => (emit vnode_get_call ;; ret (vnode_get_result h s)) s.
Definition vnode_put : M unit := emit vnode_put_call.
Definition lck_rw_lock_shared : M unit := emit lck_rw_lock_shared_call.
Definition lck_rw_unlock_shared : M unit := emit lck_rw_unlock_shared_call.

Definition ntfs_page_map (pos : Z) : M (Z + buffer) :=
  fun s => (emit (ntfs_page_map_call pos) ;; ret (ntfs_page_map_result h s pos)) s.
Definition ntfs_page_unmap (upl : Z) : M unit := emit (ntfs_page_unmap_call upl).

Definition IOMalloc (size : Z) : M (option kbuf) :=
  fun s =>
    if IOMalloc_succeeds h s size then
      Ok (Some {| addr := next_alloc s; contents := repeat 0 (Z.to_nat size) |})
         {| LogFileEmpty := LogFileEmpty s; data_size := data_size s;
            data := data s; next_alloc := S (next_alloc s);
            trace := IOMalloc_call (next_alloc s) size :: trace s |}
    else Ok None s.
Definition IOFree (p : kbuf) (size : Z) : M unit :=
  emit (IOFree_call (addr p) size).

Definition ntfs_mst_fixup_post_read (b : kbuf) (size : Z) : M (Z * kbuf) :=
  emit (ntfs_mst_fixup_post_read_call (addr b) size) ;;
  let r := ntfs_mst_fixup_post_read_result h (contents b) size in
  ret (fst r, {| addr := addr b; contents := snd r |}).

Definition ntfs_attr_set (ofs cnt val : Z) : M Z :=
  fun s =>
    let r := ntfs_attr_set_result h s ofs cnt val in
    Ok (fst r) (attr_set_done ofs cnt val (snd r) s).

(** *** ntfs_restart_page_load *)

(** The [do ... while (to_read > 0)] loop that copies the pages after the
    first.  It returns the buffer as filled so far, with the errno of
    [goto err] when it left that way. *)
Fixpoint load_remaining (fuel : nat) (trp : kbuf) (pos size have_read to_read : Z)
  : M (option Z * kbuf) :=
  match fuel with
  | O => out_of_fuel
  | S fuel' =>
    let pos := pos + size in
    if negb (Z.land (u32 pos) PAGE_MASK =? 0)
    then panic "ntfs_restart_page_load(): pos + size is not PAGE_SIZE aligned"
    else
      r <- ntfs_page_map pos ;;
      match r with
      | inl err =>
        ntfs_error "Error reading $LogFile." ;;
        ret (Some (if negb (err =? EIO) && negb (err =? ENOMEM) then EIO else err), trp)
      | inr kaddr =>
        let size := PAGE_SIZE in
        let size := if size >? to_read then to_read else size in
        let trp := {| addr := addr trp;
                      contents := memcpy (contents trp) have_read kaddr size |} in
        ntfs_page_unmap pos ;;
        let have_read := u32 (have_read + size) in
        let to_read := u32 (to_read - size) in
        if to_read >? 0
        then load_remaining fuel' trp pos size have_read to_read
        else ret (None, trp)
      end
  end.

(** The result is the errno, [*wrp] and [*lsn]; an out parameter that is
    not written (or not asked for: [wrp], [lsn] FALSE stand for NULL) is
    [None]. *)
Definition ntfs_restart_page_load (rp : buffer) (pos : Z) (wrp lsn : bool)
  : M (Z * option kbuf * option Z) :=
  match ntfs_restart_page_header_is_valid rp pos with
  | FALSE e => ntfs_error e ;; ret (EINVAL, None, None)
  | TRUE =>
  match ntfs_restart_area_is_valid rp with
  | FALSE e => ntfs_error e ;; ret (EINVAL, None, None)
  | TRUE =>
  let ra := ptr_add rp (le16_to_cpu (RESTART_PAGE_HEADER.restart_area_offset rp)) in
  let system_page_size := le32_to_cpu (RESTART_PAGE_HEADER.system_page_size rp) in
  trp <- IOMalloc system_page_size ;;
  match trp with
  | None =>
    ntfs_error "Failed to allocate memory for $LogFile restart page buffer." ;;
    ret (ENOMEM, None, None)
  | Some trp =>
    let err_exit (trp : kbuf) (err : Z) : M (Z * option kbuf * option Z) :=
      IOFree trp (le32_to_cpu (RESTART_PAGE_HEADER.system_page_size (contents trp))) ;;
      ret (err, None, None) in
    let size := u32 (PAGE_SIZE - Z.land (u32 pos) PAGE_MASK) in
    r <- (if size >=? system_page_size
          then ret (None, {| addr := addr trp;
                             contents := memcpy (contents trp) 0 rp system_page_size |})
          else
            let trp := {| addr := addr trp;
                          contents := memcpy (contents trp) 0 rp size |} in
            let to_read := u32 (system_page_size - size) in
            load_remaining (Z.to_nat (to_read / PAGE_SIZE) + 1)
                           trp pos size size to_read) ;;
    match r with
    | (Some err, trp) => err_exit trp err
    | (None, trp) =>
      fx <- (if negb (ntfs_is_chkd_record (RESTART_PAGE_HEADER.magic (contents trp)))
                || negb (le16_to_cpu (RESTART_PAGE_HEADER.usa_count (contents trp)) =? 0)
             then ntfs_mst_fixup_post_read trp system_page_size
             else ret (0, trp)) ;;
      let '(mst_err, trp) := fx in
      if negb (mst_err =? 0)
         && (le16_to_cpu (RESTART_PAGE_HEADER.restart_area_offset rp)
             + le16_to_cpu (RESTART_AREA.restart_area_length ra)
             >? NTFS_BLOCK_SIZE - sizeof_u16)
      then
        ntfs_error "Multi sector transfer error detected in $LogFile restart page." ;;
        err_exit trp EINVAL
      else
        match
          (if ntfs_is_rstr_record (RESTART_PAGE_HEADER.magic rp)
              && negb (RESTART_AREA.client_in_use_list ra =? LOGFILE_NO_CLIENT)
           then ntfs_log_client_array_is_consistent (contents trp)
           else TRUE)
        with
        | FALSE e => ntfs_error e ;; err_exit trp EINVAL
        | TRUE =>
          let lsn_out :=
            if lsn then
              if ntfs_is_rstr_record (RESTART_PAGE_HEADER.magic rp)
              then Some (sle64_to_cpu (RESTART_AREA.current_lsn ra))
              else Some (sle64_to_cpu (RESTART_PAGE_HEADER.chkdsk_lsn rp))
            else None in
          if wrp then ret (0, Some trp, lsn_out)
          else
            IOFree trp (le32_to_cpu (RESTART_PAGE_HEADER.system_page_size (contents trp))) ;;
            ret (0, None, lsn_out)
        end
    end
  end
  end
  end.
End Logfile.

(** ** ntfs_logfile_check, ntfs_logfile_is_clean, ntfs_logfile_empty *)

(** The variables of the scan loop of [ntfs_logfile_check].  [upl] is the
    position and the bytes of the page that is mapped, if one is. *)
Record scan_state : Type := {
  pos : Z;
  ppos : Z;
  upl : option (Z * buffer);
  logfile_is_empty : bool;
  rstr1_ph : option kbuf;
  rstr2_ph : option kbuf;
  rstr1_lsn : Z;
  rstr2_lsn : Z
}.

(** How the loop is left: past its end or by [break], or by [goto err]. *)
Inductive scan_exit : Type :=
| Scanned (st : scan_state)
| GotoErr (err : Z) (st : scan_state).

Section Journal.
Variable h : host.

Definition set_pos (st : scan_state) (p : Z) : scan_state :=
  {| pos := p; ppos := ppos st; upl := upl st;
     logfile_is_empty := logfile_is_empty st;
     rstr1_ph := rstr1_ph st; rstr2_ph := rstr2_ph st;
     rstr1_lsn := rstr1_lsn st; rstr2_lsn := rstr2_lsn st |}.

(** [if (!pos) pos = NTFS_BLOCK_SIZE / 2;] *)
Definition half_block_if_zero (st : scan_state) : scan_state :=
  if pos st =? 0 then set_pos st (NTFS_BLOCK_SIZE / 2) else st.

(** The first statement of the loop body: map the page [pos] lies in,
    unless it is the page that is mapped already. *)
Definition scan_map (st : scan_state) : M (Z + scan_state) :=
  match upl st with
  | Some (mapped, paddr) =>
    if negb (Z.land (pos st) (Z.lnot (PAGE_MASK_64 h)) =? ppos st) then
      ntfs_page_unmap mapped ;;
      r <- ntfs_page_map h (pos st) ;;
      match r with
      | inl err => ret (inl err)
      | inr paddr' =>
        ret (inr {| pos := pos st; ppos := pos st; upl := Some (pos st, paddr');
                    logfile_is_empty := logfile_is_empty st;
                    rstr1_ph := rstr1_ph st; rstr2_ph := rstr2_ph st;
                    rstr1_lsn := rstr1_lsn st; rstr2_lsn := rstr2_lsn st |})
      end
    else ret (inr st)
  | None =>
    r <- ntfs_page_map h (pos st) ;;
    match r with
    | inl err => ret (inl err)
    | inr paddr' =>
      ret (inr {| pos := pos st; ppos := pos st; upl := Some (pos st, paddr');
                  logfile_is_empty := logfile_is_empty st;
                  rstr1_ph := rstr1_ph st; rstr2_ph := rstr2_ph st;
                  rstr1_lsn := rstr1_lsn st; rstr2_lsn := rstr2_lsn st |})
    end
  end.

(** [for (pos = ppos = 0; pos < size; pos <<= 1) ...], at most [fuel]
    rounds. *)
Fixpoint scan (fuel : nat) (size : Z) (st : scan_state) : M scan_exit :=
  match fuel with
  | O => out_of_fuel
  | S fuel' =>
    if negb (pos st <? size) then ret (Scanned st)
    else
      (* [continue]: the increment of the [for], then the next round *)
      let continue (st : scan_state) : M scan_exit :=
        scan fuel' size (set_pos st (Z.shiftl (pos st) 1)) in
      m <- scan_map st ;;
      match m with
      | inl err =>
        let err := if negb (err =? EIO) && negb (err =? ENOMEM) then EIO else err in
        ntfs_error "Error reading $LogFile." ;;
        ret (GotoErr err st)
      | inr st =>
        let paddr := match upl st with Some (_, p) => p | None => [] end in
        let mapped := match upl st with Some (m, _) => m | None => 0 end in
        let kaddr := ptr_add paddr (Z.land (pos st) (PAGE_MASK_64 h)) in
        if ntfs_is_empty_recordp kaddr then
          if logfile_is_empty st then continue (half_block_if_zero st)
          else ret (Scanned st)
        else
          let st := {| pos := pos st; ppos := ppos st; upl := upl st;
                       logfile_is_empty := false;
                       rstr1_ph := rstr1_ph st; rstr2_ph := rstr2_ph st;
                       rstr1_lsn := rstr1_lsn st; rstr2_lsn := rstr2_lsn st |} in
          if ntfs_is_rcrd_recordp kaddr then ret (Scanned st)
          else if negb (ntfs_is_rstr_recordp kaddr) && negb (ntfs_is_chkd_recordp kaddr)
          then continue (half_block_if_zero st)
          else
            l <- ntfs_restart_page_load h kaddr (pos st) true true ;;
            let '(err, wrp, lsn) := l in
            (* the out parameters point at the first pair while
               [rstr1_ph] is NULL, at the second pair afterwards; one that
               is not written keeps its value *)
            let st :=
              match rstr1_ph st with
              | None =>
                {| pos := pos st; ppos := ppos st; upl := upl st;
                   logfile_is_empty := logfile_is_empty st;
                   rstr1_ph := match wrp with Some p => Some p | None => rstr1_ph st end;
                   rstr2_ph := rstr2_ph st;
                   rstr1_lsn := match lsn with Some l => l | None => rstr1_lsn st end;
                   rstr2_lsn := rstr2_lsn st |}
              | Some _ =>
                {| pos := pos st; ppos := ppos st; upl := upl st;
                   logfile_is_empty := logfile_is_empty st;
                   rstr1_ph := rstr1_ph st;
                   rstr2_ph := match wrp with Some p => Some p | None => rstr2_ph st end;
                   rstr1_lsn := rstr1_lsn st;
                   rstr2_lsn := match lsn with Some l => l | None => rstr2_lsn st end |}
              end in
            if err =? 0 then
              if pos st =? 0 then continue (half_block_if_zero st)
              else ret (Scanned st)
            else if negb (err =? EINVAL) then
              ntfs_page_unmap mapped ;;
              ret (GotoErr err st)
            else continue (half_block_if_zero st)
      end
  end.

(** The scan visits 0 and then doubles from [NTFS_BLOCK_SIZE],
    and [size] is at most [NtfsMaxLogFileSize] = 2^32: 64 rounds are more
    than it can take ([check_ends]). *)
Definition scan_fuel : nat := 64.

(** The variables at the head of the loop: [upl = NULL],
    [rstr1_ph = rstr2_ph = NULL], [pos = ppos = 0] and
    [logfile_is_empty = TRUE]; the two LSNs are not initialised. *)
Definition scan_start : scan_state :=
  {| pos := 0; ppos := 0; upl := None; logfile_is_empty := true;
     rstr1_ph := None; rstr2_ph := None; rstr1_lsn := 0; rstr2_lsn := 0 |}.

(** [log_page_size] and [log_page_bits] as [ntfs_logfile_check] computes
    them. *)
Definition log_page_size : Z :=
  if (PAGE_SIZE h >=? NtfsDefaultLogPageSize)
     && (PAGE_SIZE h <=? NtfsDefaultLogPageSize * 2)
  then NtfsDefaultLogPageSize else u32 (PAGE_SIZE h).
Definition log_page_bits : Z := u8 (ffs log_page_size - 1).

(** [size] when the loop is reached: [ni->data_size], capped, then
    truncated with [size &= ~(s64)(log_page_size - 1)]. *)
Definition logfile_size (s0 : state) : Z :=
  let size := data_size s0 in
  let size := if size >? NtfsMaxLogFileSize then NtfsMaxLogFileSize else size in
  Z.land size (Z.lnot (u32 (log_page_size - 1))).

(** The test that guards ["$LogFile is too small."]. *)
Definition logfile_too_small (s0 : state) : bool :=
  let size := logfile_size s0 in
  (size <? u32 (log_page_size * 2))
  || (Z.shiftr (size - u32 (log_page_size * 2)) log_page_bits
      <? NtfsMinLogRecordPages).

(** The result is the errno and what [*rp] holds on return; [rp] FALSE
    stands for a NULL [rp]. *)
Definition ntfs_logfile_check (rp : bool) : M (Z * option kbuf) :=
  fun s0 =>
  (if NVolLogFileEmpty s0 then ret (0, None)     (* goto is_empty *)
   else
    err <- vnode_get h ;;
    if negb (err =? 0) then
      let err := if err =? EINVAL then EIO else err in
      ntfs_error "Failed to get vnode for $LogFile." ;;
      ret (err, None)
    else
      lck_rw_lock_shared ;;
      let size := logfile_size s0 in
      if logfile_too_small s0
      then
        ntfs_error "$LogFile is too small." ;;
        lck_rw_unlock_shared ;;
        vnode_put ;;
        ret (EINVAL, None)
      else
        x <- scan scan_fuel size scan_start ;;
        match x with
        | GotoErr err st =>
          lck_rw_unlock_shared ;;
          vnode_put ;;
          match rstr1_ph st with
          | Some p =>
            IOFree p (le32_to_cpu (RESTART_PAGE_HEADER.system_page_size (contents p))) ;;
            ret (err, None)
          | None => ret (err, None)
          end
        | Scanned st =>
          match upl st with
          | Some (mapped, _) => ntfs_page_unmap mapped
          | None => ret tt
          end ;;
          lck_rw_unlock_shared ;;
          vnode_put ;;
          if logfile_is_empty st then
            NVolSetLogFileEmpty ;;
            ret (0, None)
          else
            match rstr1_ph st, rstr2_ph st with
            | None, Some _ => panic "ntfs_logfile_check(): !rstr1_ph but rstr2_ph"
            | None, None =>
              ntfs_error "Did not find any restart pages in $LogFile and it was not empty." ;;
              ret (EINVAL, None)
            | Some p1, r2 =>
              (* if both restart pages were found, use the more recent one *)
              p1 <- match r2 with
                    | Some p2 =>
                      if rstr2_lsn st >? rstr1_lsn st then
                        IOFree p1 (le32_to_cpu (RESTART_PAGE_HEADER.system_page_size (contents p1))) ;;
                        ret p2
                      else
                        IOFree p2 (le32_to_cpu (RESTART_PAGE_HEADER.system_page_size (contents p2))) ;;
                        ret p1
                    | None => ret p1
                    end ;;
              if rp then ret (0, Some p1)
              else
                IOFree p1 (le32_to_cpu (RESTART_PAGE_HEADER.system_page_size (contents p1))) ;;
                ret (0, None)
            end
        end) s0.

(** [rp] is [None] for a NULL pointer. *)
Definition ntfs_logfile_is_clean (rp : option buffer) : M bool :=
  fun s0 =>
  (if NVolLogFileEmpty s0 then ret true
   else
    match rp with
    | None => panic "ntfs_logfile_is_clean(): !rp"
    | Some rp =>
      if negb (ntfs_is_rstr_record (RESTART_PAGE_HEADER.magic rp))
         && negb (ntfs_is_chkd_record (RESTART_PAGE_HEADER.magic rp))
      then
        ntfs_error "Restart page buffer is invalid.  This is probably a bug in that the $LogFile should have been consistency checked before calling this function." ;;
        ret false
      else
        let ra := ptr_add rp (le16_to_cpu (RESTART_PAGE_HEADER.restart_area_offset rp)) in
        if negb (RESTART_AREA.client_in_use_list ra =? LOGFILE_NO_CLIENT)
           && (Z.land (RESTART_AREA.flags ra) RESTART_VOLUME_IS_CLEAN =? 0)
        then ret false
        else ret true
    end) s0.

Definition ntfs_logfile_empty : M Z :=
  fun s0 =>
  (if negb (NVolLogFileEmpty s0) then
     err <- vnode_get h ;;
     if negb (err =? 0) then
       ntfs_error "Failed to get vnode for $LogFile." ;;
       ret err
     else
       lck_rw_lock_shared ;;
       let data_size := data_size s0 in
       err <- ntfs_attr_set h 0 data_size 0xff ;;
       lck_rw_unlock_shared ;;
       vnode_put ;;
       if negb (err =? 0) then
         ntfs_error "Failed to fill $LogFile with 0xff bytes." ;;
         ret err
       else
         NVolSetLogFileEmpty ;;
         ret 0
   else ret 0) s0.
End Journal.

(** ** Concrete journals, used to run the definitions

    A host with 4 KiB pages whose collaborators always succeed: a page map
    returns the [PAGE_SIZE] bytes of the attribute at the position asked
    for, the fixup finds every sector intact and leaves the buffer as it is,
    and [ntfs_attr_set] fills the range it is given. *)

Fixpoint poke (b : buffer) (o : nat) (v : Z) : buffer :=
  match b, o with
  | [], _ => []
  | _ :: b', O => v :: b'
  | x :: b', S o' => x :: poke b' o' v
  end.

Definition put16 (b : buffer) (o v : Z) : buffer :=
  poke (poke b (Z.to_nat o) (v mod 256)) (Z.to_nat (o + 1)) (v / 256 mod 256).
Definition put32 (b : buffer) (o v : Z) : buffer :=
  put16 (put16 b o (v mod 65536)) (o + 2) (v / 65536 mod 65536).
Definition put64 (b : buffer) (o v : Z) : buffer :=
  put32 (put32 b o (v mod 2 ^ 32)) (o + 4) (v / 2 ^ 32 mod 2 ^ 32).

Definition fill (b : buffer) (ofs cnt val : Z) : buffer :=
  firstn (Z.to_nat ofs) b ++ repeat val (Z.to_nat cnt) ++ skipn (Z.to_nat (ofs + cnt)) b.

Definition quiet_host : host :=
  {| PAGE_SHIFT := 12;
     vnode_get_result := fun _ => 0;
     ntfs_page_map_result := fun s pos => inr (take 4096 (skipn (Z.to_nat pos) (data s)));
     ntfs_mst_fixup_post_read_result := fun b _ => (0, b);
     ntfs_attr_set_result := fun s ofs cnt val => (0, fill (data s) ofs cnt val);
     IOMalloc_succeeds := fun _ _ => true |}.

(** A log client record with the given neighbours, at index [i] of the
    client array that starts at byte [ca] of the page. *)
Definition put_client (b : buffer) (ca i prev next : Z) : buffer :=
  put16 (put16 b (ca + i * 160 + 16) prev) (ca + i * 160 + 18) next.

(** A 4 KiB restart page of version 1.1: update sequence array at 30 (nine
    entries), restart area at 48, client array 48 bytes into the area. *)
Definition restart_page (magic chkdsk_lsn current_lsn : Z)
    (log_clients free_list in_use_list flags file_size seq_number_bits : Z) : buffer :=
  let b := repeat 0 4096%nat in
  let b := put32 b 0 magic in
  let b := put16 b 4 30 in
  let b := put16 b 6 9 in
  let b := put64 b 8 chkdsk_lsn in
  let b := put32 b 16 4096 in
  let b := put32 b 20 4096 in
  let b := put16 b 24 48 in
  let b := put16 b 26 1 in
  let b := put16 b 28 1 in
  let b := put64 b 48 current_lsn in
  let b := put16 b 56 log_clients in
  let b := put16 b 58 free_list in
  let b := put16 b 60 in_use_list in
  let b := put16 b 62 flags in
  let b := put32 b 64 seq_number_bits in
  let b := put16 b 68 (48 + log_clients * 160) in
  let b := put16 b 70 48 in
  let b := put64 b 72 file_size in
  let b := put16 b 84 48 in
  let b := put16 b 86 64 in
  b.

(** One client, in use, no free client; the journal is 4 MiB. *)
Definition rstr_page (current_lsn flags : Z) : buffer :=
  put_client (restart_page magic_RSTR 0 current_lsn 1 0xffff 0 flags 0x400000 44)
             96 0 0xffff 0xffff.

(** A journal of 64 pages that starts with two restart pages.  Only their
    bytes are kept: what [quiet_host] maps past them reads as zero. *)
Definition journal (rstr1 rstr2 : buffer) : state :=
  {| LogFileEmpty := false;
     data_size := 64 * 4096;
     data := rstr1 ++ rstr2;
     next_alloc := 0;
     trace := [] |}.

(** A journal that was never checked, with a restart page whose magic is
    that of a log record page. *)
Definition rcrd_page : buffer :=
  put_client (restart_page magic_RCRD 0 7 1 0xffff 0 0 0x400000 44) 96 0 0xffff 0xffff.

(** What the scan of [journal rstr1 rstr2] has in its variables, and the
    state it leaves, when it has loaded both restart pages. *)
Definition both_found (rstr1 rstr2 : buffer) (lsn1 lsn2 : Z) : scan_state :=
  {| pos := 4096; ppos := 4096;
     upl := Some (4096, take 4096 (skipn 4096 (data (journal rstr1 rstr2))));
     logfile_is_empty := false;
     rstr1_ph := Some {| addr := 0; contents := rstr1 |};
     rstr2_ph := Some {| addr := 1; contents := rstr2 |};
     rstr1_lsn := lsn1; rstr2_lsn := lsn2 |}.

Definition both_loaded (rstr1 rstr2 : buffer) : state :=
  {| LogFileEmpty := false;
     data_size := 64 * 4096;
     data := rstr1 ++ rstr2;
     next_alloc := 2;
     trace := [ntfs_mst_fixup_post_read_call 1 4096; IOMalloc_call 1 4096;
               ntfs_page_map_call 4096; ntfs_page_unmap_call 0;
               ntfs_mst_fixup_post_read_call 0 4096; IOMalloc_call 0 4096;
               ntfs_page_map_call 0; lck_rw_lock_shared_call; vnode_get_call] |}.

(** The host whose [vnode_get] fails with ENOENT. *)
Definition no_vnode_host : host :=
  {| PAGE_SHIFT := 12;
     vnode_get_result := fun _ => 2;
     ntfs_page_map_result := ntfs_page_map_result quiet_host;
     ntfs_mst_fixup_post_read_result := ntfs_mst_fixup_post_read_result quiet_host;
     ntfs_attr_set_result := ntfs_attr_set_result quiet_host;
     IOMalloc_succeeds := fun _ _ => true |}.

(** The host whose [ntfs_attr_set] fails with EIO after it has filled the
    first page of the range. *)
Definition failing_write_host : host :=
  {| PAGE_SHIFT := 12;
     vnode_get_result := fun _ => 0;
     ntfs_page_map_result := ntfs_page_map_result quiet_host;
     ntfs_mst_fixup_post_read_result := ntfs_mst_fixup_post_read_result quiet_host;
     ntfs_attr_set_result := fun s ofs cnt val => (EIO, fill (data s) ofs (Z.min cnt 4096) val);
     IOMalloc_succeeds := fun _ _ => true |}.

(** Eight bytes of journal. *)
Definition tiny_journal : state :=
  {| LogFileEmpty := false;
     data_size := 8;
     data := [1; 2; 3; 4; 5; 6; 7; 8];
     next_alloc := 0;
     trace := [] |}.

(** A journal of three pages, too small to hold two restart pages and 48
    log record pages. *)
Definition small_journal (marked_empty : bool) : state :=
  {| LogFileEmpty := marked_empty;
     data_size := 3 * 4096;
     data := repeat 0xff (3 * 4096);
     next_alloc := 0;
     trace := [] |}.

(** ** The three operations of the file, in sequence *)

Inductive operation : Type :=
| check_op (rp : bool)
| is_clean_op (rp : option buffer)
| empty_op.

Definition run_operation (h : host) (o : operation) : M unit :=
  match o with
  | check_op rp => _ <- ntfs_logfile_check h rp ;; ret tt
  | is_clean_op rp => _ <- ntfs_logfile_is_clean rp ;; ret tt
  | empty_op => _ <- ntfs_logfile_empty h ;; ret tt
  end.

Fixpoint run_operations (h : host) (l : list operation) : M unit :=
  match l with
  | [] => ret tt
  | o :: l' => run_operation h o ;; run_operations h l'
  end.

(** The state in which the scan loop of [ntfs_logfile_check] starts. *)
Definition scan_entry (s : state) : state :=
  called lck_rw_lock_shared_call (called vnode_get_call s).

(** The same page with another [seq_number_bits]. *)
Definition rstr_page_seq_number_bits (seq_number_bits : Z) : buffer :=
  put_client (restart_page magic_RSTR 0 105 1 0xffff 0 0 0x400000 seq_number_bits)
             96 0 0xffff 0xffff.

(** One client record that is the head of the free list and of the in-use
    list at once. *)
Definition shared_record_page : buffer :=
  put_client (restart_page magic_RSTR 0 105 1 0 0 0 0x400000 44) 96 0 0xffff 0xffff.

(** Three clients in use, 0 -> 1 -> 2, and the last one points back at 1. *)
Definition cyclic_page : buffer :=
  put_client
    (put_client
       (put_client (restart_page magic_RSTR 0 105 3 0xffff 0 0 0x400000 44)
                   96 0 0xffff 1)
       96 1 0 2)
    96 2 1 1.

(** Three clients: 2 is free, 0 -> 1 are in use. *)
Definition three_clients_page : buffer :=
  put_client
    (put_client
       (put_client (restart_page magic_RSTR 0 105 3 2 0 0 0x400000 44)
                   96 0 0xffff 1)
       96 1 0 0xffff)
    96 2 0xffff 0xffff.

(** ** Words of the spec about the client lists *)

Definition restart_area_of (rp : buffer) : buffer :=
  ptr_add rp (le16_to_cpu (RESTART_PAGE_HEADER.restart_area_offset rp)).
Definition log_clients_of (rp : buffer) : Z :=
  le16_to_cpu (RESTART_AREA.log_clients (restart_area_of rp)).
Definition free_list_of (rp : buffer) : Z :=
  le16_to_cpu (RESTART_AREA.client_free_list (restart_area_of rp)).
Definition in_use_list_of (rp : buffer) : Z :=
  le16_to_cpu (RESTART_AREA.client_in_use_list (restart_area_of rp)).
Definition next_of (rp : buffer) (i : Z) : Z :=
  le16_to_cpu (LOG_CLIENT_RECORD.next_client (client_record rp i)).
Definition prev_of (rp : buffer) (i : Z) : Z :=
  LOG_CLIENT_RECORD.prev_client (client_record rp i).

(** [l] is the list of the records reached from [head] through
    [next_client], up to the sentinel. *)
Fixpoint client_list (rp : buffer) (head : Z) (l : list Z) : Prop :=
  match l with
  | [] => head = LOGFILE_NO_CLIENT_CPU
  | i :: l' =>
    head = i /\ i <> LOGFILE_NO_CLIENT_CPU /\ client_list rp (next_of rp i) l'
  end.

(** A well-formed list: it ends, its records lie in the array, and its head
    has no predecessor. *)
Definition well_formed_list (rp : buffer) (head : Z) (l : list Z) : Prop :=
  client_list rp head l
  /\ Forall (fun i => 0 <= i < log_clients_of rp) l
  /\ (l <> [] -> prev_of rp head = LOGFILE_NO_CLIENT).

(** Each record of [l] but the last points at the one after it. *)
Fixpoint linked (rp : buffer) (l : list Z) : Prop :=
  match l with
  | i :: ((j :: _) as l') => next_of rp i = j /\ linked rp l'
  | _ => True
  end.

(** A list that starts at [head] and whose last record points back at one
    of its records. *)
Definition cyclic_list (rp : buffer) (head : Z) (l : list Z) : Prop :=
  hd_error l = Some head
  /\ linked rp l
  /\ Forall (fun i => i <> LOGFILE_NO_CLIENT_CPU) l
  /\ In (next_of rp (last l head)) l.

(** The traversal of one list as the spec words it: a budget, a failure
    when it is used up or an index is out of range, a head without
    predecessor. *)
Fixpoint spec_traverse (rp : buffer) (budget : nat) (i : Z) (first : bool) : bool :=
  if i =? LOGFILE_NO_CLIENT_CPU then true
  else match budget with
       | O => false
       | S budget' =>
         if i >=? log_clients_of rp then false
         else if first && negb (prev_of rp i =? LOGFILE_NO_CLIENT) then false
         else spec_traverse rp budget' (next_of rp i) false
       end.

(** The validator of the spec: the in-use list "with a fresh budget". *)
Definition spec_client_array_is_consistent (rp : buffer) : bool :=
  spec_traverse rp (Z.to_nat (log_clients_of rp)) (free_list_of rp) true
  && spec_traverse rp (Z.to_nat (log_clients_of rp)) (in_use_list_of rp) true.

(** The records [l], then those of the run [r]. *)
Definition prefixed (l : list Z) (r : option (bool * list Z)) : option (bool * list Z) :=
  match r with
  | Some (b, v) => Some (b, l ++ v)
  | None => None
  end.

(** What a computation leaves alone of the volume and the journal: the
    flag, the bytes and the size. *)
Definition same_volume (s s' : state) : Prop :=
  LogFileEmpty s' = LogFileEmpty s /\ data s' = data s /\ data_size s' = data_size s.

Definition keeps_volume {A : Type} (m : M A) : Prop :=
  forall (s : state) (a : A) (s' : state), m s = Ok a s' -> same_volume s s'.

(** A computation that keeps the bytes and the size, and either keeps the
    flag or sets it and returns 0 without a restart page. *)
Definition may_set_flag (m : M (Z * option kbuf)) : Prop :=
  forall (s : state) (r : Z * option kbuf) (s' : state),
    m s = Ok r s' ->
    data s' = data s /\ data_size s' = data_size s
    /\ (LogFileEmpty s' = LogFileEmpty s \/ (LogFileEmpty s' = true /\ r = (0, None))).

(** Every state with which the scan loop can be left, but for [goto err],
    has the property [P]. *)
Definition scan_yields (P : scan_state -> Prop) (m : M scan_exit) : Prop :=
  forall (s : state) (st' : scan_state) (s' : state),
    m s = Ok (Scanned st') s' -> P st'.

(** A first restart page was found only after a block that is not empty. *)
Definition found_not_empty (st : scan_state) : Prop :=
  rstr1_ph st <> None -> logfile_is_empty st = false.

(** A computation that has ended, with a value or in a panic, whenever the
    rounds given to its loops are those of the definitions. *)
Definition ends {A : Type} (m : M A) : Prop :=
  forall s : state, m s <> OutOfFuel.

(** The error of [ntfs_log_client_array_is_consistent]. *)
Definition client_array_error : string := "$LogFile log client array is corrupt.".

(** The bit length the spec speaks of: the position of the highest set bit
    plus one, and zero for zero. *)
Definition bitlength (x : Z) : Z := if x =? 0 then 0 else Z.log2 x + 1.

(** The error of the sequence number bits check. *)
Definition seq_number_bits_error : string :=
  "$LogFile restart area specifies inconsistent sequence number bits.".

(** ** Further pages *)

(** The page of [rstr_page] with an update sequence array offset of 65520:
    the end of the array, kept in 16 bits, wraps to 2. *)
Definition wrapped_usa_page : buffer := put16 (rstr_page 100 0) 4 65520.

(** A restart page that declares 2048 clients: 2048 records of 160 bytes
    are a multiple of 2^16 bytes. *)
Definition many_clients_page : buffer :=
  put_client (restart_page magic_RSTR 0 105 2048 0xffff 0 0 0x400000 44)
             96 0 0xffff 0xffff.

(** A restart page modified by chkdsk that has no update sequence array. *)
Definition chkd_page (chkdsk_lsn : Z) : buffer :=
  put16 (put16 (restart_page magic_CHKD chkdsk_lsn 0 1 0xffff 0xffff 0 0x400000 44) 4 0)
        6 0.

(** ** Buffers and pages held, as the record of the calls tells *)

(** The buffers that [IOMalloc] has returned and [IOFree] was not given
    since, latest first, whatever the sizes; [None] when [IOFree] was given
    a buffer that is not one of them. *)
Fixpoint heap (t : list event) : option (list nat) :=
  match t with
  | [] => Some []
  | e :: t' =>
    match heap t' with
    | None => None
    | Some l =>
      match e with
      | IOMalloc_call a _ => Some (a :: l)
      | IOFree_call a _ =>
        if existsb (Nat.eqb a) l
        then Some (filter (fun b => negb (Nat.eqb a b)) l)
        else None
      | _ => Some l
      end
    end
  end.

(** The calls of [ntfs_page_map] less the calls of [ntfs_page_unmap]. *)
Fixpoint mapped_pages (t : list event) : Z :=
  match t with
  | [] => 0
  | ntfs_page_map_call _ :: t' => mapped_pages t' + 1
  | ntfs_page_unmap_call _ :: t' => mapped_pages t' - 1
  | _ :: t' => mapped_pages t'
  end.

(** The buffers [l] are the ones allocated and not freed, each once, and
    all of them older than the next allocation. *)
Definition heap_is (l : list nat) (s : state) : Prop :=
  heap (trace s) = Some l
  /\ NoDup l
  /\ Forall (fun a => (a < next_alloc s)%nat) l.

(** A state in the course of a computation that started with the buffers
    [frame] and [base] pages: the computation holds the buffers [own] and
    [n] pages of its own.  The part about the buffers is under the
    condition [X] that it held when the computation started. *)
Definition holds (X : Prop) (frame : list nat) (base : Z)
           (own : list nat) (n : Z) (s : state) : Prop :=
  (X -> heap_is (own ++ frame) s)
  /\ mapped_pages (trace s) = base + n.

(** A computation that starts holding [own] and [n] ends, when it returns
    [a], holding some [own'] and [n'] with [Q a own' n']. *)
Definition spec (X : Prop) (frame : list nat) (base : Z) {A : Type}
           (m : M A) (own : list nat) (n : Z)
           (Q : A -> list nat -> Z -> Prop) : Prop :=
  forall (s : state) (a : A) (s' : state),
    holds X frame base own n s ->
    m s = Ok a s' ->
    exists (own' : list nat) (n' : Z), Q a own' n' /\ holds X frame base own' n' s'.

(** A computation that does not panic. *)
Definition safe {A : Type} (m : M A) : Prop :=
  forall (s : state) (msg : string), m s <> Panic msg.

(** What [ntfs_restart_page_load] returns: the errno [err], [*wrp] and
    [*lsn]. *)
Definition load_outcome (rp : buffer) (pos : Z) (wrp lsn : bool)
           (err : Z) (w : option kbuf) (l : option Z) : Prop :=
  (err = 0 \/ err = EINVAL \/ err = ENOMEM \/ err = EIO)
  /\ (err <> 0 -> w = None /\ l = None)
  /\ (err = 0 ->
      ntfs_restart_page_header_is_valid rp pos = TRUE
      /\ ntfs_restart_area_is_valid rp = TRUE
      /\ (w <> None <-> wrp = true)
      /\ l = (if lsn
              then Some (if ntfs_is_rstr_record (RESTART_PAGE_HEADER.magic rp)
                         then sle64_to_cpu
                                (RESTART_AREA.current_lsn
                                   (ptr_add rp (RESTART_PAGE_HEADER.restart_area_offset rp)))
                         else sle64_to_cpu (RESTART_PAGE_HEADER.chkdsk_lsn rp))
              else None)
      /\ (forall p : kbuf,
             w = Some p ->
             ntfs_is_rstr_record (RESTART_PAGE_HEADER.magic rp) = true ->
             RESTART_AREA.client_in_use_list
               (ptr_add rp (RESTART_PAGE_HEADER.restart_area_offset rp))
             <> LOGFILE_NO_CLIENT ->
             ntfs_log_client_array_is_consistent (contents p) = TRUE)).

(** The buffers of the restart pages that the scan has found. *)
Definition found_buffers (st : scan_state) : list nat :=
  match rstr2_ph st with Some p => [addr p] | None => [] end
  ++ match rstr1_ph st with Some p => [addr p] | None => [] end.

(** The pages that the scan has mapped: one or none. *)
Definition mapped_by_scan (st : scan_state) : Z :=
  match upl st with Some _ => 1 | None => 0 end.

(** The calls that change neither the buffers nor the pages held. *)
Definition uncounted (e : event) : Prop :=
  match e with
  | IOMalloc_call _ _ | IOFree_call _ _ | ntfs_page_map_call _
  | ntfs_page_unmap_call _ => False
  | _ => True
  end.

(** What holds of the variables of the scan each time the loop condition
    is tested. *)
Definition scan_head (st : scan_state) : Prop :=
  0 <= pos st
  /\ rstr2_ph st = None
  /\ (pos st = 0 -> rstr1_ph st = None)
  /\ (rstr1_ph st <> None -> logfile_is_empty st = false).

(** How the scan is left, holding the buffers [own] and [n] pages. *)
Definition scan_left (x : scan_exit) (own : list nat) (n : Z) : Prop :=
  match x with
  | Scanned st =>
    own = found_buffers st /\ n = mapped_by_scan st
    /\ (rstr2_ph st <> None -> rstr1_ph st <> None)
    /\ (rstr1_ph st <> None -> logfile_is_empty st = false)
  | GotoErr err st =>
    own = found_buffers st /\ rstr2_ph st = None
    /\ (n = 0 \/ n = 1) /\ (err = EIO \/ err = ENOMEM)
  end.

(** What [ntfs_logfile_check] holds when it returns: the buffer it hands
    over in [*rp] and no page, or the one page whose mapping failed. *)
Definition check_left (rp : bool) (r : Z * option kbuf) (own : list nat) (n : Z) : Prop :=
  own = match snd r with Some p => [addr p] | None => [] end
  /\ (n = 0 \/ (n = 1 /\ (fst r = EIO \/ fst r = ENOMEM)))
  /\ (snd r <> None -> fst r = 0 /\ rp = true).

(** ** The calls of ntfs_logfile_check, in their order *)

(** The calls made while the journal is read: pages, buffers, fixups and
    error messages. *)
Definition reading (e : event) : Prop :=
  match e with
  | ntfs_page_map_call _ | ntfs_page_unmap_call _ | ntfs_mst_fixup_post_read_call _ _
  | IOMalloc_call _ _ | IOFree_call _ _ | ntfs_error_call _ => True
  | _ => False
  end.

(** The calls made after the lock is released: buffers freed and error
    messages. *)
Definition closing (e : event) : Prop :=
  match e with
  | IOFree_call _ _ | ntfs_error_call _ => True
  | _ => False
  end.

(** A computation that adds to the record only calls with the property
    [P]. *)
Definition appends {A : Type} (P : event -> Prop) (m : M A) : Prop :=
  forall (s : state) (a : A) (s' : state),
    m s = Ok a s' ->
    exists new : list event, trace s' = new ++ trace s /\ Forall P new.

(** The restart page that is returned, of the one or two found. *)
Definition chosen (st : scan_state) (p1 : kbuf) : kbuf :=
  match rstr2_ph st with
  | Some p2 => if rstr2_lsn st >? rstr1_lsn st then p2 else p1
  | None => p1
  end.

(** What [ntfs_logfile_check] does after its scan was left as [x] in the
    state [s1]: it returns [r] in the state [s']. *)
Definition left_scan (rp : bool) (x : scan_exit) (s1 : state)
           (r : Z * option kbuf) (s' : state) : Prop :=
  match x with
  | GotoErr err st =>
    r = (err, None)
    /\ LogFileEmpty s' = LogFileEmpty s1
    /\ exists post : list event,
        trace s' = post ++ vnode_put_call :: lck_rw_unlock_shared_call :: trace s1
        /\ Forall closing post
  | Scanned st =>
    (exists post : list event,
        trace s'
        = post ++ vnode_put_call :: lck_rw_unlock_shared_call
               :: match upl st with
                  | Some (mapped, _) => [ntfs_page_unmap_call mapped]
                  | None => []
                  end ++ trace s1
        /\ Forall closing post)
    /\ if logfile_is_empty st
       then r = (0, None) /\ LogFileEmpty s' = true
            /\ trace s'
               = vnode_put_call :: lck_rw_unlock_shared_call
                   :: match upl st with
                      | Some (mapped, _) => [ntfs_page_unmap_call mapped]
                      | None => []
                      end ++ trace s1
       else LogFileEmpty s' = LogFileEmpty s1
            /\ match rstr1_ph st with
               | None => r = (EINVAL, None)
               | Some p1 => r = (0, if rp then Some (chosen st p1) else None)
               end
  end.

(** The host on which every block of the journal reads as 0xff bytes. *)
Definition blank_host : host :=
  {| PAGE_SHIFT := 12;
     vnode_get_result := fun _ => 0;
     ntfs_page_map_result := fun _ _ => inr (repeat 0xff 4096);
     ntfs_mst_fixup_post_read_result := ntfs_mst_fixup_post_read_result quiet_host;
     ntfs_attr_set_result := ntfs_attr_set_result quiet_host;
     IOMalloc_succeeds := fun _ _ => true |}.

(** The host whose [vnode_get] fails with EINVAL. *)
Definition stale_vnode_host : host :=
  {| PAGE_SHIFT := 12;
     vnode_get_result := fun _ => EINVAL;
     ntfs_page_map_result := ntfs_page_map_result quiet_host;
     ntfs_mst_fixup_post_read_result := ntfs_mst_fixup_post_read_result quiet_host;
     ntfs_attr_set_result := ntfs_attr_set_result quiet_host;
     IOMalloc_succeeds := fun _ _ => true |}.

(** A call that is not an [ntfs_page_map] at a position off the page
    boundaries. *)
Definition aligned_map (h : host) (e : event) : Prop :=
  match e with
  | ntfs_page_map_call p => p mod PAGE_SIZE h = 0
  | _ => True
  end.

(** What holds of the position and of the mapped page each time the loop
    condition of the scan is tested: the position is 0 or a power of two
    from 512 on; the page mapped, if one is, is the one at [ppos], which is
    on a page boundary and not after [pos]. *)
Definition scan_position (h : host) (st : scan_state) : Prop :=
  (upl st = None -> pos st = 0)
  /\ 0 <= ppos st <= pos st
  /\ ppos st mod PAGE_SIZE h = 0
  /\ (pos st = 0 \/ exists j : Z, 9 <= j /\ pos st = 2 ^ j).

(** A computation all of whose results have the property [Q]. *)
Definition gives {A : Type} (m : M A) (Q : A -> Prop) : Prop :=
  forall (s : state) (a : A) (s' : state), m s = Ok a s' -> Q a.

(** Two buffers that agree on the first block but for its last two bytes,
    the ones that the multi sector transfer fixup replaces. *)
Definition same_block (a b : buffer) : Prop :=
  forall i : Z, 0 <= i < NTFS_BLOCK_SIZE - sizeof_u16 -> byte_at a i = byte_at b i.

(** A fixup that, when it finds no error, has changed nothing before the
    last two bytes of the first block. *)
Definition fixup_keeps_block (h : host) : Prop :=
  forall (b : buffer) (size : Z),
    fst (ntfs_mst_fixup_post_read_result h b size) = 0 ->
    same_block (snd (ntfs_mst_fixup_post_read_result h b size)) b.

(** The bytes of [rp] that lie in the page it points into, for a page at
    [pos]: what the first copy of [ntfs_restart_page_load] takes. *)
Definition bytes_in_page (h : host) (pos : Z) : Z :=
  u32 (PAGE_SIZE h - Z.land (u32 pos) (PAGE_MASK h)).

(** A buffer whose magic is RSTR or CHKD. *)
Definition restart_magic (b : buffer) : Prop :=
  ntfs_is_rstr_record (RESTART_PAGE_HEADER.magic b)
  || ntfs_is_chkd_record (RESTART_PAGE_HEADER.magic b) = true.

(** The buffers of the restart pages found so far have such a magic. *)
Definition found_restart_magic (st : scan_state) : Prop :=
  (forall p : kbuf, rstr1_ph st = Some p -> restart_magic (contents p))
  /\ (forall p : kbuf, rstr2_ph st = Some p -> restart_magic (contents p)).

(** A fixup that finds no error. *)
Definition fixup_succeeds (h : host) : Prop :=
  forall (b : buffer) (size : Z), fst (ntfs_mst_fixup_post_read_result h b size) = 0.

(** The calls that map and unmap pages. *)
Definition mapping (e : event) : Prop :=
  match e with
  | ntfs_page_map_call _ | ntfs_page_unmap_call _ => True
  | _ => False
  end.

(** A scan that was left with every block it has looked at empty. *)
Definition all_empty (x : scan_exit) : Prop :=
  match x with
  | Scanned st => logfile_is_empty st = true
  | GotoErr _ _ => False
  end.

(** A computation that, when its result has the property [C], has added
    to the record only calls with the property [P]. *)
Definition appends_when {A : Type} (C : A -> Prop) (P : event -> Prop) (m : M A) : Prop :=
  forall (s : state) (a : A) (s' : state),
    m s = Ok a s' -> C a ->
    exists new : list event, trace s' = new ++ trace s /\ Forall P new.

(** * Properties *)

(** ** Bits and integers *)

Lemma land_2_testbit (x : Z) : (Z.land x 2 =? 0) = negb (Z.testbit x 1).
Proof.
  destruct (Z.testbit x 1) eqn:Hb; simpl.
  - apply Z.eqb_neq. intro H0.
    assert (Hc : Z.testbit (Z.land x 2) 1 = true)
      by (rewrite Z.land_spec, Hb; reflexivity).
    rewrite H0 in Hc. discriminate.
  - apply Z.eqb_eq. apply Z.bits_inj'. intros n Hn.
    rewrite Z.land_spec, Z.bits_0.
    destruct (Z.eq_dec n 1) as [->|Hne].
    + rewrite Hb. reflexivity.
    + change 2 with (2 ^ 1). rewrite Z.pow2_bits_eqb by lia.
      destruct (Z.eqb_spec 1 n); [lia|]. apply andb_false_r.
Qed.

(** ** The clean-shutdown decision *)

(** C1.  [ntfs_logfile_is_clean] answers TRUE for a journal marked empty,
    whatever restart page it is given; for a journal not marked empty and a
    restart page with the RSTR or the CHKD magic it answers FALSE exactly
    when the in-use list of the restart area is not [LOGFILE_NO_CLIENT] and
    the clean bit (bit 1, [RESTART_VOLUME_IS_CLEAN]) of its flags is
    clear, and TRUE in every other case; the state is left as it was. *)
Theorem is_clean_decision :
  (forall (s : state) (rp : option buffer),
      NVolLogFileEmpty s = true ->
      ntfs_logfile_is_clean rp s = Ok true s)
  /\
  (forall (s : state) (rp : buffer),
      NVolLogFileEmpty s = false ->
      ntfs_is_rstr_record (RESTART_PAGE_HEADER.magic rp) = true
      \/ ntfs_is_chkd_record (RESTART_PAGE_HEADER.magic rp) = true ->
      let ra := ptr_add rp (RESTART_PAGE_HEADER.restart_area_offset rp) in
      exists clean : bool,
        ntfs_logfile_is_clean (Some rp) s = Ok clean s
        /\ (clean = false <->
            RESTART_AREA.client_in_use_list ra <> LOGFILE_NO_CLIENT
            /\ Z.testbit (RESTART_AREA.flags ra) 1 = false)).
Proof.
  split.
  - intros s rp He. unfold ntfs_logfile_is_clean. rewrite He. reflexivity.
  - intros s rp He Hm ra. unfold ntfs_logfile_is_clean. rewrite He.
    assert (Hg : negb (ntfs_is_rstr_record (RESTART_PAGE_HEADER.magic rp))
                 && negb (ntfs_is_chkd_record (RESTART_PAGE_HEADER.magic rp)) = false)
      by (destruct Hm as [-> | ->]; simpl; auto using andb_false_r).
    rewrite Hg. unfold le16_to_cpu. fold ra.
    unfold RESTART_VOLUME_IS_CLEAN. rewrite land_2_testbit.
    destruct (Z.eqb_spec (RESTART_AREA.client_in_use_list ra) LOGFILE_NO_CLIENT) as [E|E];
      destruct (Z.testbit (RESTART_AREA.flags ra) 1) eqn:Hb; simpl.
    + exists true. split; [reflexivity|]. split; [discriminate|]. intros [H _]. contradiction.
    + exists true. split; [reflexivity|]. split; [discriminate|]. intros [H _]. contradiction.
    + exists true. split; [reflexivity|]. split; [discriminate|]. intros [_ H]. discriminate.
    + exists false. split; [reflexivity|]. split; auto.
Qed.

(** The decision at two journals: one marked empty, asked without a restart
    page; one with an open client and the clean bit clear, which is
    dirty. *)
Lemma is_clean_decision_witness :
  ntfs_logfile_is_clean None (set_LogFileEmpty (journal [] [])) = Ok true (set_LogFileEmpty (journal [] []))
  /\ (NVolLogFileEmpty (journal [] []) = false
      /\ ntfs_is_rstr_record (RESTART_PAGE_HEADER.magic (rstr_page 105 0)) = true
      /\ exists clean : bool,
          ntfs_logfile_is_clean (Some (rstr_page 105 0)) (journal [] []) = Ok clean (journal [] [])
          /\ (clean = false <->
              RESTART_AREA.client_in_use_list (ptr_add (rstr_page 105 0) 48) <> LOGFILE_NO_CLIENT
              /\ Z.testbit (RESTART_AREA.flags (ptr_add (rstr_page 105 0) 48)) 1 = false)).
Proof.
  split.
  - apply (proj1 is_clean_decision). reflexivity.
  - split; [reflexivity|]. split; [reflexivity|].
    apply (proj2 is_clean_decision (journal [] []) (rstr_page 105 0)).
    + reflexivity.
    + left. reflexivity.
Defined.

(** C9.  On a journal that is not marked empty, a restart page whose magic
    is neither RSTR nor CHKD makes [ntfs_logfile_is_clean] return FALSE: it
    reports one error and changes nothing else. *)
Theorem is_clean_rejects_foreign_magic :
  forall (s : state) (rp : buffer),
    NVolLogFileEmpty s = false ->
    ntfs_is_rstr_record (RESTART_PAGE_HEADER.magic rp) = false ->
    ntfs_is_chkd_record (RESTART_PAGE_HEADER.magic rp) = false ->
    exists msg : string,
      ntfs_logfile_is_clean (Some rp) s = Ok false (called (ntfs_error_call msg) s).
Proof.
  intros s rp He Hr Hc. unfold ntfs_logfile_is_clean.
  rewrite He, Hr, Hc. simpl. eexists. reflexivity.
Qed.

Lemma is_clean_rejects_foreign_magic_witness :
  NVolLogFileEmpty (journal [] []) = false
  /\ ntfs_is_rstr_record (RESTART_PAGE_HEADER.magic rcrd_page) = false
  /\ ntfs_is_chkd_record (RESTART_PAGE_HEADER.magic rcrd_page) = false
  /\ exists msg : string,
      ntfs_logfile_is_clean (Some rcrd_page) (journal [] [])
      = Ok false (called (ntfs_error_call msg) (journal [] [])).
Proof.
  repeat (split; [reflexivity|]).
  apply is_clean_rejects_foreign_magic; reflexivity.
Defined.

(** ** The sequence number bits *)

Lemma bitlength_shiftr (x : Z) :
  0 < x -> bitlength x = 1 + bitlength (Z.shiftr x 1).
Proof.
  intros Hx. unfold bitlength.
  destruct (Z.eqb_spec x 0); [lia|].
  destruct (Z.eq_dec x 1) as [->|H1]; [reflexivity|].
  assert (Hs : 0 < Z.shiftr x 1).
  { rewrite Z.shiftr_div_pow2 by lia. change (2 ^ 1) with 2.
    apply Z.div_str_pos. lia. }
  destruct (Z.eqb_spec (Z.shiftr x 1) 0); [lia|].
  rewrite Z.log2_shiftr by lia.
  assert (1 <= Z.log2 x) by (change 1 with (Z.log2 2); apply Z.log2_le_mono; lia).
  lia.
Qed.

Lemma bitlength_range (x : Z) (n : Z) :
  0 <= n -> 0 <= x < 2 ^ n -> 0 <= bitlength x <= n.
Proof.
  intros Hn Hx. unfold bitlength. destruct (Z.eqb_spec x 0); [lia|].
  assert (Z.log2 x < n) by (apply Z.log2_lt_pow2; lia).
  pose proof (Z.log2_nonneg x). lia.
Qed.

(** The loop leaves with [file_size = 0] and has counted the bit length. *)
Lemma fs_bits_loop_spec (fuel : nat) :
  forall x acc : Z,
    0 <= x < 2 ^ Z.of_nat fuel -> 0 <= acc -> acc + Z.of_nat fuel < 256 ->
    fs_bits_loop fuel x acc = (0, acc + bitlength x).
Proof.
  induction fuel as [|fuel IH]; intros x acc Hx Ha Hb.
  - simpl in *. assert (x = 0) by lia. subst. f_equal. unfold bitlength. simpl. lia.
  - cbn [fs_bits_loop]. destruct (Z.eqb_spec x 0) as [->|Hne].
    + f_equal. unfold bitlength. simpl. lia.
    + assert (Hu : u8 (acc + 1) = acc + 1)
        by (unfold u8; apply Z.mod_small; change (2 ^ 8) with 256; lia).
      rewrite Hu, IH.
      * rewrite (bitlength_shiftr x) by lia. f_equal. lia.
      * rewrite Z.shiftr_div_pow2 by lia. change (2 ^ 1) with 2.
        rewrite Nat2Z.inj_succ, Z.pow_succ_r in Hx by lia.
        split; [apply Z.div_pos; lia|]. apply Z.div_lt_upper_bound; lia.
      * lia.
      * lia.
Qed.

Lemma fs_bits_loop_exits (x : Z) :
  0 <= x < 2 ^ 64 -> fst (fs_bits_loop 64 x 0) = 0.
Proof. intros Hx. rewrite (fs_bits_loop_spec 64) by (simpl; lia). reflexivity. Qed.

Lemma fs_bits_of_bitlength (x : Z) :
  0 <= x < 2 ^ 64 -> fs_bits_of x = bitlength x.
Proof.
  intros Hx. unfold fs_bits_of. rewrite (fs_bits_loop_spec 64) by (simpl; lia). reflexivity.
Qed.

Lemma u64_range (x : Z) : 0 <= u64 x < 2 ^ 64.
Proof. unfold u64. apply Z.mod_pos_bound. reflexivity. Qed.

Lemma u64_s64_nonneg (v : Z) : 0 <= s64 v -> u64 (s64 v) = s64 v.
Proof.
  unfold u64, s64. intros H.
  pose proof (Z.mod_pos_bound v (2 ^ 64) eq_refl) as Hm.
  destruct (Z.ltb_spec (v mod 2 ^ 64) (2 ^ 63)).
  - apply Z.mod_small. lia.
  - lia.
Qed.

(** The expected field value, [(unsigned)(67 - fs_bits)], never wraps. *)
Lemma expected_seq_number_bits (x : Z) :
  0 <= x < 2 ^ 64 ->
  u32 (67 - fs_bits_of x) = 67 - bitlength x /\ 3 <= 67 - bitlength x <= 67.
Proof.
  intros Hx. rewrite fs_bits_of_bitlength by assumption.
  pose proof (bitlength_range x 64 ltac:(lia) Hx).
  split; [|lia]. unfold u32. apply Z.mod_small. change (2 ^ 32) with 4294967296. lia.
Qed.

(** C5.  A restart area whose [seq_number_bits] is 67 minus the bit length
    of a non-negative [file_size] is not rejected by the sequence number
    bits check of [ntfs_restart_area_is_valid]; and whatever [file_size]
    is, a restart area whose [seq_number_bits] is one more or one less than
    67 minus the bit length of [file_size] (read as the unsigned 64-bit
    number the code shifts) is rejected by [ntfs_restart_area_is_valid]. *)
Theorem seq_number_bits_round_trip :
  forall rp : buffer,
    let ra := ptr_add rp (RESTART_PAGE_HEADER.restart_area_offset rp) in
    let file_size := sle64_to_cpu (RESTART_AREA.file_size ra) in
    (0 <= file_size ->
     RESTART_AREA.seq_number_bits ra = 67 - bitlength file_size ->
     ntfs_restart_area_is_valid rp <> FALSE seq_number_bits_error)
    /\
    (forall d : Z,
        d = 1 \/ d = -1 ->
        RESTART_AREA.seq_number_bits ra = 67 - bitlength (u64 file_size) + d ->
        is_true (ntfs_restart_area_is_valid rp) = false).
Proof.
  intros rp ra file_size. split.
  - intros Hfs Hseq. unfold ntfs_restart_area_is_valid, le16_to_cpu, le32_to_cpu.
    fold ra. fold file_size.
    destruct (expected_seq_number_bits (u64 file_size) (u64_range _)) as [He _].
    assert (Hu : u64 file_size = file_size) by (apply u64_s64_nonneg; exact Hfs).
    rewrite He, Hu, Hseq, Z.eqb_refl. cbn [negb].
    repeat match goal with
           | |- (if ?c then _ else _) <> _ => destruct c
           end; unfold seq_number_bits_error; discriminate.
  - intros d Hd Hseq. unfold ntfs_restart_area_is_valid, le16_to_cpu, le32_to_cpu.
    fold ra. fold file_size.
    destruct (expected_seq_number_bits (u64 file_size) (u64_range _)) as [He _].
    rewrite He, Hseq.
    assert (Hne : (67 - bitlength (u64 file_size) + d =? 67 - bitlength (u64 file_size)) = false)
      by (apply Z.eqb_neq; lia).
    rewrite Hne. cbn [negb].
    repeat match goal with
           | |- is_true (if ?c then _ else _) = false => destruct c
           end; reflexivity.
Qed.

(** A journal of 4 MiB has a [file_size] of 23 bits: with 44 sequence number
    bits the restart area is valid, with 45 or 43 it fails the check. *)
Lemma seq_number_bits_round_trip_witness :
  let ra := ptr_add (rstr_page_seq_number_bits 44) 48 in
  (0 <= sle64_to_cpu (RESTART_AREA.file_size ra)
   /\ ntfs_restart_area_is_valid (rstr_page_seq_number_bits 44) <> FALSE seq_number_bits_error
   /\ ntfs_restart_area_is_valid (rstr_page_seq_number_bits 44) = TRUE)
  /\ ntfs_restart_area_is_valid (rstr_page_seq_number_bits 45) = FALSE seq_number_bits_error
  /\ ntfs_restart_area_is_valid (rstr_page_seq_number_bits 43) = FALSE seq_number_bits_error
  /\ is_true (ntfs_restart_area_is_valid (rstr_page_seq_number_bits 45)) = false
  /\ is_true (ntfs_restart_area_is_valid (rstr_page_seq_number_bits 43)) = false.
Proof.
  intros ra. split; [split; [|split]|split; [|split; [|split]]].
  - vm_compute. discriminate.
  - apply (proj1 (seq_number_bits_round_trip (rstr_page_seq_number_bits 44))).
    + vm_compute. discriminate.
    + vm_compute. reflexivity.
  - vm_compute. reflexivity.
  - vm_compute. reflexivity.
  - vm_compute. reflexivity.
  - apply (proj2 (seq_number_bits_round_trip (rstr_page_seq_number_bits 45)) 1).
    + left. reflexivity.
    + vm_compute. reflexivity.
  - apply (proj2 (seq_number_bits_round_trip (rstr_page_seq_number_bits 43)) (-1)).
    + right. reflexivity.
    + vm_compute. reflexivity.
Defined.

(** ** The client lists *)

Lemma byte_at_range (b : buffer) (o : Z) : 0 <= byte_at b o < 256.
Proof.
  unfold byte_at. destruct (o <? 0); [lia|].
  apply Z.mod_pos_bound. reflexivity.
Qed.

Lemma le16_at_range (b : buffer) (o : Z) : 0 <= le16_at b o < 2 ^ 16.
Proof.
  unfold le16_at. pose proof (byte_at_range b o). pose proof (byte_at_range b (o + 1)).
  change (2 ^ 8) with 256. change (2 ^ 16) with 65536. lia.
Qed.

Section ClientLists.
Variable rp : buffer.

(** One turn of the machine, in the words used by the statements. *)
Lemma ca_step_eq (s : ca_state) :
  ca_step rp s =
  if negb (idx s =? LOGFILE_NO_CLIENT_CPU) then
    if (nr_clients s =? 0) || (idx s >=? log_clients_of rp) then Return false
    else
      let next := {| in_free_list := in_free_list s; idx_is_first := false;
                     idx := next_of rp (idx s);
                     nr_clients := u16 (nr_clients s - 1) |} in
      if idx_is_first s then
        if negb (prev_of rp (idx s) =? LOGFILE_NO_CLIENT) then Return false
        else Visit (idx s) next
      else Visit (idx s) next
  else if in_free_list s then
    Switch {| in_free_list := false; idx_is_first := true;
              idx := in_use_list_of rp; nr_clients := nr_clients s |}
  else Return true.
Proof. reflexivity. Qed.

Lemma ca_init_eq :
  ca_init rp = {| in_free_list := true; idx_is_first := true;
                  idx := free_list_of rp; nr_clients := log_clients_of rp |}.
Proof. reflexivity. Qed.

Lemma consistent_eq :
  ntfs_log_client_array_is_consistent rp =
  match ca_run rp (Z.to_nat (log_clients_of rp) + 2) (ca_init rp) with
  | Some (true, _) => TRUE
  | _ => FALSE client_array_error
  end.
Proof. reflexivity. Qed.

Lemma log_clients_range : 0 <= log_clients_of rp < 2 ^ 16.
Proof. apply le16_at_range. Qed.

Lemma ca_run_more_fuel (fuel : nat) :
  forall (s : ca_state) (r : bool * list Z) (k : nat),
    ca_run rp fuel s = Some r -> ca_run rp (fuel + k) s = Some r.
Proof.
  induction fuel as [|fuel IH]; intros s r k H; [discriminate|].
  cbn [ca_run Nat.add] in *. destruct (ca_step rp s) as [b|cr s'|s'].
  - exact H.
  - destruct (ca_run rp fuel s') as [[b v]|] eqn:E; [|discriminate].
    rewrite (IH _ _ k E). exact H.
  - apply IH. exact H.
Qed.

(** The budget bounds the turns of the machine and the records it
    visits. *)
Lemma ca_run_returns (fuel : nat) :
  forall s : ca_state,
    0 <= nr_clients s < 2 ^ 16 ->
    (Z.to_nat (nr_clients s) + (if in_free_list s then 2 else 1) <= fuel)%nat ->
    exists (b : bool) (visited : list Z),
      ca_run rp fuel s = Some (b, visited)
      /\ Z.of_nat (List.length visited) <= nr_clients s.
Proof.
  induction fuel as [|fuel IH]; intros s Hn Hf.
  - destruct (in_free_list s); lia.
  - cbn [ca_run]. rewrite ca_step_eq.
    destruct (negb (idx s =? LOGFILE_NO_CLIENT_CPU)).
    + destruct (Z.eqb_spec (nr_clients s) 0) as [H0|H0]; cbn [orb].
      { exists false, []. split; [reflexivity|]. simpl. lia. }
      destruct (idx s >=? log_clients_of rp).
      { exists false, []. split; [reflexivity|]. simpl. lia. }
      assert (Hu : u16 (nr_clients s - 1) = nr_clients s - 1)
        by (unfold u16; apply Z.mod_small; lia).
      cbv zeta. rewrite Hu.
      set (s' := {| in_free_list := in_free_list s; idx_is_first := false;
                    idx := next_of rp (idx s); nr_clients := nr_clients s - 1 |}).
      assert (Hs' : exists b v, ca_run rp fuel s' = Some (b, v)
                                /\ Z.of_nat (List.length v) <= nr_clients s - 1).
      { apply IH; subst s'; cbn [nr_clients in_free_list]; [lia|].
        destruct (in_free_list s); lia. }
      destruct Hs' as (b & v & Hr & Hl).
      assert (Hv : exists b0 v0,
                 match ca_run rp fuel s' with
                 | Some (b1, visited) => Some (b1, idx s :: visited)
                 | None => None
                 end = Some (b0, v0) /\ Z.of_nat (List.length v0) <= nr_clients s).
      { rewrite Hr. exists b, (idx s :: v). split; [reflexivity|].
        cbn [List.length]. lia. }
      destruct (idx_is_first s); [|exact Hv].
      destruct (negb (prev_of rp (idx s) =? LOGFILE_NO_CLIENT)); [|exact Hv].
      exists false, []. split; [reflexivity|]. simpl. lia.
    + destruct (in_free_list s) eqn:Ef.
      * match goal with
        | |- context [ca_run rp fuel ?s'] => apply (IH s')
        end; cbn [nr_clients in_free_list]; lia.
      * exists true, []. split; [reflexivity|]. simpl. lia.
Qed.

(** A set of records closed under [next_client] that does not hold the
    sentinel keeps the machine from returning TRUE. *)
Lemma ca_run_trapped (L : list Z) :
  (forall i, In i L -> i <> LOGFILE_NO_CLIENT_CPU /\ In (next_of rp i) L) ->
  forall (fuel : nat) (s : ca_state) (v : list Z),
    In (idx s) L \/ (in_free_list s = true /\ In (in_use_list_of rp) L) ->
    ca_run rp fuel s <> Some (true, v).
Proof.
  intros HL. induction fuel as [|fuel IH]; intros s v Hs; [discriminate|].
  cbn [ca_run]. rewrite ca_step_eq.
  destruct (Z.eqb_spec (idx s) LOGFILE_NO_CLIENT_CPU) as [E|E]; cbn [negb].
  - destruct Hs as [Hs|[Hf Hu]].
    + destruct (HL _ Hs) as [Hne _]. contradiction.
    + rewrite Hf. apply IH. left. exact Hu.
  - destruct ((nr_clients s =? 0) || (idx s >=? log_clients_of rp)); [discriminate|].
    cbv zeta.
    set (s' := {| in_free_list := in_free_list s; idx_is_first := false;
                  idx := next_of rp (idx s); nr_clients := u16 (nr_clients s - 1) |}).
    assert (Hv : match ca_run rp fuel s' with
                 | Some (b1, visited) => Some (b1, idx s :: visited)
                 | None => None
                 end <> Some (true, v)).
    { destruct (ca_run rp fuel s') as [[b v']|] eqn:Er; [|discriminate].
      intro Heq. inversion Heq; subst.
      apply (IH s' v'); [|exact Er].
      destruct Hs as [Hs|[Hf Hu]].
      - left. apply (HL _ Hs).
      - right. split; [exact Hf|exact Hu]. }
    destruct (idx_is_first s); [|exact Hv].
    destruct (negb (prev_of rp (idx s) =? LOGFILE_NO_CLIENT)); [discriminate|exact Hv].
Qed.

Lemma linked_closed (L : list Z) (d : Z) :
  forall l : list Z,
    linked rp l -> incl l L -> l <> [] -> In (next_of rp (last l d)) L ->
    forall i, In i l -> In (next_of rp i) L.
Proof.
  induction l as [|a l IH]; intros Hl Hi Hne Hlast i Hin; [contradiction|].
  destruct l as [|b l'].
  - destruct Hin as [<-|[]]. exact Hlast.
  - destruct Hl as [Hab Hl]. destruct Hin as [<-|Hin].
    + rewrite Hab. apply Hi. right. left. reflexivity.
    + apply IH; try assumption.
      * intros x Hx. apply Hi. right. exact Hx.
      * discriminate.
Qed.

Lemma cyclic_list_rejected (head : Z) (l : list Z) :
  cyclic_list rp head l ->
  head = free_list_of rp \/ head = in_use_list_of rp ->
  ntfs_log_client_array_is_consistent rp = FALSE client_array_error.
Proof.
  intros (Hhd & Hlk & Hall & Hback) Hhead. rewrite consistent_eq.
  assert (Hne : l <> []) by (destruct l; [discriminate|discriminate]).
  assert (Hin : In head l) by (destruct l; inversion Hhd; left; reflexivity).
  assert (HL : forall i, In i l -> i <> LOGFILE_NO_CLIENT_CPU /\ In (next_of rp i) l).
  { intros i Hi. split.
    - rewrite Forall_forall in Hall. apply Hall. exact Hi.
    - apply (linked_closed l head l); auto using incl_refl. }
  destruct (ca_run rp (Z.to_nat (log_clients_of rp) + 2) (ca_init rp))
    as [[[|] v]|] eqn:Er; try reflexivity.
  exfalso. apply (ca_run_trapped l HL _ _ v) in Er; [exact Er|].
  rewrite ca_init_eq. cbn [idx in_free_list].
  destruct Hhead as [<-|<-]; [left|right]; auto.
Qed.
End ClientLists.

(** C4.  Whatever the client records and the two heads are, the traversal
    of [ntfs_log_client_array_is_consistent] returns within
    [log_clients + 2] turns of its loop and has run the loop body on at
    most [log_clients] records; and when the free list or the in-use list
    is a list whose last record points back into the list, the function
    returns FALSE. *)
Theorem client_list_traversal_terminates :
  forall rp : buffer,
    (exists (b : bool) (visited : list Z),
        ca_run rp (Z.to_nat (log_clients_of rp) + 2) (ca_init rp) = Some (b, visited)
        /\ Z.of_nat (List.length visited) <= log_clients_of rp
        /\ is_true (ntfs_log_client_array_is_consistent rp) = b)
    /\
    (forall (head : Z) (l : list Z),
        head = free_list_of rp \/ head = in_use_list_of rp ->
        cyclic_list rp head l ->
        ntfs_log_client_array_is_consistent rp = FALSE client_array_error).
Proof.
  intros rp. split.
  - destruct (ca_run_returns rp (Z.to_nat (log_clients_of rp) + 2) (ca_init rp))
      as (b & v & Hr & Hl).
    + rewrite ca_init_eq. cbn [nr_clients]. apply log_clients_range.
    + rewrite ca_init_eq. cbn [nr_clients in_free_list]. lia.
    + exists b, v. split; [exact Hr|]. split.
      * rewrite ca_init_eq in Hl. exact Hl.
      * rewrite consistent_eq, Hr. destruct b; reflexivity.
  - intros head l Hh Hc. apply (cyclic_list_rejected rp head l Hc Hh).
Qed.

(** The list 0 -> 1 -> 2 -> 1 of [cyclic_page] is rejected after three
    records. *)
Lemma client_list_traversal_terminates_witness :
  (in_use_list_of cyclic_page = 0 /\ cyclic_list cyclic_page 0 [0; 1; 2])
  /\ ntfs_log_client_array_is_consistent cyclic_page = FALSE client_array_error
  /\ ca_run cyclic_page 5 (ca_init cyclic_page) = Some (false, [0; 1; 2]).
Proof.
  assert (Hc : cyclic_list cyclic_page 0 [0; 1; 2]).
  { split; [reflexivity|]. split; [|split].
    - vm_compute. auto.
    - repeat constructor; vm_compute; discriminate.
    - vm_compute. auto. }
  split; [split; [reflexivity|exact Hc]|]. split.
  - apply (proj2 (client_list_traversal_terminates cyclic_page) 0 [0; 1; 2]).
    + right. reflexivity.
    + exact Hc.
  - reflexivity.
Defined.

Section SharedBudget.
Variable rp : buffer.

(** The machine on a well-formed list that fits the budget it has left:
    it runs the body once on each record; after the free list it goes
    over to the in-use list with what is left of the budget, after the
    in-use list it returns TRUE. *)
Lemma ca_run_list (l : list Z) :
  forall (s : ca_state) (fuel : nat),
    client_list rp (idx s) l ->
    Forall (fun i => 0 <= i < log_clients_of rp) l ->
    (idx_is_first s = true -> l <> [] -> prev_of rp (idx s) = LOGFILE_NO_CLIENT) ->
    Z.of_nat (List.length l) <= nr_clients s < 2 ^ 16 ->
    ca_run rp (List.length l + S fuel) s =
    if in_free_list s then
      prefixed l (ca_run rp fuel
                    {| in_free_list := false; idx_is_first := true;
                       idx := in_use_list_of rp;
                       nr_clients := nr_clients s - Z.of_nat (List.length l) |})
    else Some (true, l).
Proof.
  induction l as [|i l IH]; intros s fuel Hl Hr Hp Hn.
  - cbn [client_list] in Hl. cbn [List.length Nat.add ca_run].
    rewrite ca_step_eq, Hl. cbn [Z.eqb negb].
    change (LOGFILE_NO_CLIENT_CPU =? LOGFILE_NO_CLIENT_CPU) with true. cbn [negb].
    destruct (in_free_list s); [|reflexivity].
    change (Z.of_nat 0) with 0. rewrite Z.sub_0_r.
    destruct (ca_run rp fuel _) as [[b v]|]; reflexivity.
  - cbn [client_list] in Hl. destruct Hl as (Hi & Hne & Hl).
    inversion Hr as [|? ? Hri Hrl]; subst.
    cbn [List.length] in Hn. cbn [List.length Nat.add ca_run].
    rewrite ca_step_eq.
    destruct (Z.eqb_spec (idx s) LOGFILE_NO_CLIENT_CPU) as [E|_]; [contradiction|].
    cbn [negb].
    destruct (Z.eqb_spec (nr_clients s) 0) as [E|_]; [lia|]. cbn [orb].
    destruct (Z.geb_spec (idx s) (log_clients_of rp)) as [E|_]; [lia|].
    assert (Hu : u16 (nr_clients s - 1) = nr_clients s - 1)
      by (unfold u16; apply Z.mod_small; lia).
    cbv zeta. rewrite Hu.
    set (s' := {| in_free_list := in_free_list s; idx_is_first := false;
                  idx := next_of rp (idx s); nr_clients := nr_clients s - 1 |}).
    assert (Hs' : ca_run rp (List.length l + S fuel) s' =
                  if in_free_list s then
                    prefixed l (ca_run rp fuel
                                  {| in_free_list := false; idx_is_first := true;
                                     idx := in_use_list_of rp;
                                     nr_clients := nr_clients s - 1 - Z.of_nat (List.length l) |})
                  else Some (true, l)).
    { apply (IH s' fuel); subst s'; cbn [idx idx_is_first nr_clients].
      - exact Hl.
      - exact Hrl.
      - discriminate.
      - lia. }
    assert (Hv : match ca_run rp (List.length l + S fuel) s' with
                 | Some (b1, visited) => Some (b1, idx s :: visited)
                 | None => None
                 end =
                 if in_free_list s then
                   prefixed (idx s :: l)
                     (ca_run rp fuel
                        {| in_free_list := false; idx_is_first := true;
                           idx := in_use_list_of rp;
                           nr_clients := nr_clients s - Z.of_nat (S (List.length l)) |})
                 else Some (true, idx s :: l)).
    { rewrite Hs'. destruct (in_free_list s); [|reflexivity].
      replace (nr_clients s - Z.of_nat (S (List.length l)))
        with (nr_clients s - 1 - Z.of_nat (List.length l)) by lia.
      destruct (ca_run rp fuel _) as [[b v]|]; reflexivity. }
    destruct (idx_is_first s) eqn:Ef; [|exact Hv].
    rewrite (Hp eq_refl ltac:(discriminate)).
    change (LOGFILE_NO_CLIENT =? LOGFILE_NO_CLIENT) with true. cbn [negb]. exact Hv.
Qed.

Lemma client_list_unique (l : list Z) :
  forall (l' : list Z) (head : Z),
    client_list rp head l -> client_list rp head l' -> l = l'.
Proof.
  induction l as [|i l IH]; intros [|i' l'] head H H'; cbn [client_list] in *.
  - reflexivity.
  - destruct H' as (-> & Hne & _). contradiction.
  - destruct H as (-> & Hne & _). contradiction.
  - destruct H as (-> & _ & H). destruct H' as (<- & _ & H').
    f_equal. apply (IH l' _ H H').
Qed.

(** What a TRUE tells about the records visited: they are the in-use
    list, or the free list followed by the in-use list. *)
Lemma ca_run_true_in_use (fuel : nat) :
  forall (s : ca_state) (v : list Z),
    in_free_list s = false ->
    ca_run rp fuel s = Some (true, v) -> client_list rp (idx s) v.
Proof.
  induction fuel as [|fuel IH]; intros s v Hf Hr; [discriminate|].
  cbn [ca_run] in Hr. rewrite ca_step_eq, Hf in Hr.
  destruct (Z.eqb_spec (idx s) LOGFILE_NO_CLIENT_CPU) as [E|E]; cbn [negb] in Hr.
  - inversion Hr; subst. exact E.
  - destruct ((nr_clients s =? 0) || (idx s >=? log_clients_of rp)); [discriminate|].
    cbv zeta in Hr.
    assert (Hv : match ca_run rp fuel
                         {| in_free_list := false; idx_is_first := false;
                            idx := next_of rp (idx s);
                            nr_clients := u16 (nr_clients s - 1) |} with
                 | Some (b1, visited) => Some (b1, idx s :: visited)
                 | None => None
                 end = Some (true, v) -> client_list rp (idx s) v).
    { destruct (ca_run rp fuel _) as [[b v']|] eqn:Er; [|discriminate].
      intro Heq. inversion Heq; subst. cbn [client_list].
      split; [reflexivity|]. split; [exact E|].
      apply IH in Er; [exact Er|reflexivity]. }
    destruct (idx_is_first s); [|exact (Hv Hr)].
    destruct (negb (prev_of rp (idx s) =? LOGFILE_NO_CLIENT)); [discriminate|exact (Hv Hr)].
Qed.

Lemma ca_run_true_free (fuel : nat) :
  forall (s : ca_state) (v : list Z),
    in_free_list s = true ->
    ca_run rp fuel s = Some (true, v) ->
    exists l1 l2 : list Z,
      v = l1 ++ l2 /\ client_list rp (idx s) l1
      /\ client_list rp (in_use_list_of rp) l2.
Proof.
  induction fuel as [|fuel IH]; intros s v Hf Hr; [discriminate|].
  cbn [ca_run] in Hr. rewrite ca_step_eq, Hf in Hr.
  destruct (Z.eqb_spec (idx s) LOGFILE_NO_CLIENT_CPU) as [E|E]; cbn [negb] in Hr.
  - exists [], v. split; [reflexivity|]. split; [exact E|].
    apply ca_run_true_in_use in Hr; [exact Hr|reflexivity].
  - destruct ((nr_clients s =? 0) || (idx s >=? log_clients_of rp)); [discriminate|].
    cbv zeta in Hr.
    assert (Hv : match ca_run rp fuel
                         {| in_free_list := true; idx_is_first := false;
                            idx := next_of rp (idx s);
                            nr_clients := u16 (nr_clients s - 1) |} with
                 | Some (b1, visited) => Some (b1, idx s :: visited)
                 | None => None
                 end = Some (true, v) ->
                 exists l1 l2 : list Z,
                   v = l1 ++ l2 /\ client_list rp (idx s) l1
                   /\ client_list rp (in_use_list_of rp) l2).
    { destruct (ca_run rp fuel _) as [[b v']|] eqn:Er; [|discriminate].
      intro Heq. inversion Heq; subst.
      apply IH in Er; [|reflexivity].
      destruct Er as (l1 & l2 & -> & H1 & H2).
      exists (idx s :: l1), l2. split; [reflexivity|]. split; [|exact H2].
      cbn [client_list]. auto. }
    destruct (idx_is_first s); [|exact (Hv Hr)].
    destruct (negb (prev_of rp (idx s) =? LOGFILE_NO_CLIENT)); [discriminate|exact (Hv Hr)].
Qed.

(** Records that differ and lie in the array are at most [log_clients]. *)
Lemma distinct_records_fit (l : list Z) :
  NoDup l -> Forall (fun i => 0 <= i < log_clients_of rp) l ->
  Z.of_nat (List.length l) <= log_clients_of rp.
Proof.
  intros Hnd Hr.
  assert (Hincl : incl l (map Z.of_nat (seq 0 (Z.to_nat (log_clients_of rp))))).
  { intros i Hi. rewrite Forall_forall in Hr. specialize (Hr i Hi).
    apply in_map_iff. exists (Z.to_nat i). split; [lia|].
    apply in_seq. lia. }
  apply NoDup_incl_length in Hincl; [|exact Hnd].
  rewrite length_map, length_seq in Hincl.
  pose proof log_clients_range rp. lia.
Qed.

Lemma well_formed_lists_accepted (fl il : list Z) :
  well_formed_list rp (free_list_of rp) fl ->
  well_formed_list rp (in_use_list_of rp) il ->
  Z.of_nat (List.length fl) + Z.of_nat (List.length il) <= log_clients_of rp ->
  ca_run rp (Z.to_nat (log_clients_of rp) + 2) (ca_init rp) = Some (true, fl ++ il).
Proof.
  intros (Hf1 & Hf2 & Hf3) (Hi1 & Hi2 & Hi3) Hlen.
  pose proof (log_clients_range rp) as Hn.
  assert (Hrun : ca_run rp (List.length fl + S (List.length il + 1)) (ca_init rp)
                 = Some (true, fl ++ il)).
  { rewrite (ca_run_list fl (ca_init rp)); rewrite ?ca_init_eq;
      cbn [idx idx_is_first nr_clients in_free_list]; auto; [|lia].
    rewrite (ca_run_list il); cbn [idx idx_is_first nr_clients in_free_list]; auto.
    lia. }
  replace (Z.to_nat (log_clients_of rp) + 2)%nat
    with (List.length fl + S (List.length il + 1)
          + (Z.to_nat (log_clients_of rp) - List.length fl - List.length il))%nat by lia.
  apply ca_run_more_fuel. exact Hrun.
Qed.
End SharedBudget.

(** C3 (as amended).  The free list is traversed with a budget that starts
    at [log_clients], and a record fails when the budget is used up or its
    index is not below [log_clients]; the in-use list is then traversed
    with what the free list has left of that budget, not with a fresh one.
    So for a well-formed free list and a well-formed in-use list the
    validator returns TRUE exactly when both lists together have at most
    [log_clients] records; this is the case of any two such lists that
    share no record. *)
Theorem client_lists_share_one_budget :
  forall (rp : buffer) (fl il : list Z),
    well_formed_list rp (free_list_of rp) fl ->
    well_formed_list rp (in_use_list_of rp) il ->
    (ntfs_log_client_array_is_consistent rp = TRUE
     <-> Z.of_nat (List.length fl) + Z.of_nat (List.length il) <= log_clients_of rp)
    /\ (NoDup (fl ++ il) -> ntfs_log_client_array_is_consistent rp = TRUE).
Proof.
  intros rp fl il Hf Hi.
  assert (Hok : Z.of_nat (List.length fl) + Z.of_nat (List.length il) <= log_clients_of rp ->
                ntfs_log_client_array_is_consistent rp = TRUE).
  { intros Hlen. rewrite consistent_eq.
    rewrite (well_formed_lists_accepted rp fl il Hf Hi Hlen). reflexivity. }
  split; [split; [|exact Hok]|].
  - intros Ht. rewrite consistent_eq in Ht.
    destruct (ca_run_returns rp (Z.to_nat (log_clients_of rp) + 2) (ca_init rp))
      as (b & v & Hr & Hl).
    + rewrite ca_init_eq. cbn [nr_clients]. apply log_clients_range.
    + rewrite ca_init_eq. cbn [nr_clients in_free_list]. lia.
    + rewrite Hr in Ht. destruct b; [|discriminate].
      apply ca_run_true_free in Hr; [|reflexivity].
      destruct Hr as (l1 & l2 & -> & H1 & H2).
      rewrite ca_init_eq in H1, Hl. cbn [idx nr_clients] in H1, Hl.
      destruct Hf as (Hf & _). destruct Hi as (Hi & _).
      rewrite (client_list_unique rp fl l1 _ Hf H1).
      rewrite (client_list_unique rp il l2 _ Hi H2).
      rewrite length_app in Hl. lia.
  - intros Hnd. apply Hok.
    pose proof (distinct_records_fit rp (fl ++ il) Hnd) as Hd.
    rewrite length_app in Hd. rewrite <- Nat2Z.inj_add. apply Hd.
    destruct Hf as (_ & Hf & _). destruct Hi as (_ & Hi & _).
    apply Forall_app. split; assumption.
Qed.

(** Free list [2], in-use list [0; 1], three clients. *)
Lemma client_lists_share_one_budget_witness :
  well_formed_list three_clients_page (free_list_of three_clients_page) [2]
  /\ well_formed_list three_clients_page (in_use_list_of three_clients_page) [0; 1]
  /\ NoDup ([2] ++ [0; 1])
  /\ ntfs_log_client_array_is_consistent three_clients_page = TRUE.
Proof.
  assert (Hf : well_formed_list three_clients_page (free_list_of three_clients_page) [2]).
  { split; [|split].
    - vm_compute. repeat split; discriminate.
    - repeat constructor; vm_compute; discriminate.
    - intros _. reflexivity. }
  assert (Hi : well_formed_list three_clients_page (in_use_list_of three_clients_page) [0; 1]).
  { split; [|split].
    - vm_compute. repeat split; discriminate.
    - repeat constructor; vm_compute; discriminate.
    - intros _. reflexivity. }
  assert (Hnd : NoDup ([2] ++ [0; 1])).
  { repeat constructor; simpl; intuition discriminate. }
  repeat (split; [assumption|]).
  apply (proj2 (client_lists_share_one_budget three_clients_page [2] [0; 1] Hf Hi) Hnd).
Defined.

(** C3 as it was worded fails on [shared_record_page]: one client, and each
    head names record 0.  Both lists are well formed and no longer than
    [log_clients]; a traversal that gives the in-use list a fresh budget
    accepts them, [ntfs_log_client_array_is_consistent] rejects them. *)
Lemma fresh_budget_counterexample :
  log_clients_of shared_record_page = 1
  /\ well_formed_list shared_record_page (free_list_of shared_record_page) [0]
  /\ well_formed_list shared_record_page (in_use_list_of shared_record_page) [0]
  /\ spec_client_array_is_consistent shared_record_page = true
  /\ ntfs_log_client_array_is_consistent shared_record_page = FALSE client_array_error.
Proof.
  split; [reflexivity|]. split; [|split; [|split]].
  - split; [|split].
    + vm_compute. repeat split; discriminate.
    + repeat constructor; vm_compute; discriminate.
    + intros _. reflexivity.
  - split; [|split].
    + vm_compute. repeat split; discriminate.
    + repeat constructor; vm_compute; discriminate.
    + intros _. reflexivity.
  - reflexivity.
  - reflexivity.
Qed.

(** ** Emptying the journal *)

(** Runs the calls of a computation whose branches are decided. *)
Ltac run_calls :=
  cbv beta iota zeta delta
    [bind ret emit ntfs_error vnode_get vnode_put lck_rw_lock_shared
     lck_rw_unlock_shared ntfs_attr_set NVolSetLogFileEmpty ntfs_page_map
     ntfs_page_unmap IOFree panic out_of_fuel].

(** [ntfs_logfile_empty], branch by branch. *)
Lemma logfile_empty_eq (h : host) (s : state) :
  ntfs_logfile_empty h s =
  if NVolLogFileEmpty s then Ok 0 s
  else if vnode_get_result h s =? 0 then
    let write := ntfs_attr_set_result h (scan_entry s) 0 (data_size s) 0xff in
    let s1 := called vnode_put_call
                (called lck_rw_unlock_shared_call
                   (attr_set_done 0 (data_size s) 0xff (snd write) (scan_entry s))) in
    if fst write =? 0 then Ok 0 (set_LogFileEmpty s1)
    else Ok (fst write)
            (called (ntfs_error_call "Failed to fill $LogFile with 0xff bytes.") s1)
  else Ok (vnode_get_result h s)
          (called (ntfs_error_call "Failed to get vnode for $LogFile.")
                  (called vnode_get_call s)).
Proof.
  unfold ntfs_logfile_empty. destruct (NVolLogFileEmpty s); [reflexivity|].
  cbn [negb]. run_calls.
  destruct (vnode_get_result h s =? 0); [|reflexivity].
  cbn [negb]. fold (scan_entry s).
  destruct (fst (ntfs_attr_set_result h (scan_entry s) 0 (data_size s) 255) =? 0);
    reflexivity.
Qed.

(** C6 (as amended).  [ntfs_logfile_empty] returns 0 and changes nothing
    when the journal is marked empty.  Otherwise, when [vnode_get] fails it
    returns that error, writes nothing and leaves the flag clear; when
    [vnode_get] succeeds it asks [ntfs_attr_set] once for the range
    [0, data_size) and the byte 0xff, returns the errno of that call as it
    is, and the flag is set afterwards exactly when that errno is 0.  The
    bytes of the journal are what [ntfs_attr_set] left; nothing else of the
    state is changed but the record of the calls made. *)
Theorem logfile_empty_outcomes :
  forall (h : host) (s : state),
    (NVolLogFileEmpty s = true -> ntfs_logfile_empty h s = Ok 0 s)
    /\
    (NVolLogFileEmpty s = false -> vnode_get_result h s <> 0 ->
     exists msg : string,
       ntfs_logfile_empty h s
       = Ok (vnode_get_result h s)
            (called (ntfs_error_call msg) (called vnode_get_call s)))
    /\
    (NVolLogFileEmpty s = false -> vnode_get_result h s = 0 ->
     let write := ntfs_attr_set_result h (scan_entry s) 0 (data_size s) 0xff in
     exists s' : state,
       ntfs_logfile_empty h s = Ok (fst write) s'
       /\ (NVolLogFileEmpty s' = true <-> fst write = 0)
       /\ data s' = snd write /\ data_size s' = data_size s
       /\ next_alloc s' = next_alloc s
       /\ exists after : list event,
           trace s' = after ++ ntfs_attr_set_call 0 (data_size s) 0xff
                            :: lck_rw_lock_shared_call :: vnode_get_call :: trace s
           /\ forall ofs cnt val, ~ In (ntfs_attr_set_call ofs cnt val) after).
Proof.
  intros h s. rewrite logfile_empty_eq. split; [|split].
  - intros ->. reflexivity.
  - intros -> Hv.
    destruct (Z.eqb_spec (vnode_get_result h s) 0) as [E|_]; [contradiction|].
    eexists. reflexivity.
  - intros He Hv write. rewrite He, Hv. cbn [Z.eqb]. cbv zeta. fold write.
    unfold NVolLogFileEmpty in *.
    destruct (Z.eqb_spec (fst write) 0) as [E|E].
    + eexists. split; [rewrite E; reflexivity|].
      cbn [LogFileEmpty set_LogFileEmpty called attr_set_done data data_size
           next_alloc trace scan_entry].
      split; [tauto|]. repeat (split; [reflexivity|]).
      exists [vnode_put_call; lck_rw_unlock_shared_call]. split; [reflexivity|].
      intros ofs cnt val [H|[H|[]]]; discriminate.
    + eexists. split; [reflexivity|].
      cbn [LogFileEmpty set_LogFileEmpty called attr_set_done data data_size
           next_alloc trace scan_entry].
      split; [rewrite He; split; [discriminate|contradiction]|].
      repeat (split; [reflexivity|]).
      eexists [ntfs_error_call _; vnode_put_call; lck_rw_unlock_shared_call].
      split; [reflexivity|].
      intros ofs cnt val [H|[H|[H|[]]]]; discriminate.
Qed.

(** The three cases of a journal that is not marked empty: the wipe
    succeeds, [vnode_get] fails, the wipe fails after one page. *)
Lemma logfile_empty_outcomes_witness :
  (exists s', ntfs_logfile_empty quiet_host tiny_journal = Ok 0 s'
              /\ NVolLogFileEmpty s' = true /\ data s' = repeat 0xff 8)
  /\ (exists s', ntfs_logfile_empty no_vnode_host tiny_journal = Ok 2 s'
                 /\ NVolLogFileEmpty s' = false)
  /\ (exists s', ntfs_logfile_empty failing_write_host (small_journal false) = Ok EIO s'
                 /\ NVolLogFileEmpty s' = false).
Proof.
  split; [|split].
  - destruct (proj2 (proj2 (logfile_empty_outcomes quiet_host tiny_journal))
                eq_refl eq_refl) as (s' & Hr & Hf & Hd & _).
    exists s'. split; [exact Hr|]. split; [apply Hf; reflexivity|].
    rewrite Hd. reflexivity.
  - destruct (proj1 (proj2 (logfile_empty_outcomes no_vnode_host tiny_journal))
                eq_refl ltac:(discriminate)) as (msg & Hr).
    eexists. split; [exact Hr|reflexivity].
  - destruct (proj2 (proj2 (logfile_empty_outcomes failing_write_host (small_journal false)))
                eq_refl eq_refl) as (s' & Hr & Hf & _).
    exists s'. split; [exact Hr|].
    destruct (NVolLogFileEmpty s'); [|reflexivity].
    destruct Hf as [Hf _]. specialize (Hf eq_refl). discriminate.
Defined.

(** C6 as it was worded fails when [vnode_get] fails: the journal is not
    marked empty, and [ntfs_logfile_empty] returns ENOENT without a call of
    [ntfs_attr_set]; the bytes of the journal are not overwritten. *)
Lemma logfile_empty_counterexample :
  NVolLogFileEmpty tiny_journal = false
  /\ ntfs_logfile_empty no_vnode_host tiny_journal
     = Ok 2 (called (ntfs_error_call "Failed to get vnode for $LogFile.")
                    (called vnode_get_call tiny_journal))
  /\ data (called (ntfs_error_call "Failed to get vnode for $LogFile.")
                  (called vnode_get_call tiny_journal))
     = [1; 2; 3; 4; 5; 6; 7; 8].
Proof. repeat split. Qed.

(** An [ntfs_logfile_empty] that returns 0 leaves the flag set. *)
Lemma logfile_empty_sets_flag (h : host) (s s' : state) :
  ntfs_logfile_empty h s = Ok 0 s' -> NVolLogFileEmpty s' = true.
Proof.
  rewrite logfile_empty_eq. destruct (NVolLogFileEmpty s) eqn:E.
  - intros H. inversion H; subst. exact E.
  - destruct (Z.eqb_spec (vnode_get_result h s) 0) as [Hv|Hv].
    + cbv zeta.
      destruct (Z.eqb_spec (fst (ntfs_attr_set_result h (scan_entry s) 0 (data_size s) 255)) 0)
        as [Hw|Hw]; intros H; inversion H; subst.
      * reflexivity.
      * contradiction.
    + intros H. inversion H. contradiction.
Qed.

(** C7.  After an [ntfs_logfile_empty] that returned 0, [ntfs_logfile_check]
    returns 0 with [*rp] NULL and leaves the state as it is: it maps no
    page and makes no other call. *)
Theorem check_after_empty :
  forall (h : host) (rp : bool) (s s' : state),
    ntfs_logfile_empty h s = Ok 0 s' ->
    NVolLogFileEmpty s' = true
    /\ ntfs_logfile_check h rp s' = Ok (0, None) s'.
Proof.
  intros h rp s s' He.
  assert (Hf : NVolLogFileEmpty s' = true) by exact (logfile_empty_sets_flag h s s' He).
  split; [exact Hf|]. unfold ntfs_logfile_check. rewrite Hf. reflexivity.
Qed.

Lemma check_after_empty_witness :
  exists s' : state,
    ntfs_logfile_empty quiet_host tiny_journal = Ok 0 s'
    /\ data s' = repeat 0xff 8
    /\ ntfs_logfile_check quiet_host true s' = Ok (0, None) s'.
Proof.
  eexists. split; [vm_compute; reflexivity|]. split; [reflexivity|].
  refine (proj2 (check_after_empty quiet_host true tiny_journal _ _)).
  vm_compute. reflexivity.
Defined.

(** ** The size of the journal *)

Lemma land_lnot_pow2 (a k : Z) :
  0 <= k -> Z.land a (Z.lnot (2 ^ k - 1)) = 2 ^ k * (a / 2 ^ k).
Proof.
  intros Hk. rewrite <- Z.ldiff_land.
  replace (2 ^ k - 1) with (Z.ones k) by (rewrite Z.ones_equiv; lia).
  rewrite Z.ldiff_ones_r by exact Hk.
  rewrite Z.shiftl_mul_pow2, Z.shiftr_div_pow2 by exact Hk. lia.
Qed.

(** With pages of at most 2^30 bytes, [log_page_size] is a power of two,
    [log_page_bits] is its exponent, and the unsigned arithmetic on it does
    not wrap. *)
Lemma log_page_size_pow2 (h : host) :
  0 <= PAGE_SHIFT h <= 30 ->
  exists k : Z,
    0 <= k <= 30 /\ log_page_size h = 2 ^ k /\ log_page_bits h = k.
Proof.
  intros Hn. unfold log_page_size, log_page_bits, log_page_size, PAGE_SIZE.
  generalize dependent (PAGE_SHIFT h). intros n Hn.
  exists (if (n =? 12) || (n =? 13) then 12 else n).
  assert (H : In n (map Z.of_nat (seq 0 31))).
  { apply in_map_iff. exists (Z.to_nat n). split; [lia|]. apply in_seq. lia. }
  cbn [seq map] in H.
  repeat (destruct H as [<-|H]; [vm_compute; intuition congruence|]).
  destruct H.
Qed.

(** The test of the code is the comparison of the spec: the size, capped
    and truncated to whole log pages, against two restart pages and
    [NtfsMinLogRecordPages] record pages. *)
Lemma logfile_too_small_iff (h : host) (s : state) :
  0 <= PAGE_SHIFT h <= 30 ->
  logfile_too_small h s = true <->
  log_page_size h * (Z.min (data_size s) NtfsMaxLogFileSize / log_page_size h)
  < (2 + NtfsMinLogRecordPages) * log_page_size h.
Proof.
  intros Hn. destruct (log_page_size_pow2 h Hn) as (k & Hk & Hp & Hb).
  unfold logfile_too_small, logfile_size. rewrite Hp, Hb.
  assert (Hpos : 0 < 2 ^ k) by (apply Z.pow_pos_nonneg; lia).
  assert (Hle : 2 ^ k <= 2 ^ 30) by (apply Z.pow_le_mono_r; lia).
  change (2 ^ 30) with 1073741824 in Hle.
  assert (Hu1 : u32 (2 ^ k - 1) = 2 ^ k - 1)
    by (unfold u32; apply Z.mod_small; change (2 ^ 32) with 4294967296; lia).
  assert (Hu2 : u32 (2 ^ k * 2) = 2 ^ k * 2)
    by (unfold u32; apply Z.mod_small; change (2 ^ 32) with 4294967296; lia).
  rewrite Hu1, Hu2.
  assert (Hmin : (if data_size s >? NtfsMaxLogFileSize
                  then NtfsMaxLogFileSize else data_size s)
                 = Z.min (data_size s) NtfsMaxLogFileSize).
  { destruct (Z.gtb_spec (data_size s) NtfsMaxLogFileSize); lia. }
  rewrite Hmin, land_lnot_pow2 by lia.
  set (q := Z.min (data_size s) NtfsMaxLogFileSize / 2 ^ k).
  rewrite Z.shiftr_div_pow2 by lia.
  replace (2 ^ k * q - 2 ^ k * 2) with ((q - 2) * 2 ^ k) by lia.
  rewrite Z.div_mul by lia.
  unfold NtfsMinLogRecordPages.
  rewrite orb_true_iff, !Z.ltb_lt. nia.
Qed.

(** C8 (as amended).  When the journal is not marked empty and
    [vnode_get] succeeds, a journal whose size, capped at
    [NtfsMaxLogFileSize] and truncated to whole log pages, is less than two
    restart pages plus [NtfsMinLogRecordPages] log record pages makes
    [ntfs_logfile_check] return EINVAL with [*rp] NULL; up to then it has
    taken and released the vnode and the lock and reported one error: no
    page is mapped, and the flag and the bytes of the journal are as they
    were. *)
Theorem too_small_journal_rejected :
  forall (h : host) (rp : bool) (s : state),
    0 <= PAGE_SHIFT h <= 30 ->
    NVolLogFileEmpty s = false ->
    vnode_get_result h s = 0 ->
    log_page_size h * (Z.min (data_size s) NtfsMaxLogFileSize / log_page_size h)
    < (2 + NtfsMinLogRecordPages) * log_page_size h ->
    ntfs_logfile_check h rp s
    = Ok (EINVAL, None)
         (called vnode_put_call
            (called lck_rw_unlock_shared_call
               (called (ntfs_error_call "$LogFile is too small.")
                  (called lck_rw_lock_shared_call
                     (called vnode_get_call s))))).
Proof.
  intros h rp s Hn He Hv Hsmall.
  apply (logfile_too_small_iff h s Hn) in Hsmall.
  unfold ntfs_logfile_check. rewrite He. run_calls.
  rewrite Hv, Hsmall. reflexivity.
Qed.

(** A journal of three pages is rejected with EINVAL and no page mapped;
    EINVAL is also what a journal of 64 pages of zeros gets, which holds no
    restart page. *)
Lemma too_small_journal_rejected_witness :
  log_page_size quiet_host
  * (Z.min (data_size (small_journal false)) NtfsMaxLogFileSize / log_page_size quiet_host)
  = 3 * 4096
  /\ match ntfs_logfile_check quiet_host true (journal [] []) with
     | Ok (err, _) s' => err = EINVAL /\ In (ntfs_page_map_call 0) (trace s')
     | _ => False
     end
  /\ exists s' : state,
      ntfs_logfile_check quiet_host true (small_journal false) = Ok (EINVAL, None) s'
      /\ NVolLogFileEmpty s' = false
      /\ data s' = data (small_journal false)
      /\ forall pos, ~ In (ntfs_page_map_call pos) (trace s').
Proof.
  split; [reflexivity|]. split; [vm_compute; intuition|]. eexists. split.
  - apply (too_small_journal_rejected quiet_host true (small_journal false)).
    + simpl. lia.
    + reflexivity.
    + reflexivity.
    + vm_compute. reflexivity.
  - split; [reflexivity|]. split; [reflexivity|].
    intros pos [H|[H|[H|[H|[H|[]]]]]]; discriminate.
Defined.

(** C8 as it was worded fails on a journal that is marked empty: it is too
    small, and [ntfs_logfile_check] returns 0 for it.  It fails as well
    when [vnode_get] fails: the errno returned is the one of [vnode_get]. *)
Lemma too_small_counterexample :
  log_page_size quiet_host
  * (Z.min (data_size (small_journal true)) NtfsMaxLogFileSize / log_page_size quiet_host)
  < (2 + NtfsMinLogRecordPages) * log_page_size quiet_host
  /\ ntfs_logfile_check quiet_host true (small_journal true)
     = Ok (0, None) (small_journal true)
  /\ ntfs_logfile_check no_vnode_host true (small_journal false)
     = Ok (2, None)
          (called (ntfs_error_call "Failed to get vnode for $LogFile.")
                  (called vnode_get_call (small_journal false))).
Proof. repeat split. Qed.

(** ** What the scan leaves alone *)

Lemma bind_Ok_inv {A B : Type} (m : M A) (k : A -> M B) (s s' : state) (b : B) :
  bind m k s = Ok b s' ->
  exists (a : A) (s1 : state), m s = Ok a s1 /\ k a s1 = Ok b s'.
Proof.
  unfold bind. destruct (m s) as [a s1| |]; [|discriminate|discriminate].
  intros H. exists a, s1. split; [reflexivity|exact H].
Qed.

Lemma same_volume_refl (s : state) : same_volume s s.
Proof. repeat split. Qed.

Lemma same_volume_trans (s1 s2 s3 : state) :
  same_volume s1 s2 -> same_volume s2 s3 -> same_volume s1 s3.
Proof.
  intros (H1 & H2 & H3) (H4 & H5 & H6). repeat split; congruence.
Qed.

Lemma same_volume_called (e : event) (s : state) : same_volume s (called e s).
Proof. repeat split. Qed.

Lemma keeps_ret {A : Type} (a : A) : keeps_volume (ret a).
Proof. intros s a' s' H. inversion H; subst. apply same_volume_refl. Qed.

Lemma keeps_bind {A B : Type} (m : M A) (k : A -> M B) :
  keeps_volume m -> (forall a, keeps_volume (k a)) -> keeps_volume (bind m k).
Proof.
  intros Hm Hk s b s' H. apply bind_Ok_inv in H. destruct H as (a & s1 & H1 & H2).
  apply (same_volume_trans s s1 s'); [apply (Hm _ _ _ H1)|apply (Hk a _ _ _ H2)].
Qed.

Lemma keeps_emit (e : event) : keeps_volume (emit e).
Proof. intros s a s' H. inversion H; subst. apply same_volume_called. Qed.

Lemma keeps_panic {A : Type} (msg : string) : keeps_volume (@panic A msg).
Proof. intros s a s' H. discriminate. Qed.

Lemma keeps_out_of_fuel {A : Type} : keeps_volume (@out_of_fuel A).
Proof. intros s a s' H. discriminate. Qed.

Lemma keeps_vnode_get (h : host) : keeps_volume (vnode_get h).
Proof. intros s a s' H. inversion H; subst. apply same_volume_called. Qed.

Lemma keeps_ntfs_page_map (h : host) (pos : Z) : keeps_volume (ntfs_page_map h pos).
Proof. intros s a s' H. inversion H; subst. apply same_volume_called. Qed.

Lemma keeps_IOMalloc (h : host) (size : Z) : keeps_volume (IOMalloc h size).
Proof.
  intros s a s' H. unfold IOMalloc in H.
  destruct (IOMalloc_succeeds h s size); inversion H; subst; repeat split.
Qed.

Lemma keeps_ntfs_mst_fixup_post_read (h : host) (b : kbuf) (size : Z) :
  keeps_volume (ntfs_mst_fixup_post_read h b size).
Proof. intros s a s' H. inversion H; subst. apply same_volume_called. Qed.

(** One step of a proof that a computation keeps the volume: through a
    [bind], into the branches of a test, or by one of the lemmas above. *)
Ltac keeps_step :=
  match goal with
  | |- keeps_volume (bind _ _) => apply keeps_bind; [|intros ?]
  | |- keeps_volume (ret _) => apply keeps_ret
  | |- keeps_volume (panic _) => apply keeps_panic
  | |- keeps_volume out_of_fuel => apply keeps_out_of_fuel
  | |- keeps_volume (emit _) => apply keeps_emit
  | |- keeps_volume (ntfs_error _) => apply keeps_emit
  | |- keeps_volume (IOFree _ _) => apply keeps_emit
  | |- keeps_volume (ntfs_page_unmap _) => apply keeps_emit
  | |- keeps_volume vnode_put => apply keeps_emit
  | |- keeps_volume lck_rw_lock_shared => apply keeps_emit
  | |- keeps_volume lck_rw_unlock_shared => apply keeps_emit
  | |- keeps_volume (vnode_get _) => apply keeps_vnode_get
  | |- keeps_volume (ntfs_page_map _ _) => apply keeps_ntfs_page_map
  | |- keeps_volume (IOMalloc _ _) => apply keeps_IOMalloc
  | |- keeps_volume (ntfs_mst_fixup_post_read _ _ _) =>
    apply keeps_ntfs_mst_fixup_post_read
  | |- keeps_volume (match ?x with _ => _ end) => destruct x
  end.

Lemma keeps_load_remaining (h : host) (fuel : nat) :
  forall (trp : kbuf) (pos size have_read to_read : Z),
    keeps_volume (load_remaining h fuel trp pos size have_read to_read).
Proof.
  induction fuel as [|fuel IH]; intros trp pos size have_read to_read.
  - apply keeps_out_of_fuel.
  - cbn [load_remaining]. cbv zeta. repeat keeps_step. apply IH.
Qed.

Lemma keeps_ntfs_restart_page_load (h : host) (rp : buffer) (pos : Z) (wrp lsn : bool) :
  keeps_volume (ntfs_restart_page_load h rp pos wrp lsn).
Proof.
  unfold ntfs_restart_page_load. cbv zeta.
  repeat (keeps_step || apply keeps_load_remaining).
Qed.

Lemma keeps_scan_map (h : host) (st : scan_state) : keeps_volume (scan_map h st).
Proof. unfold scan_map. repeat keeps_step. Qed.

Lemma keeps_scan (h : host) (size : Z) (fuel : nat) :
  forall st : scan_state, keeps_volume (scan h fuel size st).
Proof.
  induction fuel as [|fuel IH]; intros st.
  - apply keeps_out_of_fuel.
  - cbn [scan]. cbv zeta.
    repeat (keeps_step || apply keeps_scan_map || apply keeps_ntfs_restart_page_load
            || apply IH).
Qed.

(** ** The flag *)

Lemma may_set_of_keeps (m : M (Z * option kbuf)) : keeps_volume m -> may_set_flag m.
Proof.
  intros Hm s r s' H. destruct (Hm s r s' H) as (Hf & Hd & Hs). auto.
Qed.

Lemma may_set_bind {A : Type} (m : M A) (k : A -> M (Z * option kbuf)) :
  keeps_volume m -> (forall a, may_set_flag (k a)) -> may_set_flag (bind m k).
Proof.
  intros Hm Hk s r s' H. apply bind_Ok_inv in H. destruct H as (a & s1 & H1 & H2).
  destruct (Hm _ _ _ H1) as (Hf & Hd & Hs).
  destruct (Hk a _ _ _ H2) as (Hd' & Hs' & Hf').
  split; [congruence|]. split; [congruence|].
  destruct Hf' as [Hf'|Hf']; [left; congruence|right; exact Hf'].
Qed.

Lemma may_set_NVolSetLogFileEmpty :
  may_set_flag (NVolSetLogFileEmpty ;; ret (0, None)).
Proof.
  intros s r s' H. inversion H; subst. cbn. auto.
Qed.

Ltac may_set_step :=
  match goal with
  | |- may_set_flag (NVolSetLogFileEmpty ;; ret (0, None)) =>
    apply may_set_NVolSetLogFileEmpty
  | |- may_set_flag (bind _ _) => apply may_set_bind; [|intros ?]
  | |- may_set_flag (ret _) => apply may_set_of_keeps, keeps_ret
  | |- may_set_flag (panic _) => apply may_set_of_keeps, keeps_panic
  | |- may_set_flag (match ?x with _ => _ end) => destruct x
  | |- keeps_volume (scan _ _ _ _) => apply keeps_scan
  | |- keeps_volume _ => keeps_step
  end.

(** [ntfs_logfile_check] never writes to the journal, and it changes the
    flag only by setting it, on the path that returns 0 without a restart
    page. *)
Lemma check_may_set_flag (h : host) (rp : bool) :
  may_set_flag (ntfs_logfile_check h rp).
Proof.
  intros s r s' H. unfold ntfs_logfile_check in H.
  match type of H with
  | ?m s = _ => assert (Hm : may_set_flag m); [|exact (Hm s r s' H)]
  end.
  cbv zeta. repeat may_set_step.
Qed.

Lemma is_clean_keeps (rp : option buffer) : keeps_volume (ntfs_logfile_is_clean rp).
Proof.
  intros s r s' H. unfold ntfs_logfile_is_clean in H.
  match type of H with
  | ?m s = _ => assert (Hm : keeps_volume m); [|exact (Hm s r s' H)]
  end.
  repeat keeps_step.
Qed.

(** With the flag set none of the three operations does anything. *)
Lemma run_operation_marked_empty (h : host) (o : operation) (s : state) :
  NVolLogFileEmpty s = true -> run_operation h o s = Ok tt s.
Proof.
  intros He. destruct o as [rp|rp|]; cbn [run_operation]; unfold bind.
  - unfold ntfs_logfile_check. rewrite He. reflexivity.
  - unfold ntfs_logfile_is_clean. rewrite He. reflexivity.
  - rewrite logfile_empty_eq, He. reflexivity.
Qed.

(** C10.  None of [ntfs_logfile_check], [ntfs_logfile_is_clean] and
    [ntfs_logfile_empty] clears the flag: after any one of them, and after
    any sequence of them, a flag that was set is set.  A flag that was
    clear is set afterwards only by an [ntfs_logfile_check] that returns 0
    without a restart page, or by an [ntfs_logfile_empty] that returns
    0. *)
Theorem empty_flag_monotone :
  forall h : host,
    (forall (o : operation) (s s' : state),
        run_operation h o s = Ok tt s' ->
        (NVolLogFileEmpty s = true -> NVolLogFileEmpty s' = true)
        /\ (NVolLogFileEmpty s = false -> NVolLogFileEmpty s' = true ->
            (exists rp, o = check_op rp /\ ntfs_logfile_check h rp s = Ok (0, None) s')
            \/ (o = empty_op /\ ntfs_logfile_empty h s = Ok 0 s')))
    /\
    (forall (ops : list operation) (s s' : state),
        NVolLogFileEmpty s = true ->
        run_operations h ops s = Ok tt s' ->
        NVolLogFileEmpty s' = true).
Proof.
  intros h. split.
  - intros o s s' Hr. split.
    + intros He. rewrite (run_operation_marked_empty h o s He) in Hr.
      inversion Hr; subst. exact He.
    + intros He He'. unfold NVolLogFileEmpty in *.
      destruct o as [rp|rp|]; cbn [run_operation] in Hr;
        apply bind_Ok_inv in Hr; destruct Hr as (r & s1 & Hr & Hret);
        inversion Hret; subst s1.
      * left. exists rp. split; [reflexivity|].
        destruct (check_may_set_flag h rp s r s' Hr) as (_ & _ & [Hf|[_ ->]]).
        -- congruence.
        -- exact Hr.
      * destruct (is_clean_keeps rp s r s' Hr) as (Hf & _). congruence.
      * right. split; [reflexivity|].
        rewrite logfile_empty_eq in Hr |- *. unfold NVolLogFileEmpty in Hr |- *.
        rewrite He in Hr |- *.
        destruct (vnode_get_result h s =? 0).
        -- cbv zeta in Hr |- *.
           destruct (fst (ntfs_attr_set_result h (scan_entry s) 0 (data_size s) 255) =? 0).
           ++ inversion Hr; subst. reflexivity.
           ++ inversion Hr; subst. cbn in He'. congruence.
        -- inversion Hr; subst. cbn in He'. congruence.
  - induction ops as [|o ops IH]; intros s s' He Hr.
    + inversion Hr; subst. exact He.
    + cbn [run_operations] in Hr. apply bind_Ok_inv in Hr.
      destruct Hr as ([] & s1 & H1 & H2).
      rewrite (run_operation_marked_empty h o s He) in H1. inversion H1; subst s1.
      apply (IH s s' He H2).
Qed.

(** The flag is set by emptying [tiny_journal], and then stays set through
    a check, a clean test without a restart page and a second emptying. *)
Lemma empty_flag_monotone_witness :
  let s1 := set_LogFileEmpty
              (called vnode_put_call
                 (called lck_rw_unlock_shared_call
                    (attr_set_done 0 8 0xff (repeat 0xff 8) (scan_entry tiny_journal)))) in
  run_operation quiet_host empty_op tiny_journal = Ok tt s1
  /\ NVolLogFileEmpty tiny_journal = false
  /\ NVolLogFileEmpty s1 = true
  /\ ntfs_logfile_empty quiet_host tiny_journal = Ok 0 s1
  /\ run_operations quiet_host [check_op true; is_clean_op None; empty_op] s1 = Ok tt s1
  /\ NVolLogFileEmpty s1 = true.
Proof.
  intros s1. do 3 (split; [reflexivity|]). split; [|split; [reflexivity|]].
  - destruct (proj2 (proj1 (empty_flag_monotone quiet_host) empty_op tiny_journal s1
                       eq_refl) eq_refl eq_refl) as [(rp & Hrp & _)|(_ & He)].
    + discriminate Hrp.
    + exact He.
  - refine (proj2 (empty_flag_monotone quiet_host)
              [check_op true; is_clean_op None; empty_op] s1 s1 _ _); reflexivity.
Defined.

(** ** The two restart pages *)

Lemma yields_bind {A : Type} (P : scan_state -> Prop) (Q : A -> Prop)
      (m : M A) (k : A -> M scan_exit) :
  (forall s a s', m s = Ok a s' -> Q a) ->
  (forall a, Q a -> scan_yields P (k a)) ->
  scan_yields P (bind m k).
Proof.
  intros Hm Hk s st' s' H. apply bind_Ok_inv in H. destruct H as (a & s1 & H1 & H2).
  apply (Hk a (Hm _ _ _ H1) _ _ _ H2).
Qed.

Lemma yields_Scanned (P : scan_state -> Prop) (st : scan_state) :
  P st -> scan_yields P (ret (Scanned st)).
Proof. intros HP s st' s' H. inversion H; subst. exact HP. Qed.

Lemma yields_GotoErr (P : scan_state -> Prop) (err : Z) (st : scan_state) :
  scan_yields P (ret (GotoErr err st)).
Proof. intros s st' s' H. inversion H. Qed.

Lemma yields_out_of_fuel (P : scan_state -> Prop) : scan_yields P out_of_fuel.
Proof. intros s st' s' H. discriminate. Qed.

(** Mapping the page changes [ppos] and [upl] only. *)
Lemma scan_map_fields (h : host) (st : scan_state) (s s' : state) (r : Z + scan_state) :
  scan_map h st s = Ok r s' ->
  match r with
  | inl _ => True
  | inr st1 =>
    pos st1 = pos st /\ logfile_is_empty st1 = logfile_is_empty st
    /\ rstr1_ph st1 = rstr1_ph st /\ rstr2_ph st1 = rstr2_ph st
    /\ rstr1_lsn st1 = rstr1_lsn st /\ rstr2_lsn st1 = rstr2_lsn st
  end.
Proof.
  unfold scan_map. intros H.
  destruct (upl st) as [[mapped paddr]|].
  - destruct (negb (Z.land (pos st) (Z.lnot (PAGE_MASK_64 h)) =? ppos st)).
    + revert H. run_calls.
      destruct (ntfs_page_map_result h _ (pos st)); intros H; inversion H; subst;
        cbn; auto 10.
    + inversion H; subst. auto 10.
  - revert H. run_calls.
    destruct (ntfs_page_map_result h _ (pos st)); intros H; inversion H; subst;
      cbn; auto 10.
Qed.

Lemma found_not_empty_next (st : scan_state) :
  found_not_empty st ->
  found_not_empty (set_pos (half_block_if_zero st)
                           (Z.shiftl (pos (half_block_if_zero st)) 1)).
Proof.
  unfold found_not_empty, half_block_if_zero. destruct (pos st =? 0); cbn; auto.
Qed.

(** The scan keeps [found_not_empty]. *)
Lemma scan_found_not_empty (h : host) (size : Z) (fuel : nat) :
  forall st : scan_state,
    found_not_empty st -> scan_yields found_not_empty (scan h fuel size st).
Proof.
  induction fuel as [|fuel IH]; intros st Hst.
  - apply yields_out_of_fuel.
  - cbn [scan]. cbv zeta.
    destruct (negb (pos st <? size)); [apply yields_Scanned; exact Hst|].
    apply (yields_bind _ (fun r => match r with
                                   | inl _ => True
                                   | inr st1 => found_not_empty st1
                                   end)).
    { intros s r s' H. apply scan_map_fields in H. destruct r as [e|st1]; [exact I|].
      destruct H as (_ & He & H1 & _). unfold found_not_empty. rewrite He, H1. exact Hst. }
    intros [e|st1] Hst1.
    { apply (yields_bind _ (fun _ => True)); [auto|]. intros _ _. apply yields_GotoErr. }
    destruct (ntfs_is_empty_recordp _).
    { destruct (logfile_is_empty st1).
      - apply IH, found_not_empty_next, Hst1.
      - apply yields_Scanned, Hst1. }
    destruct (ntfs_is_rcrd_recordp _).
    { apply yields_Scanned. intros _. reflexivity. }
    destruct (negb (ntfs_is_rstr_recordp _) && negb (ntfs_is_chkd_recordp _)).
    { apply IH, found_not_empty_next. intros _. reflexivity. }
    apply (yields_bind _ (fun _ => True)); [auto|].
    intros [[err wrp] lsn] _.
    destruct (err =? 0).
    { match goal with
      | |- context [if pos ?st2 =? 0 then _ else _] =>
        assert (H2 : found_not_empty st2)
          by (destruct (rstr1_ph st1); intros _; reflexivity);
          destruct (pos st2 =? 0)
      end.
      - apply IH, found_not_empty_next, H2.
      - apply yields_Scanned, H2. }
    destruct (negb (err =? EINVAL)).
    { apply (yields_bind _ (fun _ => True)); [auto|]. intros _ _. apply yields_GotoErr. }
    apply IH, found_not_empty_next.
    destruct (rstr1_ph st1); intros _; reflexivity.
Qed.

(** C2.  When the scan of [ntfs_logfile_check] has found two restart
    pages, with LSNs [rstr1_lsn] (first found) and [rstr2_lsn] (second
    found), the page returned in [*rp] is the second one exactly when
    [rstr2_lsn > rstr1_lsn] and the first one otherwise, a tie included;
    the buffer of the other page is freed before the return (and, as
    [*rp] has no place when [rp] is NULL, the buffer of the chosen page is
    freed after it then). *)
Theorem restart_page_arbitration :
  forall (h : host) (rp : bool) (s : state) (st : scan_state) (s1 : state)
         (p1 p2 : kbuf),
    NVolLogFileEmpty s = false ->
    vnode_get_result h s = 0 ->
    logfile_too_small h s = false ->
    scan h scan_fuel (logfile_size h s) scan_start (scan_entry s)
    = Ok (Scanned st) s1 ->
    rstr1_ph st = Some p1 ->
    rstr2_ph st = Some p2 ->
    let second := rstr2_lsn st >? rstr1_lsn st in
    let kept := if second then p2 else p1 in
    let lost := if second then p1 else p2 in
    let free (p : kbuf) :=
      IOFree_call (addr p)
                  (le32_to_cpu (RESTART_PAGE_HEADER.system_page_size (contents p))) in
    exists s2 : state,
      ntfs_logfile_check h rp s = Ok (0, if rp then Some kept else None) s2
      /\ (second = true <-> rstr1_lsn st < rstr2_lsn st)
      /\ trace s2
         = (if rp then [] else [free kept])
             ++ free lost :: vnode_put_call :: lck_rw_unlock_shared_call
             :: match upl st with
                | Some (mapped, _) => [ntfs_page_unmap_call mapped]
                | None => []
                end ++ trace s1.
Proof.
  intros h rp s st s1 p1 p2 He Hv Hsmall Hscan H1 H2 second kept lost free.
  unfold ntfs_logfile_check.
  (* the number of rounds plays no part: keep it from being unfolded *)
  revert Hscan. generalize scan_fuel. intros fuel Hscan.
  unfold scan_entry in Hscan.
  assert (Hne : logfile_is_empty st = false).
  { pose proof (scan_found_not_empty h (logfile_size h s) fuel scan_start
                  ltac:(intros H; exfalso; apply H; reflexivity)
                  _ st s1 Hscan) as Hf.
    apply Hf. rewrite H1. discriminate. }
  assert (Hsecond : second = true <-> rstr1_lsn st < rstr2_lsn st).
  { unfold second. destruct (Z.gtb_spec (rstr2_lsn st) (rstr1_lsn st)); split;
      intros; try lia; try discriminate; reflexivity. }
  rewrite He.
  cbv beta iota zeta delta [bind vnode_get emit ret lck_rw_lock_shared].
  rewrite Hv, Hsmall. cbn [Z.eqb negb]. rewrite Hscan.
  cbv beta iota. rewrite Hne, H1, H2. fold second.
  subst kept lost free.
  destruct (upl st) as [[mapped paddr]|]; destruct second; destruct rp;
    run_calls; eexists; (split; [reflexivity|]); (split; [exact Hsecond|]);
    reflexivity.
Qed.

(** Two restart pages with LSNs 100 and 105: the second one is returned and
    the first one freed.  With 105 and 105 the first one is returned and
    the second one freed. *)
Lemma restart_page_arbitration_witness :
  (exists s2 : state,
      ntfs_logfile_check quiet_host true (journal (rstr_page 100 0) (rstr_page 105 0))
      = Ok (0, Some {| addr := 1; contents := rstr_page 105 0 |}) s2
      /\ hd_error (trace s2) = Some (IOFree_call 0 4096))
  /\
  (exists s2 : state,
      ntfs_logfile_check quiet_host true (journal (rstr_page 105 0) (rstr_page 105 0))
      = Ok (0, Some {| addr := 0; contents := rstr_page 105 0 |}) s2
      /\ hd_error (trace s2) = Some (IOFree_call 1 4096)).
Proof.
  split.
  - destruct (restart_page_arbitration quiet_host true
                (journal (rstr_page 100 0) (rstr_page 105 0))
                (both_found (rstr_page 100 0) (rstr_page 105 0) 100 105)
                (both_loaded (rstr_page 100 0) (rstr_page 105 0))
                {| addr := 0; contents := rstr_page 100 0 |}
                {| addr := 1; contents := rstr_page 105 0 |})
      as (s2 & Hc & _ & Htr).
    + reflexivity.
    + reflexivity.
    + vm_compute. reflexivity.
    + vm_compute. reflexivity.
    + reflexivity.
    + reflexivity.
    + exists s2. split; [exact Hc|]. rewrite Htr. reflexivity.
  - destruct (restart_page_arbitration quiet_host true
                (journal (rstr_page 105 0) (rstr_page 105 0))
                (both_found (rstr_page 105 0) (rstr_page 105 0) 105 105)
                (both_loaded (rstr_page 105 0) (rstr_page 105 0))
                {| addr := 0; contents := rstr_page 105 0 |}
                {| addr := 1; contents := rstr_page 105 0 |})
      as (s2 & Hc & _ & Htr).
    + reflexivity.
    + reflexivity.
    + vm_compute. reflexivity.
    + vm_compute. reflexivity.
    + reflexivity.
    + reflexivity.
    + exists s2. split; [exact Hc|]. rewrite Htr. reflexivity.
Defined.

(** ** The loops end within the rounds given to them *)

Lemma ends_ret {A : Type} (a : A) : ends (ret a).
Proof. intros s. discriminate. Qed.

Lemma ends_panic {A : Type} (msg : string) : ends (@panic A msg).
Proof. intros s. discriminate. Qed.

Lemma ends_emit (e : event) : ends (emit e).
Proof. intros s. discriminate. Qed.

Lemma ends_bind {A B : Type} (Q : A -> Prop) (m : M A) (k : A -> M B) :
  ends m ->
  (forall s a s', m s = Ok a s' -> Q a) ->
  (forall a, Q a -> ends (k a)) ->
  ends (bind m k).
Proof.
  intros Hm HQ Hk s. unfold bind. destruct (m s) as [a s'| |] eqn:E.
  - apply (Hk a (HQ _ _ _ E)).
  - discriminate.
  - exfalso. apply (Hm s E).
Qed.

Lemma ends_then {A B : Type} (m : M A) (k : A -> M B) :
  ends m -> (forall a, ends (k a)) -> ends (bind m k).
Proof. intros Hm Hk. apply (ends_bind (fun _ => True)); auto. Qed.

Lemma ends_ntfs_page_map (h : host) (pos : Z) : ends (ntfs_page_map h pos).
Proof. intros s. discriminate. Qed.

Lemma ends_IOMalloc (h : host) (size : Z) : ends (IOMalloc h size).
Proof. intros s. unfold IOMalloc. destruct (IOMalloc_succeeds h s size); discriminate. Qed.

Lemma ends_ntfs_mst_fixup_post_read (h : host) (b : kbuf) (size : Z) :
  ends (ntfs_mst_fixup_post_read h b size).
Proof. intros s. discriminate. Qed.

Ltac ends_step :=
  match goal with
  | |- ends (bind _ _) => apply ends_then; [|intros ?]
  | |- ends (ret _) => apply ends_ret
  | |- ends (panic _) => apply ends_panic
  | |- ends (emit _) => apply ends_emit
  | |- ends (ntfs_error _) => apply ends_emit
  | |- ends (IOFree _ _) => apply ends_emit
  | |- ends (ntfs_page_unmap _) => apply ends_emit
  | |- ends vnode_put => apply ends_emit
  | |- ends lck_rw_lock_shared => apply ends_emit
  | |- ends lck_rw_unlock_shared => apply ends_emit
  | |- ends NVolSetLogFileEmpty => intros ?; discriminate
  | |- ends (vnode_get _) => intros ?; discriminate
  | |- ends (ntfs_page_map _ _) => apply ends_ntfs_page_map
  | |- ends (IOMalloc _ _) => apply ends_IOMalloc
  | |- ends (ntfs_mst_fixup_post_read _ _ _) => apply ends_ntfs_mst_fixup_post_read
  | |- ends (match ?x with _ => _ end) => destruct x
  end.

Lemma PAGE_SIZE_pos (h : host) : 0 <= PAGE_SHIFT h -> 0 < PAGE_SIZE h.
Proof. intros H. unfold PAGE_SIZE. apply Z.pow_pos_nonneg; lia. Qed.

Lemma le32_at_range (b : buffer) (o : Z) : 0 <= le32_at b o < 2 ^ 32.
Proof.
  unfold le32_at. pose proof (le16_at_range b o). pose proof (le16_at_range b (o + 2)).
  change (2 ^ 16) with 65536 in *. change (2 ^ 32) with 4294967296. lia.
Qed.

(** Each round but the last copies a whole page. *)
Lemma ends_load_remaining (h : host) (fuel : nat) :
  forall (trp : kbuf) (pos size have_read to_read : Z),
    0 < PAGE_SIZE h ->
    0 < to_read < 2 ^ 32 ->
    to_read <= Z.of_nat fuel * PAGE_SIZE h ->
    ends (load_remaining h fuel trp pos size have_read to_read).
Proof.
  induction fuel as [|fuel IH]; intros trp pos size have_read to_read HP Hr Hf.
  - simpl in Hf. lia.
  - cbn [load_remaining]. cbv zeta.
    destruct (negb (Z.land (u32 (pos + size)) (PAGE_MASK h) =? 0)); [apply ends_panic|].
    apply ends_then; [apply ends_ntfs_page_map|]. intros [err|kaddr].
    + repeat ends_step.
    + apply ends_then; [apply ends_emit|]. intros _.
      destruct (Z.gtb_spec (PAGE_SIZE h) to_read) as [Hgt|Hle].
      * replace (u32 (to_read - to_read)) with 0
          by (rewrite Z.sub_diag; reflexivity).
        apply ends_ret.
      * assert (Hu : u32 (to_read - PAGE_SIZE h) = to_read - PAGE_SIZE h)
          by (unfold u32; apply Z.mod_small; lia).
        rewrite Hu. destruct (Z.gtb_spec (to_read - PAGE_SIZE h) 0); [|apply ends_ret].
        apply IH; lia.
Qed.

Lemma ends_ntfs_restart_page_load (h : host) (rp : buffer) (pos : Z) (wrp lsn : bool) :
  0 <= PAGE_SHIFT h -> ends (ntfs_restart_page_load h rp pos wrp lsn).
Proof.
  intros Hn. pose proof (PAGE_SIZE_pos h Hn) as HP.
  unfold ntfs_restart_page_load. cbv zeta.
  destruct (ntfs_restart_page_header_is_valid rp pos); [|repeat ends_step].
  destruct (ntfs_restart_area_is_valid rp); [|repeat ends_step].
  apply ends_then; [apply ends_IOMalloc|]. intros [trp|]; [|repeat ends_step].
  unfold le32_to_cpu.
  pose proof (le32_at_range rp 16) as Hs.
  change (le32_at rp 16) with (RESTART_PAGE_HEADER.system_page_size rp) in Hs.
  set (sps := RESTART_PAGE_HEADER.system_page_size rp) in *.
  set (size := u32 (PAGE_SIZE h - Z.land (u32 pos) (PAGE_MASK h))).
  assert (Hsize : 0 <= size) by (apply Z.mod_pos_bound; reflexivity).
  apply ends_then; [|intros [[err|] trp']; repeat ends_step].
  destruct (Z.geb_spec size sps) as [Hge|Hlt]; [apply ends_ret|].
  assert (Hu : u32 (sps - size) = sps - size)
    by (unfold u32; apply Z.mod_small; lia).
  rewrite Hu. apply ends_load_remaining; [exact HP|lia|].
  rewrite Nat2Z.inj_add, Z2Nat.id by (apply Z.div_pos; lia).
  change (Z.of_nat 1) with 1.
  pose proof (Z.mul_succ_div_gt (sps - size) (PAGE_SIZE h) HP). lia.
Qed.

Lemma ends_scan_map (h : host) (st : scan_state) : ends (scan_map h st).
Proof. unfold scan_map. repeat ends_step. Qed.

(** The position doubles from one round to the next, from 512 on. *)
Lemma ends_scan (h : host) (size : Z) (fuel : nat) :
  0 <= PAGE_SHIFT h ->
  forall st : scan_state,
    0 <= pos st ->
    (1 <= fuel)%nat ->
    (pos st = 0 -> (2 <= fuel)%nat /\ size <= 512 * 2 ^ (Z.of_nat fuel - 2)) ->
    (0 < pos st -> size <= pos st * 2 ^ (Z.of_nat fuel - 1)) ->
    ends (scan h fuel size st).
Proof.
  intros Hn. induction fuel as [|fuel IH]; intros st Hp Hf H0 H1; [lia|].
  cbn [scan]. cbv zeta.
  destruct (Z.ltb_spec (pos st) size) as [Hlt|Hge]; cbn [negb]; [|apply ends_ret].
  (* what every [continue] needs *)
  assert (Hnext : forall st' : scan_state,
             pos st' = pos st ->
             ends (scan h fuel size
                     (set_pos (half_block_if_zero st')
                              (Z.shiftl (pos (half_block_if_zero st')) 1)))).
  { intros st' Hpos. unfold half_block_if_zero. rewrite Hpos.
    destruct (Z.eqb_spec (pos st) 0) as [E|E].
    - destruct (H0 E) as [Hf2 Hs].
      apply IH; cbn [pos set_pos]; rewrite ?Z.shiftl_mul_pow2 by lia;
        change (NTFS_BLOCK_SIZE / 2 * 2 ^ 1) with 512; try lia.
      intros _.
      replace (Z.of_nat fuel - 1) with (Z.of_nat (S fuel) - 2) by lia. exact Hs.
    - assert (Hpp : 0 < pos st) by lia. specialize (H1 Hpp).
      assert (Hf1 : (1 <= fuel)%nat).
      { destruct fuel; [|lia]. simpl in H1. lia. }
      apply IH; cbn [pos set_pos]; rewrite ?Z.shiftl_mul_pow2 by lia; try lia.
      intros _. replace (Z.of_nat (S fuel) - 1) with (Z.succ (Z.of_nat fuel - 1)) in H1 by lia.
      rewrite Z.pow_succ_r in H1 by lia. change (2 ^ 1) with 2. lia. }
  apply (ends_bind (fun r => match r with
                             | inl _ => True
                             | inr st1 => pos st1 = pos st
                             end)); [apply ends_scan_map| |].
  { intros s r s' H. apply scan_map_fields in H. destruct r; [exact I|]. apply H. }
  intros [e|st1] Hst1; [repeat ends_step|].
  destruct (ntfs_is_empty_recordp _).
  { destruct (logfile_is_empty st1); [apply Hnext, Hst1|apply ends_ret]. }
  destruct (ntfs_is_rcrd_recordp _); [apply ends_ret|].
  destruct (negb (ntfs_is_rstr_recordp _) && negb (ntfs_is_chkd_recordp _));
    [apply Hnext, Hst1|].
  apply ends_then; [apply ends_ntfs_restart_page_load, Hn|].
  intros [[err wrp] lsn].
  destruct (err =? 0).
  { match goal with
    | |- context [if pos ?st2 =? 0 then _ else _] =>
      assert (H2 : pos st2 = pos st) by (destruct (rstr1_ph st1); exact Hst1);
        destruct (pos st2 =? 0)
    end.
    - apply Hnext, H2.
    - apply ends_ret. }
  destruct (negb (err =? EINVAL)); [repeat ends_step|].
  apply Hnext. destruct (rstr1_ph st1); exact Hst1.
Qed.

Lemma logfile_size_bound (h : host) (s : state) :
  0 <= PAGE_SHIFT h <= 30 -> logfile_size h s <= 2 ^ 32.
Proof.
  intros Hn. destruct (log_page_size_pow2 h Hn) as (k & Hk & Hp & _).
  unfold logfile_size. rewrite Hp.
  assert (Hpos : 0 < 2 ^ k) by (apply Z.pow_pos_nonneg; lia).
  assert (Hle : 2 ^ k <= 2 ^ 30) by (apply Z.pow_le_mono_r; lia).
  change (2 ^ 30) with 1073741824 in Hle.
  assert (Hu1 : u32 (2 ^ k - 1) = 2 ^ k - 1)
    by (unfold u32; apply Z.mod_small; change (2 ^ 32) with 4294967296; lia).
  rewrite Hu1, land_lnot_pow2 by lia.
  set (a := if data_size s >? NtfsMaxLogFileSize then NtfsMaxLogFileSize else data_size s).
  assert (Ha : a <= 2 ^ 32).
  { subst a. destruct (Z.gtb_spec (data_size s) NtfsMaxLogFileSize);
      unfold NtfsMaxLogFileSize in *; change (2 ^ 32) with 4294967296; lia. }
  pose proof (Z.mul_div_le a (2 ^ k) Hpos). lia.
Qed.

(** [ntfs_logfile_check] ends within the rounds its two loops are given:
    it returns or panics. *)
Lemma check_ends (h : host) (rp : bool) :
  0 <= PAGE_SHIFT h <= 30 -> ends (ntfs_logfile_check h rp).
Proof.
  intros Hn s. unfold ntfs_logfile_check.
  match goal with
  | |- ?m s <> _ => assert (Hm : ends m); [|exact (Hm s)]
  end.
  cbv zeta.
  destruct (NVolLogFileEmpty s); [apply ends_ret|].
  apply ends_then; [intros ?; discriminate|]. intros err.
  destruct (negb (err =? 0)); [repeat ends_step|].
  apply ends_then; [apply ends_emit|]. intros _.
  destruct (logfile_too_small h s); [repeat ends_step|].
  apply ends_then; [|intros x; repeat ends_step].
  pose proof (logfile_size_bound h s Hn) as Hb.
  apply ends_scan; unfold scan_fuel; cbn [pos scan_start]; lia.
Qed.

(** * Further properties of the validators *)

(** Turns the tests of a validator that returned TRUE into facts. *)
Ltac bool_facts :=
  repeat match goal with
         | H : (_ || _) = false |- _ =>
           apply orb_false_iff in H; destruct H
         | H : (_ && _) = true |- _ =>
           apply andb_true_iff in H; destruct H
         | H : negb _ = false |- _ => apply negb_false_iff in H
         | H : negb _ = true |- _ => apply negb_true_iff in H
         | H : (_ <? _) = false |- _ => apply Z.ltb_ge in H
         | H : (_ <? _) = true |- _ => apply Z.ltb_lt in H
         | H : (_ >? _) = false |- _ => rewrite Z.gtb_ltb in H
         | H : (_ >? _) = true |- _ => rewrite Z.gtb_ltb in H
         | H : (_ >=? _) = false |- _ => rewrite Z.geb_leb in H
         | H : (_ >=? _) = true |- _ => rewrite Z.geb_leb in H
         | H : (_ <=? _) = false |- _ => apply Z.leb_gt in H
         | H : (_ <=? _) = true |- _ => apply Z.leb_le in H
         | H : (_ =? _) = true |- _ => apply Z.eqb_eq in H
         | H : (_ =? _) = false |- _ => apply Z.eqb_neq in H
         end.

(** A positive number that shares no bit with its predecessor is a power
    of two. *)
Lemma pow2_of_land_pred (x : Z) :
  0 < x -> Z.land x (x - 1) = 0 -> x = 2 ^ Z.log2 x.
Proof.
  intros Hx Hl. destruct (Z.log2_spec x Hx) as [Hlo Hhi].
  destruct (Z.eq_dec x (2 ^ Z.log2 x)) as [E|E]; [exact E|exfalso].
  assert (Hk : Z.log2 (x - 1) = Z.log2 x).
  { apply Z.log2_unique; [apply Z.log2_nonneg|]. rewrite <- Z.add_1_r in Hhi. lia. }
  assert (Hb1 : Z.testbit x (Z.log2 x) = true) by (apply Z.bit_log2; lia).
  assert (Hb2 : Z.testbit (x - 1) (Z.log2 x) = true).
  { rewrite <- Hk. apply Z.bit_log2.
    assert (0 < 2 ^ Z.log2 x) by (apply Z.pow_pos_nonneg; [lia|apply Z.log2_nonneg]). lia. }
  assert (Hc : Z.testbit (Z.land x (x - 1)) (Z.log2 x) = true)
    by (rewrite Z.land_spec, Hb1, Hb2; reflexivity).
  rewrite Hl, Z.bits_0 in Hc. discriminate.
Qed.

Lemma page_size_pow2 (x : Z) :
  NTFS_BLOCK_SIZE <= x < 2 ^ 32 -> Z.land x (u32 (x - 1)) = 0 ->
  exists k : Z, 9 <= k <= 31 /\ x = 2 ^ k.
Proof.
  unfold NTFS_BLOCK_SIZE. intros Hx Hl.
  assert (Hu : u32 (x - 1) = x - 1) by (unfold u32; apply Z.mod_small; lia).
  rewrite Hu in Hl. exists (Z.log2 x). split.
  - split.
    + change 9 with (Z.log2 512). apply Z.log2_le_mono. lia.
    + assert (Z.log2 x < 32) by (apply Z.log2_lt_pow2; lia). lia.
  - apply pow2_of_land_pred; [lia|exact Hl].
Qed.

Lemma land_7_mod_8 (x : Z) : Z.land x 7 = 0 <-> x mod 8 = 0.
Proof.
  change 7 with (Z.ones 3). rewrite Z.land_ones by lia. change (2 ^ 3) with 8. tauto.
Qed.

Lemma round_up_8_mod_8 (x : Z) : Z.land (x + 7) (Z.lnot 7) = x <-> x mod 8 = 0.
Proof.
  change 7 with (2 ^ 3 - 1) at 2. rewrite land_lnot_pow2 by lia. change (2 ^ 3) with 8.
  pose proof (Z.div_mod x 8 ltac:(lia)). pose proof (Z.mod_pos_bound x 8 ltac:(lia)).
  pose proof (Z.div_mod (x + 7) 8 ltac:(lia)).
  pose proof (Z.mod_pos_bound (x + 7) 8 ltac:(lia)). split; intros Hm; lia.
Qed.

Lemma s16_is_1 (x : Z) : 0 <= x < 2 ^ 16 -> s16 x = 1 -> x = 1.
Proof.
  unfold s16. intros Hx. rewrite Z.mod_small by exact Hx.
  destruct (x <? 2 ^ 15); lia.
Qed.

(** What [skip_usa_checks] has tested when it returns TRUE. *)
Lemma skip_usa_checks_inv (rp : buffer) (sps : Z) (have_usa : bool) (usa_end : Z) :
  skip_usa_checks rp sps have_usa usa_end = TRUE ->
  RESTART_PAGE_HEADER.restart_area_offset rp mod 8 = 0
  /\ (if have_usa then usa_end else RESTART_PAGE_HEADER.sizeof)
     <= RESTART_PAGE_HEADER.restart_area_offset rp <= sps
  /\ (ntfs_is_chkd_record (RESTART_PAGE_HEADER.magic rp) = false ->
      sle64_to_cpu (RESTART_PAGE_HEADER.chkdsk_lsn rp) = 0).
Proof.
  unfold skip_usa_checks, le16_to_cpu. intros H.
  destruct (_ || _ || _) eqn:E1 in H; [discriminate|].
  destruct (_ && _) eqn:E2 in H; [discriminate|].
  bool_facts. split; [apply land_7_mod_8; assumption|]. split.
  - destruct have_usa; bool_facts; lia.
  - intros Hc. rewrite Hc in E2. cbn [negb andb] in E2. bool_facts. exact E2.
Qed.

(** What [ntfs_restart_page_header_is_valid] has tested when it returns
    TRUE, up to the update sequence array. *)
Lemma header_valid_inv (rp : buffer) (pos : Z) :
  ntfs_restart_page_header_is_valid rp pos = TRUE ->
  let sps := RESTART_PAGE_HEADER.system_page_size rp in
  let lps := RESTART_PAGE_HEADER.log_page_size rp in
  (NTFS_BLOCK_SIZE <= sps /\ NTFS_BLOCK_SIZE <= lps
   /\ Z.land sps (u32 (sps - 1)) = 0 /\ Z.land lps (u32 (lps - 1)) = 0)
  /\ (pos = 0 \/ pos = sps)
  /\ (sle16_to_cpu (RESTART_PAGE_HEADER.major_ver rp) = 1
      /\ sle16_to_cpu (RESTART_PAGE_HEADER.minor_ver rp) = 1)
  /\ ((ntfs_is_chkd_record (RESTART_PAGE_HEADER.magic rp) = true
       /\ RESTART_PAGE_HEADER.usa_count rp = 0
       /\ skip_usa_checks rp sps false 0 = TRUE)
      \/
      (~ (ntfs_is_chkd_record (RESTART_PAGE_HEADER.magic rp) = true
          /\ RESTART_PAGE_HEADER.usa_count rp = 0)
       /\ RESTART_PAGE_HEADER.usa_count rp = u16 (1 + Z.shiftr sps NTFS_BLOCK_SIZE_SHIFT)
       /\ RESTART_PAGE_HEADER.sizeof <= RESTART_PAGE_HEADER.usa_ofs rp
       /\ u16 (RESTART_PAGE_HEADER.usa_ofs rp
               + RESTART_PAGE_HEADER.usa_count rp * sizeof_u16)
          <= NTFS_BLOCK_SIZE - sizeof_u16
       /\ skip_usa_checks rp sps true
            (u16 (RESTART_PAGE_HEADER.usa_ofs rp
                  + RESTART_PAGE_HEADER.usa_count rp * sizeof_u16)) = TRUE)).
Proof.
  unfold ntfs_restart_page_header_is_valid, le16_to_cpu, le32_to_cpu. cbv zeta.
  intros H.
  destruct (_ || _ || _ || _) eqn:E1 in H; [discriminate|].
  destruct (negb (pos =? 0) && _) eqn:E2 in H; [discriminate|].
  destruct (negb (_ =? 1) || _) eqn:E3 in H; [discriminate|].
  bool_facts.
  split; [auto|]. split.
  { destruct (Z.eqb_spec pos 0); [left; assumption|].
    cbn [negb andb] in E2. bool_facts. right. exact E2. }
  split; [auto|].
  destruct (ntfs_is_chkd_record (RESTART_PAGE_HEADER.magic rp)
            && (RESTART_PAGE_HEADER.usa_count rp =? 0)) eqn:E4.
  - left. bool_facts. auto.
  - right.
    destruct (negb (_ =? RESTART_PAGE_HEADER.usa_count rp)) eqn:E5 in H; [discriminate|].
    bool_facts. rewrite E5 in H.
    destruct (_ || _) eqn:E6 in H; [discriminate|].
    bool_facts. split.
    { intros [Hc Hu]. rewrite Hc in E4. cbn [andb] in E4. apply Z.eqb_neq in E4.
      contradiction. }
    split; [symmetry; exact E5|]. auto.
Qed.

Lemma le64_at_range (b : buffer) (o : Z) : 0 <= le64_at b o < 2 ^ 64.
Proof.
  unfold le64_at. pose proof (le32_at_range b o). pose proof (le32_at_range b (o + 4)).
  change (2 ^ 32) with 4294967296 in *. change (2 ^ 64) with 18446744073709551616. lia.
Qed.

Lemma s64_is_0 (x : Z) : 0 <= x < 2 ^ 64 -> s64 x = 0 -> x = 0.
Proof.
  unfold s64. intros Hx. rewrite Z.mod_small by exact Hx.
  destruct (x <? 2 ^ 63); lia.
Qed.

(** X1.  A restart page header that [ntfs_restart_page_header_is_valid]
    accepts has a system page size and a log page size that are powers of
    two, from 2^9 (the block size) to 2^31. *)
Theorem valid_header_page_sizes :
  forall (rp : buffer) (pos : Z),
    ntfs_restart_page_header_is_valid rp pos = TRUE ->
    exists k l : Z,
      9 <= k <= 31 /\ 9 <= l <= 31
      /\ RESTART_PAGE_HEADER.system_page_size rp = 2 ^ k
      /\ RESTART_PAGE_HEADER.log_page_size rp = 2 ^ l.
Proof.
  intros rp pos H. destruct (header_valid_inv rp pos H) as ((Hs & Hl & Hsl & Hll) & _).
  destruct (page_size_pow2 (RESTART_PAGE_HEADER.system_page_size rp)) as (k & Hk & Ek);
    [pose proof (le32_at_range rp 16) as Hr; split; [exact Hs|apply Hr]|exact Hsl|].
  destruct (page_size_pow2 (RESTART_PAGE_HEADER.log_page_size rp)) as (l & Hl' & El);
    [pose proof (le32_at_range rp 20) as Hr; split; [exact Hl|apply Hr]|exact Hll|].
  exists k, l. auto.
Qed.

Lemma valid_header_page_sizes_witness :
  ntfs_restart_page_header_is_valid (rstr_page 100 0) 0 = TRUE
  /\ exists k l : Z,
      9 <= k <= 31 /\ 9 <= l <= 31
      /\ RESTART_PAGE_HEADER.system_page_size (rstr_page 100 0) = 2 ^ k
      /\ RESTART_PAGE_HEADER.log_page_size (rstr_page 100 0) = 2 ^ l.
Proof.
  split; [vm_compute; reflexivity|].
  apply (valid_header_page_sizes (rstr_page 100 0) 0). vm_compute. reflexivity.
Defined.

(** X2.  A header is accepted only at position 0 or at the position that
    equals its system page size, only with version 1.1, only with a restart
    area offset that is a multiple of 8 and not beyond the system page
    size, and, unless its magic is CHKD, only with a chkdsk LSN of 0. *)
Theorem valid_header_position_version :
  forall (rp : buffer) (pos : Z),
    ntfs_restart_page_header_is_valid rp pos = TRUE ->
    (pos = 0 \/ pos = RESTART_PAGE_HEADER.system_page_size rp)
    /\ RESTART_PAGE_HEADER.major_ver rp = 1
    /\ RESTART_PAGE_HEADER.minor_ver rp = 1
    /\ RESTART_PAGE_HEADER.restart_area_offset rp mod 8 = 0
    /\ RESTART_PAGE_HEADER.restart_area_offset rp
       <= RESTART_PAGE_HEADER.system_page_size rp
    /\ (RESTART_PAGE_HEADER.magic rp <> magic_CHKD ->
        RESTART_PAGE_HEADER.chkdsk_lsn rp = 0).
Proof.
  intros rp pos H.
  destruct (header_valid_inv rp pos H) as (_ & Hpos & (Hmaj & Hmin) & Husa).
  split; [exact Hpos|].
  split; [apply s16_is_1; [apply le16_at_range|exact Hmaj]|].
  split; [apply s16_is_1; [apply le16_at_range|exact Hmin]|].
  assert (Hskip : exists b e,
             skip_usa_checks rp (RESTART_PAGE_HEADER.system_page_size rp) b e = TRUE).
  { destruct Husa as [(_ & _ & Hs)|(_ & _ & _ & _ & Hs)]; eauto. }
  destruct Hskip as (b & e & Hs).
  destruct (skip_usa_checks_inv _ _ _ _ Hs) as (Ha & [_ Hb] & Hc).
  split; [exact Ha|]. split; [exact Hb|].
  intros Hm. apply s64_is_0; [apply le64_at_range|]. apply Hc.
  unfold ntfs_is_chkd_record. apply Z.eqb_neq. exact Hm.
Qed.

Lemma valid_header_position_version_witness :
  ntfs_restart_page_header_is_valid (rstr_page 100 0) 4096 = TRUE
  /\ (4096 = 0 \/ 4096 = RESTART_PAGE_HEADER.system_page_size (rstr_page 100 0))
  /\ is_true (ntfs_restart_page_header_is_valid (rstr_page 100 0) 512) = false.
Proof.
  split; [vm_compute; reflexivity|]. split; [|vm_compute; reflexivity].
  apply (valid_header_position_version (rstr_page 100 0) 4096). vm_compute. reflexivity.
Defined.

(** X3.  For an accepted header with an update sequence array whose end,
    [usa_ofs + 2 * usa_count], fits 16 bits: the array starts after the
    header, ends at or before byte 510 of the first block, and the restart
    area starts at or after its end.  When moreover the system page size is
    below 2^25, [usa_count] is [1 + system_page_size / 512] and the system
    page size is at most 2^16. *)
Theorem valid_header_usa_in_first_block :
  forall (rp : buffer) (pos : Z),
    ntfs_restart_page_header_is_valid rp pos = TRUE ->
    ~ (RESTART_PAGE_HEADER.magic rp = magic_CHKD /\ RESTART_PAGE_HEADER.usa_count rp = 0) ->
    RESTART_PAGE_HEADER.usa_ofs rp + 2 * RESTART_PAGE_HEADER.usa_count rp < 2 ^ 16 ->
    RESTART_PAGE_HEADER.sizeof <= RESTART_PAGE_HEADER.usa_ofs rp
    /\ RESTART_PAGE_HEADER.usa_ofs rp + 2 * RESTART_PAGE_HEADER.usa_count rp
       <= NTFS_BLOCK_SIZE - 2
    /\ RESTART_PAGE_HEADER.usa_ofs rp + 2 * RESTART_PAGE_HEADER.usa_count rp
       <= RESTART_PAGE_HEADER.restart_area_offset rp
    /\ (RESTART_PAGE_HEADER.system_page_size rp < 2 ^ 25 ->
        RESTART_PAGE_HEADER.usa_count rp
        = 1 + RESTART_PAGE_HEADER.system_page_size rp / NTFS_BLOCK_SIZE
        /\ RESTART_PAGE_HEADER.system_page_size rp <= 2 ^ 16).
Proof.
  intros rp pos H Hno Hfit.
  destruct (header_valid_inv rp pos H) as ((Hs9 & _ & Hsl & _) & _ & _ & Husa).
  destruct (page_size_pow2 (RESTART_PAGE_HEADER.system_page_size rp)) as (k & Hk & Ek);
    [pose proof (le32_at_range rp 16) as Hr; split; [exact Hs9|apply Hr]|exact Hsl|].
  clear Hs9 Hsl.
  destruct Husa as [(Hc & Hu & _)|(_ & Hcnt & Hofs & Hend & Hs)].
  { exfalso. apply Hno. split; [|exact Hu]. apply Z.eqb_eq. exact Hc. }
  pose proof (le16_at_range rp 4) as Ho.
  pose proof (le16_at_range rp 6) as Hc.
  change (le16_at rp 4) with (RESTART_PAGE_HEADER.usa_ofs rp) in Ho.
  change (le16_at rp 6) with (RESTART_PAGE_HEADER.usa_count rp) in Hc.
  assert (Hu : u16 (RESTART_PAGE_HEADER.usa_ofs rp
                    + RESTART_PAGE_HEADER.usa_count rp * sizeof_u16)
               = RESTART_PAGE_HEADER.usa_ofs rp + 2 * RESTART_PAGE_HEADER.usa_count rp).
  { unfold u16, sizeof_u16. rewrite Z.mod_small; lia. }
  rewrite Hu in Hend, Hs.
  destruct (skip_usa_checks_inv _ _ _ _ Hs) as (_ & [Hra _] & _).
  unfold sizeof_u16 in Hend.
  split; [exact Hofs|]. split; [exact Hend|]. split; [exact Hra|].
  intros Hsmall. rewrite Ek in Hsmall, Hcnt |- *.
  assert (Hk25 : k < 25) by (apply (Z.pow_lt_mono_r_iff 2); lia).
  assert (Hin : In k (map Z.of_nat (seq 9 16))).
  { apply in_map_iff. exists (Z.to_nat k). split; [lia|]. apply in_seq. lia. }
  unfold RESTART_PAGE_HEADER.sizeof, NTFS_BLOCK_SIZE in *.
  cbn [seq map] in Hin.
  repeat (destruct Hin as [<-|Hin];
          [match type of Hcnt with
           | _ = ?r => let v := eval vm_compute in r in change r with v in Hcnt
           end;
           first [exfalso; lia
                 |rewrite Hcnt; split; [reflexivity|vm_compute; discriminate]]|]).
  destruct Hin.
Qed.

(** The page of [rstr_page] satisfies the hypotheses; [wrapped_usa_page]
    shows what the third one is for: its array would start at byte 65520,
    and the header is accepted all the same. *)
Lemma valid_header_usa_in_first_block_witness :
  (ntfs_restart_page_header_is_valid (rstr_page 100 0) 0 = TRUE
   /\ RESTART_PAGE_HEADER.usa_ofs (rstr_page 100 0) = 30
   /\ RESTART_PAGE_HEADER.usa_count (rstr_page 100 0) = 9
   /\ 30 + 2 * 9 <= RESTART_PAGE_HEADER.restart_area_offset (rstr_page 100 0))
  /\ (ntfs_restart_page_header_is_valid wrapped_usa_page 0 = TRUE
      /\ RESTART_PAGE_HEADER.usa_ofs wrapped_usa_page = 65520).
Proof.
  split; [|split; vm_compute; reflexivity].
  split; [vm_compute; reflexivity|]. split; [reflexivity|]. split; [reflexivity|].
  destruct (valid_header_usa_in_first_block (rstr_page 100 0) 0) as (_ & _ & H & _).
  - vm_compute. reflexivity.
  - intros [Hm _]. vm_compute in Hm. discriminate Hm.
  - vm_compute. reflexivity.
  - exact H.
Defined.

(** What [ntfs_restart_area_is_valid] has tested when it returns TRUE. *)
Lemma area_valid_inv (rp : buffer) :
  ntfs_restart_area_is_valid rp = TRUE ->
  let ra_ofs := RESTART_PAGE_HEADER.restart_area_offset rp in
  let ra := ptr_add rp ra_ofs in
  let sps := RESTART_PAGE_HEADER.system_page_size rp in
  let ca_ofs := RESTART_AREA.client_array_offset ra in
  let ra_len := u16 (ca_ofs + RESTART_AREA.log_clients ra * LOG_CLIENT_RECORD.sizeof) in
  (ra_ofs + RESTART_AREA.offsetof_file_size <= NTFS_BLOCK_SIZE - sizeof_u16
   /\ ca_ofs mod 8 = 0
   /\ ra_ofs + ca_ofs <= NTFS_BLOCK_SIZE - sizeof_u16)
  /\ (ra_ofs + ra_len <= sps
      /\ ra_ofs + RESTART_AREA.restart_area_length ra <= sps
      /\ ra_len <= RESTART_AREA.restart_area_length ra)
  /\ ((RESTART_AREA.client_free_list ra = LOGFILE_NO_CLIENT
       \/ RESTART_AREA.client_free_list ra < RESTART_AREA.log_clients ra)
      /\ (RESTART_AREA.client_in_use_list ra = LOGFILE_NO_CLIENT
          \/ RESTART_AREA.client_in_use_list ra < RESTART_AREA.log_clients ra))
  /\ RESTART_AREA.seq_number_bits ra
     = u32 (67 - fs_bits_of (u64 (sle64_to_cpu (RESTART_AREA.file_size ra))))
  /\ RESTART_AREA.log_record_header_length ra mod 8 = 0
  /\ RESTART_AREA.log_page_data_offset ra mod 8 = 0.
Proof.
  unfold ntfs_restart_area_is_valid, le16_to_cpu, le32_to_cpu. cbv zeta.
  intros H.
  destruct (_ >? _) eqn:E1 in H; [discriminate|].
  destruct (negb _ || _) eqn:E2 in H; [discriminate|].
  destruct (_ || _ || _) eqn:E3 in H; [discriminate|].
  destruct (_ && _ || _ && _) eqn:E4 in H; [discriminate|].
  destruct (negb (_ =? u32 _)) eqn:E5 in H; [discriminate|].
  destruct (negb (_ =? _)) eqn:E6 in H; [discriminate|].
  destruct (negb (_ =? _)) eqn:E7 in H; [discriminate|].
  apply orb_false_iff in E4. destruct E4 as [E4 E4'].
  bool_facts.
  split; [split; [lia|split; [apply round_up_8_mod_8; assumption|lia]]|].
  split; [split; [lia|split; lia]|].
  split.
  { split.
    - destruct (Z.eqb_spec (RESTART_AREA.client_free_list
                              (ptr_add rp (RESTART_PAGE_HEADER.restart_area_offset rp)))
                           LOGFILE_NO_CLIENT) as [E|E]; [left; exact E|right].
      cbn [negb andb] in E4. bool_facts. lia.
    - destruct (Z.eqb_spec (RESTART_AREA.client_in_use_list
                              (ptr_add rp (RESTART_PAGE_HEADER.restart_area_offset rp)))
                           LOGFILE_NO_CLIENT) as [E|E]; [left; exact E|right].
      cbn [negb andb] in E4'. bool_facts. lia. }
  split; [assumption|].
  split; apply round_up_8_mod_8; assumption.
Qed.

(** X4.  A restart area that [ntfs_restart_area_is_valid] accepts has a
    client array offset, a log record header length and a log page data
    offset that are multiples of 8; its [seq_number_bits] is 67 minus the
    bit length of [file_size] read as an unsigned 64-bit number, a value from
    3 to 67; and each of its two list heads is the sentinel or less than
    [log_clients]. *)
Theorem valid_area_fields :
  forall rp : buffer,
    ntfs_restart_area_is_valid rp = TRUE ->
    let ra := ptr_add rp (RESTART_PAGE_HEADER.restart_area_offset rp) in
    (RESTART_AREA.client_array_offset ra mod 8 = 0
     /\ RESTART_AREA.log_record_header_length ra mod 8 = 0
     /\ RESTART_AREA.log_page_data_offset ra mod 8 = 0)
    /\ (RESTART_AREA.seq_number_bits ra
        = 67 - bitlength (u64 (sle64_to_cpu (RESTART_AREA.file_size ra)))
        /\ 3 <= RESTART_AREA.seq_number_bits ra <= 67)
    /\ (RESTART_AREA.client_free_list ra = LOGFILE_NO_CLIENT
        \/ RESTART_AREA.client_free_list ra < RESTART_AREA.log_clients ra)
    /\ (RESTART_AREA.client_in_use_list ra = LOGFILE_NO_CLIENT
        \/ RESTART_AREA.client_in_use_list ra < RESTART_AREA.log_clients ra).
Proof.
  intros rp H ra.
  destruct (area_valid_inv rp H) as ((_ & Hca & _) & _ & (Hfree & Huse) & Hseq & Hl & Hp).
  fold ra in Hca, Hfree, Huse, Hseq, Hl, Hp.
  destruct (expected_seq_number_bits
              (u64 (sle64_to_cpu (RESTART_AREA.file_size ra))) (u64_range _)) as [He Hr].
  rewrite He in Hseq. rewrite Hseq. auto 10.
Qed.

Lemma valid_area_fields_witness :
  ntfs_restart_area_is_valid (rstr_page 100 0) = TRUE
  /\ RESTART_AREA.seq_number_bits (ptr_add (rstr_page 100 0) 48) = 67 - 23
  /\ RESTART_AREA.client_in_use_list (ptr_add (rstr_page 100 0) 48) = 0
  /\ RESTART_AREA.log_clients (ptr_add (rstr_page 100 0) 48) = 1.
Proof.
  split; [vm_compute; reflexivity|].
  destruct (valid_area_fields (rstr_page 100 0)) as (_ & (Hs & _) & _ & Hu).
  - vm_compute. reflexivity.
  - split; [etransitivity; [exact Hs|vm_compute; reflexivity]|]. split; reflexivity.
Defined.

(** X5.  For an accepted restart area whose computed length,
    [client_array_offset + log_clients * 160], fits 16 bits, the client
    array lies in the restart area and the restart area in the system page:
    every record with an index below [log_clients] ends at or before the end
    of the restart area as declared, which is at or before the end of the
    system page. *)
Theorem valid_area_client_records_in_page :
  forall rp : buffer,
    ntfs_restart_area_is_valid rp = TRUE ->
    let ra_ofs := RESTART_PAGE_HEADER.restart_area_offset rp in
    let ra := ptr_add rp ra_ofs in
    RESTART_AREA.client_array_offset ra
    + RESTART_AREA.log_clients ra * LOG_CLIENT_RECORD.sizeof < 2 ^ 16 ->
    forall i : Z,
      0 <= i < RESTART_AREA.log_clients ra ->
      ra_ofs + RESTART_AREA.client_array_offset ra + (i + 1) * LOG_CLIENT_RECORD.sizeof
      <= ra_ofs + RESTART_AREA.restart_area_length ra
      /\ ra_ofs + RESTART_AREA.restart_area_length ra
         <= RESTART_PAGE_HEADER.system_page_size rp.
Proof.
  intros rp H ra_ofs ra Hfit i Hi.
  destruct (area_valid_inv rp H) as (_ & (_ & Hlen & Hle) & _).
  fold ra_ofs in Hlen, Hle. fold ra in Hlen, Hle.
  pose proof (le16_at_range ra 22) as Hc.
  change (le16_at ra 22) with (RESTART_AREA.client_array_offset ra) in Hc.
  assert (Hu : u16 (RESTART_AREA.client_array_offset ra
                    + RESTART_AREA.log_clients ra * LOG_CLIENT_RECORD.sizeof)
               = RESTART_AREA.client_array_offset ra
                 + RESTART_AREA.log_clients ra * LOG_CLIENT_RECORD.sizeof).
  { unfold u16. apply Z.mod_small. unfold LOG_CLIENT_RECORD.sizeof in *. lia. }
  rewrite Hu in Hle. unfold LOG_CLIENT_RECORD.sizeof in *. split; [nia|lia].
Qed.

(** The client record of [rstr_page] ends at byte 256 of its page.
    [many_clients_page] shows what the hypothesis on the length is for: it
    declares 2048 clients in a restart area of 48 bytes and is accepted. *)
Lemma valid_area_client_records_in_page_witness :
  (ntfs_restart_area_is_valid (rstr_page 100 0) = TRUE
   /\ 48 + 48 + (0 + 1) * 160
      <= 48 + RESTART_AREA.restart_area_length (ptr_add (rstr_page 100 0) 48))
  /\ (ntfs_restart_area_is_valid many_clients_page = TRUE
      /\ RESTART_AREA.log_clients (ptr_add many_clients_page 48) = 2048
      /\ RESTART_AREA.restart_area_length (ptr_add many_clients_page 48) = 48).
Proof.
  split; [|split; [vm_compute; reflexivity|split; reflexivity]].
  split; [vm_compute; reflexivity|].
  destruct (valid_area_client_records_in_page (rstr_page 100 0)) with (i := 0) as (H & _).
  - vm_compute. reflexivity.
  - vm_compute. reflexivity.
  - vm_compute. split; [discriminate|reflexivity].
  - exact H.
Defined.

(** ** What an accepted client array looks like *)

Section AcceptedLists.
Variable rp : buffer.

Lemma next_of_nonneg (i : Z) : 0 <= next_of rp i.
Proof. apply le16_at_range. Qed.

(** What a TRUE tells about the records the machine has visited from a
    state on. *)
Lemma ca_run_true_sound (fuel : nat) :
  forall (s : ca_state) (v : list Z),
    0 <= idx s ->
    ca_run rp fuel s = Some (true, v) ->
    exists l1 l2 : list Z,
      v = l1 ++ l2
      /\ (client_list rp (idx s) l1
          /\ Forall (fun i => 0 <= i < log_clients_of rp) l1
          /\ (idx_is_first s = true -> l1 <> [] -> prev_of rp (idx s) = LOGFILE_NO_CLIENT))
      /\ (if in_free_list s then well_formed_list rp (in_use_list_of rp) l2 else l2 = []).
Proof.
  induction fuel as [|fuel IH]; intros s v H0 Hr; [discriminate|].
  cbn [ca_run] in Hr. rewrite ca_step_eq in Hr.
  destruct (Z.eqb_spec (idx s) LOGFILE_NO_CLIENT_CPU) as [E|E]; cbn [negb] in Hr.
  - destruct (in_free_list s) eqn:Ef.
    + apply IH in Hr; [|apply le16_at_range].
      cbn [idx idx_is_first in_free_list] in Hr.
      destruct Hr as (l1 & l2 & -> & (H1 & H2 & H3) & ->).
      exists [], (l1 ++ []). split; [reflexivity|]. split.
      * split; [exact E|]. split; [constructor|]. intros _ Hne. contradiction.
      * rewrite app_nil_r. split; [exact H1|]. split; [exact H2|]. intros Hne.
        apply H3; [reflexivity|exact Hne].
    + inversion Hr; subst. exists [], []. split; [reflexivity|]. split; [|reflexivity].
      split; [exact E|]. split; [constructor|]. intros _ Hne. contradiction.
  - destruct (Z.eqb_spec (nr_clients s) 0) as [Hz|Hz]; cbn [orb] in Hr; [discriminate|].
    destruct (Z.geb_spec (idx s) (log_clients_of rp)) as [Hge|Hlt]; [discriminate|].
    cbv zeta in Hr.
    set (s' := {| in_free_list := in_free_list s; idx_is_first := false;
                  idx := next_of rp (idx s); nr_clients := u16 (nr_clients s - 1) |}) in Hr.
    assert (Hboth : (idx_is_first s = true -> prev_of rp (idx s) = LOGFILE_NO_CLIENT)
                    /\ match ca_run rp fuel s' with
                       | Some (b1, visited) => Some (b1, idx s :: visited)
                       | None => None
                       end = Some (true, v)).
    { destruct (idx_is_first s); [|split; [discriminate|exact Hr]].
      destruct (Z.eqb_spec (prev_of rp (idx s)) LOGFILE_NO_CLIENT) as [Hp|Hp];
        cbn [negb] in Hr; [|discriminate].
      split; [intros _; exact Hp|exact Hr]. }
    destruct Hboth as [Hprev Hrun].
    destruct (ca_run rp fuel s') as [[b v']|] eqn:Er; [|discriminate].
    inversion Hrun; subst b v.
    apply IH in Er; [|apply next_of_nonneg].
    destruct Er as (l1 & l2 & -> & (H1 & H2 & _) & H4).
    exists (idx s :: l1), l2. split; [reflexivity|]. split; [|exact H4].
    split; [cbn [client_list]; auto|]. split.
    + constructor; [lia|exact H2].
    + intros Hf _. apply Hprev. exact Hf.
Qed.
End AcceptedLists.

(** X6.  When [ntfs_log_client_array_is_consistent] returns TRUE, the free
    list and the in-use list are both well formed: each ends at the
    sentinel, holds only indexes below [log_clients], and has a head without
    predecessor; the two lists together have at most [log_clients] records,
    and they are, in this order, the records the loop body ran on. *)
Theorem accepted_client_lists_well_formed :
  forall rp : buffer,
    ntfs_log_client_array_is_consistent rp = TRUE ->
    exists fl il : list Z,
      well_formed_list rp (free_list_of rp) fl
      /\ well_formed_list rp (in_use_list_of rp) il
      /\ Z.of_nat (List.length fl) + Z.of_nat (List.length il) <= log_clients_of rp
      /\ ca_run rp (Z.to_nat (log_clients_of rp) + 2) (ca_init rp) = Some (true, fl ++ il).
Proof.
  intros rp Ht. rewrite consistent_eq in Ht.
  destruct (ca_run_returns rp (Z.to_nat (log_clients_of rp) + 2) (ca_init rp))
    as (b & v & Hr & Hl).
  - rewrite ca_init_eq. cbn [nr_clients]. apply log_clients_range.
  - rewrite ca_init_eq. cbn [nr_clients in_free_list]. lia.
  - rewrite Hr in Ht. destruct b; [|discriminate].
    assert (H0 : 0 <= idx (ca_init rp)) by apply le16_at_range.
    pose proof (ca_run_true_sound rp _ _ _ H0 Hr) as Hs.
    rewrite ca_init_eq in Hs, Hl. cbn [idx idx_is_first in_free_list nr_clients] in Hs, Hl.
    destruct Hs as (fl & il & -> & (H1 & H2 & H3) & Hi).
    exists fl, il. split; [|split; [exact Hi|split; [|exact Hr]]].
    + split; [exact H1|]. split; [exact H2|]. intros Hne. apply H3; [reflexivity|exact Hne].
    + rewrite length_app in Hl. lia.
Qed.

Lemma accepted_client_lists_well_formed_witness :
  ntfs_log_client_array_is_consistent three_clients_page = TRUE
  /\ exists fl il : list Z,
      well_formed_list three_clients_page (free_list_of three_clients_page) fl
      /\ well_formed_list three_clients_page (in_use_list_of three_clients_page) il
      /\ Z.of_nat (List.length fl) + Z.of_nat (List.length il)
         <= log_clients_of three_clients_page
      /\ ca_run three_clients_page (Z.to_nat (log_clients_of three_clients_page) + 2)
           (ca_init three_clients_page) = Some (true, fl ++ il).
Proof.
  split; [reflexivity|].
  apply (accepted_client_lists_well_formed three_clients_page). reflexivity.
Defined.

(** * Buffers and pages *)

Lemma filter_all {A : Type} (f : A -> bool) (l : list A) :
  (forall x, In x l -> f x = true) -> filter f l = l.
Proof.
  induction l as [|a l IH]; intros H; [reflexivity|]. cbn [filter].
  rewrite (H a (or_introl eq_refl)). f_equal. apply IH. intros x Hx. apply H. right. exact Hx.
Qed.

(** Freeing one of the buffers held takes it off the list. *)
Lemma filter_held (a : nat) (l1 l2 : list nat) :
  NoDup (l1 ++ a :: l2) ->
  existsb (Nat.eqb a) (l1 ++ a :: l2) = true
  /\ filter (fun b => negb (Nat.eqb a b)) (l1 ++ a :: l2) = l1 ++ l2.
Proof.
  intros Hnd. split.
  - apply existsb_exists. exists a. split; [apply in_elt|apply Nat.eqb_refl].
  - pose proof (NoDup_remove_2 _ _ _ Hnd) as Hnot.
    rewrite filter_app. cbn [filter]. rewrite Nat.eqb_refl. cbn [negb].
    rewrite !filter_all; [reflexivity| |].
    + intros x Hx. destruct (Nat.eqb_spec a x) as [->|_]; [|reflexivity].
      exfalso. apply Hnot. apply in_or_app. right. exact Hx.
    + intros x Hx. destruct (Nat.eqb_spec a x) as [->|_]; [|reflexivity].
      exfalso. apply Hnot. apply in_or_app. left. exact Hx.
Qed.

Section Ledger.
Variable X : Prop.
Variable frame : list nat.
Variable base : Z.

Lemma spec_ret {A : Type} (a : A) (own : list nat) (n : Z)
      (Q : A -> list nat -> Z -> Prop) :
  Q a own n -> spec X frame base (ret a) own n Q.
Proof. intros HQ s a' s' Hs H. inversion H; subst. exists own, n. auto. Qed.

Lemma spec_bind {A B : Type} (Q1 : A -> list nat -> Z -> Prop)
      (m : M A) (k : A -> M B) (own : list nat) (n : Z)
      (Q : B -> list nat -> Z -> Prop) :
  spec X frame base m own n Q1 ->
  (forall a own1 n1, Q1 a own1 n1 -> spec X frame base (k a) own1 n1 Q) ->
  spec X frame base (bind m k) own n Q.
Proof.
  intros Hm Hk s b s' Hs H. apply bind_Ok_inv in H. destruct H as (a & s1 & H1 & H2).
  destruct (Hm s a s1 Hs H1) as (own1 & n1 & HQ1 & Hs1).
  apply (Hk a own1 n1 HQ1 s1 b s' Hs1 H2).
Qed.

Lemma spec_conseq {A : Type} (Q1 Q : A -> list nat -> Z -> Prop)
      (m : M A) (own : list nat) (n : Z) :
  spec X frame base m own n Q1 ->
  (forall a own1 n1, Q1 a own1 n1 -> Q a own1 n1) ->
  spec X frame base m own n Q.
Proof.
  intros Hm HQ s a s' Hs H. destruct (Hm s a s' Hs H) as (own1 & n1 & HQ1 & Hs1).
  exists own1, n1. auto.
Qed.

Lemma spec_panic {A : Type} (msg : string) (own : list nat) (n : Z)
      (Q : A -> list nat -> Z -> Prop) :
  spec X frame base (panic msg) own n Q.
Proof. intros s a s' _ H. discriminate. Qed.

Lemma spec_out_of_fuel {A : Type} (own : list nat) (n : Z)
      (Q : A -> list nat -> Z -> Prop) :
  spec X frame base out_of_fuel own n Q.
Proof. intros s a s' _ H. discriminate. Qed.

(** A call that is not counted leaves what is held as it is. *)
Lemma holds_called (e : event) (own : list nat) (n : Z) (s : state) :
  uncounted e ->
  holds X frame base own n s -> holds X frame base own n (called e s).
Proof.
  intros He [Hh Hp]. split.
  - intros HX. destruct (Hh HX) as (H1 & H2 & H3). unfold heap_is.
    cbn [called trace next_alloc heap]. rewrite H1.
    destruct e; try contradiction; auto.
  - cbn [called trace]. destruct e; try contradiction; exact Hp.
Qed.

Lemma spec_emit (e : event) (own : list nat) (n : Z) :
  uncounted e ->
  spec X frame base (emit e) own n (fun _ own' n' => own' = own /\ n' = n).
Proof.
  intros He s a s' Hs H. inversion H; subst. exists own, n.
  split; [auto|apply holds_called; assumption].
Qed.

Lemma spec_vnode_get (h : host) (own : list nat) (n : Z) :
  spec X frame base (vnode_get h) own n (fun _ own' n' => own' = own /\ n' = n).
Proof.
  intros s a s' Hs H. inversion H; subst. exists own, n.
  split; [auto|apply holds_called; [exact I|assumption]].
Qed.

Lemma spec_ntfs_mst_fixup_post_read (h : host) (b : kbuf) (size : Z)
      (own : list nat) (n : Z) :
  spec X frame base (ntfs_mst_fixup_post_read h b size) own n
       (fun r own' n' => own' = own /\ n' = n /\ addr (snd r) = addr b).
Proof.
  intros s a s' Hs H. inversion H; subst. exists own, n.
  split; [auto|apply holds_called; [exact I|assumption]].
Qed.

Lemma spec_NVolSetLogFileEmpty (own : list nat) (n : Z) :
  spec X frame base NVolSetLogFileEmpty own n (fun _ own' n' => own' = own /\ n' = n).
Proof.
  intros s a s' Hs H. inversion H; subst. exists own, n. split; [auto|exact Hs].
Qed.

Lemma spec_ntfs_page_map (h : host) (pos : Z) (own : list nat) (n : Z) :
  spec X frame base (ntfs_page_map h pos) own n
       (fun _ own' n' => own' = own /\ n' = n + 1).
Proof.
  intros s a s' [Hh Hp] H. inversion H; subst. exists own, (n + 1).
  split; [auto|]. split.
  - intros HX. destruct (Hh HX) as (H1 & H2 & H3). unfold heap_is.
    cbn [called trace next_alloc heap]. rewrite H1. auto.
  - cbn [called trace mapped_pages]. lia.
Qed.

Lemma spec_ntfs_page_unmap (p : Z) (own : list nat) (n : Z) :
  spec X frame base (ntfs_page_unmap p) own n
       (fun _ own' n' => own' = own /\ n' = n - 1).
Proof.
  intros s a s' [Hh Hp] H. inversion H; subst. exists own, (n - 1).
  split; [auto|]. split.
  - intros HX. destruct (Hh HX) as (H1 & H2 & H3). unfold heap_is.
    cbn [called trace next_alloc heap]. rewrite H1. auto.
  - cbn [called trace mapped_pages]. lia.
Qed.

Lemma spec_IOMalloc (h : host) (size : Z) (own : list nat) (n : Z) :
  spec X frame base (IOMalloc h size) own n
       (fun r own' n' =>
          own' = match r with Some p => addr p :: own | None => own end /\ n' = n).
Proof.
  intros s a s' [Hh Hp] H. unfold IOMalloc in H.
  destruct (IOMalloc_succeeds h s size); inversion H; subst.
  - exists (next_alloc s :: own), n. split; [auto|]. split.
    + intros HX. destruct (Hh HX) as (H1 & H2 & H3). unfold heap_is.
      cbn [trace next_alloc heap addr]. rewrite H1. split; [reflexivity|].
      rewrite Forall_forall in H3. split.
      * cbn [app]. constructor; [|exact H2]. intros Hin. specialize (H3 _ Hin). lia.
      * cbn [app]. constructor; [lia|]. apply Forall_forall. intros x Hx.
        specialize (H3 _ Hx). lia.
    + cbn [trace mapped_pages]. exact Hp.
  - exists own, n. split; [auto|]. split; assumption.
Qed.

Lemma spec_IOFree (b1 b2 : list nat) (p : kbuf) (size : Z) (n : Z) :
  spec X frame base (IOFree p size) (b1 ++ addr p :: b2) n
       (fun _ own' n' => own' = b1 ++ b2 /\ n' = n).
Proof.
  intros s a s' [Hh Hp] H. inversion H; subst. exists (b1 ++ b2), n.
  split; [auto|]. split; [|exact Hp].
  intros HX. destruct (Hh HX) as (H1 & H2 & H3). unfold heap_is.
  cbn [called trace next_alloc heap]. rewrite H1.
  rewrite <- app_assoc in H2, H3 |- *. cbn [app] in H2, H3.
  destruct (filter_held (addr p) b1 (b2 ++ frame) H2) as [He Hf].
  rewrite <- !app_assoc. cbn [app]. rewrite He, Hf. split; [reflexivity|]. split.
  - apply (NoDup_remove_1 _ _ _ H2).
  - apply Forall_app in H3. destruct H3 as [H3 H4]. inversion H4; subst.
    apply Forall_app. auto.
Qed.

Lemma spec_IOFree_head (p : kbuf) (size : Z) (own : list nat) (n : Z) :
  spec X frame base (IOFree p size) (addr p :: own) n
       (fun _ own' n' => own' = own /\ n' = n).
Proof. apply (spec_IOFree [] own). Qed.

Lemma spec_IOFree_second (a : nat) (p : kbuf) (size : Z) (own : list nat) (n : Z) :
  spec X frame base (IOFree p size) (a :: addr p :: own) n
       (fun _ own' n' => own' = a :: own /\ n' = n).
Proof. apply (spec_IOFree [a] own). Qed.
End Ledger.

(** ** ntfs_restart_page_load *)

Section LedgerOfTheLoad.
Variable X : Prop.
Variable frame : list nat.
Variable base : Z.
Variable h : host.

Lemma read_error_code (err : Z) :
  let e := if negb (err =? EIO) && negb (err =? ENOMEM) then EIO else err in
  e = EIO \/ e = ENOMEM.
Proof.
  cbv zeta. destruct (Z.eqb_spec err EIO) as [->|_]; [auto|].
  destruct (Z.eqb_spec err ENOMEM) as [->|_]; auto.
Qed.

(** The copy loop unmaps each page it has mapped; it leaves with an error
    only after a call of [ntfs_page_map] that failed. *)
Lemma spec_load_remaining (fuel : nat) :
  forall (trp : kbuf) (pos size have_read to_read : Z) (own : list nat) (n : Z),
    spec X frame base (load_remaining h fuel trp pos size have_read to_read) own n
         (fun r own' n' =>
            own' = own /\ addr (snd r) = addr trp
            /\ match fst r with
               | Some e => n' = n + 1 /\ (e = EIO \/ e = ENOMEM)
               | None => n' = n
               end).
Proof.
  induction fuel as [|fuel IH]; intros trp pos size have_read to_read own n.
  - apply spec_out_of_fuel.
  - cbn [load_remaining]. cbv zeta.
    destruct (negb (Z.land (u32 (pos + size)) (PAGE_MASK h) =? 0)); [apply spec_panic|].
    eapply spec_bind; [apply spec_ntfs_page_map|].
    intros [err|kaddr] own1 n1 [-> ->].
    + eapply spec_bind; [apply spec_emit; exact I|].
      intros _ own1 n1 [-> ->]. apply spec_ret. cbn [fst snd].
      split; [reflexivity|]. split; [reflexivity|]. split; [reflexivity|].
      apply read_error_code.
    + eapply spec_bind; [apply spec_ntfs_page_unmap|].
      intros _ own1 n1 [-> ->]. replace (n + 1 - 1) with n by lia.
      match goal with
      | |- context [if ?c then load_remaining _ _ _ _ _ _ _ else _] => destruct c
      end.
      * eapply spec_conseq; [apply IH|]. cbn [addr]. auto.
      * apply spec_ret. cbn [fst snd addr]. auto.
Qed.

Lemma spec_ntfs_restart_page_load (rp : buffer) (pos : Z) (wrp lsn : bool)
      (own : list nat) (n : Z) :
  spec X frame base (ntfs_restart_page_load h rp pos wrp lsn) own n
       (fun r own' n' =>
          own' = match snd (fst r) with Some p => addr p :: own | None => own end
          /\ (n' = n \/ (n' = n + 1 /\ (fst (fst r) = EIO \/ fst (fst r) = ENOMEM)))
          /\ load_outcome rp pos wrp lsn (fst (fst r)) (snd (fst r)) (snd r)).
Proof.
  assert (Hbad : forall err : Z,
             err = EINVAL \/ err = ENOMEM \/ err = EIO ->
             load_outcome rp pos wrp lsn err None None).
  { intros err He. split; [tauto|]. split; [auto|].
    intros H0. exfalso. destruct He as [He|[He|He]]; rewrite He in H0; discriminate H0. }
  unfold ntfs_restart_page_load. cbv zeta.
  destruct (ntfs_restart_page_header_is_valid rp pos) eqn:Hh.
  2:{ eapply spec_bind; [apply spec_emit; exact I|]. intros _ own1 n1 [-> ->].
      apply spec_ret. cbn [fst snd]. auto 10. }
  destruct (ntfs_restart_area_is_valid rp) eqn:Ha.
  2:{ eapply spec_bind; [apply spec_emit; exact I|]. intros _ own1 n1 [-> ->].
      apply spec_ret. cbn [fst snd]. auto 10. }
  eapply spec_bind; [apply spec_IOMalloc|].
  intros [trp|] own1 n1 [-> ->].
  2:{ eapply spec_bind; [apply spec_emit; exact I|]. intros _ own1 n1 [-> ->].
      apply spec_ret. cbn [fst snd]. auto 10. }
  (* the exit through [err:] *)
  assert (Hexit : forall (t : kbuf) (err : Z) (k : Z),
             addr t = addr trp ->
             err = EINVAL \/ err = ENOMEM \/ err = EIO ->
             k = n \/ (k = n + 1 /\ (err = EIO \/ err = ENOMEM)) ->
             spec X frame base
                  (IOFree t (le32_to_cpu (RESTART_PAGE_HEADER.system_page_size (contents t))) ;;
                   ret (err, @None kbuf, @None Z))
                  (addr trp :: own) k
                  (fun r own' n' =>
                     own' = match snd (fst r) with
                            | Some p => addr p :: own
                            | None => own
                            end
                     /\ (n' = n \/ (n' = n + 1
                                    /\ (fst (fst r) = EIO \/ fst (fst r) = ENOMEM)))
                     /\ load_outcome rp pos wrp lsn (fst (fst r)) (snd (fst r)) (snd r))).
  { intros t err k Ht He Hk. rewrite <- Ht.
    eapply spec_bind; [apply spec_IOFree_head|]. intros _ own1 n1 [-> ->].
    apply spec_ret. cbn [fst snd]. auto. }
  apply (spec_bind X frame base
           (fun r own' n' =>
              own' = addr trp :: own /\ addr (snd r) = addr trp
              /\ match fst r with
                 | Some e => n' = n + 1 /\ (e = EIO \/ e = ENOMEM)
                 | None => n' = n
                 end)).
  { match goal with
    | |- context [if ?c then ret _ else _] => destruct c
    end.
    - apply spec_ret. cbn [fst snd addr]. auto.
    - eapply spec_conseq; [apply spec_load_remaining|]. cbn [addr]. auto. }
  intros [[err|] t] own1 n1 (-> & Ht & Hn); cbn [fst snd] in Ht, Hn.
  { destruct Hn as [-> He]. apply Hexit; [exact Ht|tauto|auto]. }
  subst n1.
  apply (spec_bind X frame base
           (fun r own' n' => own' = addr trp :: own /\ n' = n
                             /\ addr (snd r) = addr trp)).
  { match goal with
    | |- context [if ?c then ntfs_mst_fixup_post_read _ _ _ else _] => destruct c
    end.
    - eapply spec_conseq; [apply spec_ntfs_mst_fixup_post_read|].
      intros a own1 n1 (-> & -> & Hs). rewrite Hs. auto.
    - apply spec_ret. cbn [snd]. auto. }
  intros [mst_err t'] own1 n1 (-> & -> & Ht'); cbn [snd] in Ht'.
  match goal with
  | |- context [if ?c then (ntfs_error _ ;; _) else _] => destruct c
  end.
  { eapply spec_bind; [apply spec_emit; exact I|]. intros _ own1 n1 [-> ->].
    apply Hexit; auto. }
  match goal with
  | |- context [match ?c with TRUE => _ | FALSE _ => _ end] => destruct c eqn:Hc
  end.
  2:{ eapply spec_bind; [apply spec_emit; exact I|]. intros _ own1 n1 [-> ->].
      apply Hexit; auto. }
  assert (Hlsn : (if lsn
                  then if ntfs_is_rstr_record (RESTART_PAGE_HEADER.magic rp)
                       then Some (sle64_to_cpu
                                    (RESTART_AREA.current_lsn
                                       (ptr_add rp (le16_to_cpu
                                          (RESTART_PAGE_HEADER.restart_area_offset rp)))))
                       else Some (sle64_to_cpu (RESTART_PAGE_HEADER.chkdsk_lsn rp))
                  else None)
                 = (if lsn
                    then Some (if ntfs_is_rstr_record (RESTART_PAGE_HEADER.magic rp)
                               then sle64_to_cpu
                                      (RESTART_AREA.current_lsn
                                         (ptr_add rp
                                            (RESTART_PAGE_HEADER.restart_area_offset rp)))
                               else sle64_to_cpu (RESTART_PAGE_HEADER.chkdsk_lsn rp))
                    else None)).
  { destruct lsn; [|reflexivity].
    destruct (ntfs_is_rstr_record (RESTART_PAGE_HEADER.magic rp)); reflexivity. }
  rewrite Hlsn.
  destruct wrp.
  - apply spec_ret. cbn [fst snd]. rewrite Ht'. split; [reflexivity|]. split; [auto|].
    split; [auto|]. split; [intros H0; contradiction H0; reflexivity|]. intros _.
    split; [exact Hh|]. split; [exact Ha|].
    split; [split; [reflexivity|discriminate]|]. split; [reflexivity|].
    intros p Hp Hr Hu. inversion Hp; subst p.
    unfold le16_to_cpu in Hc. rewrite Hr in Hc.
    destruct (Z.eqb_spec (RESTART_AREA.client_in_use_list
                            (ptr_add rp (RESTART_PAGE_HEADER.restart_area_offset rp)))
                         LOGFILE_NO_CLIENT) as [E|_]; [contradiction|].
    exact Hc.
  - rewrite <- Ht'.
    eapply spec_bind; [apply spec_IOFree_head|]. intros _ own1 n1 [-> ->].
    apply spec_ret. cbn [fst snd]. split; [reflexivity|]. split; [auto|].
    split; [auto|]. split; [intros H0; contradiction H0; reflexivity|]. intros _.
    split; [exact Hh|]. split; [exact Ha|].
    split; [split; [intros H0; contradiction H0; reflexivity|discriminate]|].
    split; [reflexivity|]. intros p Hp. discriminate Hp.
Qed.
End LedgerOfTheLoad.

(** ** The scan of ntfs_logfile_check *)

Section LedgerOfTheScan.
Variable X : Prop.
Variable frame : list nat.
Variable base : Z.
Variable h : host.

Lemma spec_and_value {A : Type} (P : A -> Prop) (Q : A -> list nat -> Z -> Prop)
      (m : M A) (own : list nat) (n : Z) :
  spec X frame base m own n Q ->
  (forall s a s', m s = Ok a s' -> P a) ->
  spec X frame base m own n (fun a own' n' => Q a own' n' /\ P a).
Proof.
  intros Hm HP s a s' Hs H. destruct (Hm s a s' Hs H) as (own1 & n1 & HQ & Hs1).
  exists own1, n1. split; [split; [exact HQ|apply (HP s a s' H)]|exact Hs1].
Qed.

(** After the first statement of the loop body one page is mapped, or the
    call that should have mapped it has failed. *)
Lemma spec_scan_map (st : scan_state) (own : list nat) :
  spec X frame base (scan_map h st) own (mapped_by_scan st)
       (fun r own' n' =>
          own' = own /\ n' = 1
          /\ match r with inl _ => True | inr st1 => mapped_by_scan st1 = 1 end).
Proof.
  unfold scan_map, mapped_by_scan. destruct (upl st) as [[mapped paddr]|] eqn:E.
  - destruct (negb (Z.land (pos st) (Z.lnot (PAGE_MASK_64 h)) =? ppos st)).
    + eapply spec_bind; [apply spec_ntfs_page_unmap|]. intros _ own1 n1 [-> ->].
      eapply spec_bind; [apply spec_ntfs_page_map|]. intros [err|paddr'] own1 n1 [-> ->];
        apply spec_ret; cbn [upl]; (split; [reflexivity|]); (split; [lia|]);
        first [exact I|reflexivity].
    + apply spec_ret. rewrite E. auto.
  - eapply spec_bind; [apply spec_ntfs_page_map|]. intros [err|paddr'] own1 n1 [-> ->];
      apply spec_ret; cbn [upl]; (split; [reflexivity|]); (split; [lia|]);
      first [exact I|reflexivity].
Qed.

Lemma spec_scan (size : Z) (fuel : nat) :
  forall st : scan_state,
    scan_head st ->
    spec X frame base (scan h fuel size st) (found_buffers st) (mapped_by_scan st)
         scan_left.
Proof.
  induction fuel as [|fuel IH]; intros st (Hpos & Hr2 & Hr1 & Hne).
  - apply spec_out_of_fuel.
  - cbn [scan]. cbv zeta.
    destruct (negb (pos st <? size)).
    { apply spec_ret. cbn [scan_left]. split; [reflexivity|]. split; [reflexivity|].
      split; [rewrite Hr2; intros H; contradiction H; reflexivity|exact Hne]. }
    (* what every [continue] needs *)
    assert (Hnext : forall st' : scan_state,
               pos st' = pos st -> rstr2_ph st' = None ->
               (rstr1_ph st' <> None -> logfile_is_empty st' = false) ->
               mapped_by_scan st' = 1 ->
               spec X frame base
                    (scan h fuel size
                          (set_pos (half_block_if_zero st')
                                   (Z.shiftl (pos (half_block_if_zero st')) 1)))
                    (found_buffers st') 1 scan_left).
    { intros st' Hp H2 He Hm.
      set (st2 := set_pos (half_block_if_zero st')
                          (Z.shiftl (pos (half_block_if_zero st')) 1)).
      assert (Hf : found_buffers st2 = found_buffers st'
                   /\ mapped_by_scan st2 = mapped_by_scan st'
                   /\ rstr1_ph st2 = rstr1_ph st' /\ rstr2_ph st2 = rstr2_ph st'
                   /\ logfile_is_empty st2 = logfile_is_empty st'
                   /\ 0 < pos st2).
      { subst st2. unfold half_block_if_zero, found_buffers, mapped_by_scan.
        rewrite Hp. destruct (Z.eqb_spec (pos st) 0) as [E|E];
          cbn [set_pos pos upl rstr1_ph rstr2_ph logfile_is_empty];
          rewrite ?Hp, Z.shiftl_mul_pow2 by lia; repeat (split; [reflexivity|]).
        - reflexivity.
        - lia. }
      destruct Hf as (Hf1 & Hf2 & Hf3 & Hf4 & Hf5 & Hf6).
      rewrite <- Hm, <- Hf1, <- Hf2. apply IH. unfold scan_head.
      rewrite Hf3, Hf4, Hf5. split; [lia|]. split; [exact H2|]. split; [lia|exact He]. }
    apply (spec_bind X frame base
             (fun r own' n' =>
                (own' = found_buffers st /\ n' = 1
                 /\ match r with inl _ => True | inr st1 => mapped_by_scan st1 = 1 end)
                /\ match r with
                   | inl _ => True
                   | inr st1 =>
                     pos st1 = pos st /\ logfile_is_empty st1 = logfile_is_empty st
                     /\ rstr1_ph st1 = rstr1_ph st /\ rstr2_ph st1 = rstr2_ph st
                     /\ rstr1_lsn st1 = rstr1_lsn st /\ rstr2_lsn st1 = rstr2_lsn st
                   end)).
    { apply spec_and_value; [apply spec_scan_map|]. intros s r s' H.
      apply (scan_map_fields h st s s' r H). }
    intros [e|st1] own1 n1 ((-> & -> & Hm) & Hfields).
    { eapply spec_bind; [apply spec_emit; exact I|]. intros _ own1 n1 [-> ->].
      apply spec_ret. cbn [scan_left]. split; [reflexivity|]. split; [exact Hr2|].
      split; [auto|]. apply read_error_code. }
    destruct Hfields as (Hp1 & He1 & H11 & H12 & _).
    assert (Hfb : found_buffers st = found_buffers st1)
      by (unfold found_buffers; rewrite H11, H12; reflexivity).
    rewrite Hfb. rewrite <- H11 in Hr1, Hne. rewrite <- H12 in Hr2. rewrite <- He1 in Hne.
    clear Hfb H11 H12 He1.
    destruct (ntfs_is_empty_recordp _).
    { destruct (logfile_is_empty st1) eqn:Eempty.
      - apply Hnext; auto. rewrite Eempty. exact Hne.
      - apply spec_ret. cbn [scan_left]. split; [reflexivity|]. split; [auto|].
        split; [rewrite Hr2; intros H; contradiction H; reflexivity|].
        rewrite Eempty. exact Hne. }
    set (st1' := {| pos := pos st1; ppos := ppos st1; upl := upl st1;
                    logfile_is_empty := false;
                    rstr1_ph := rstr1_ph st1; rstr2_ph := rstr2_ph st1;
                    rstr1_lsn := rstr1_lsn st1; rstr2_lsn := rstr2_lsn st1 |}).
    assert (Hfb : found_buffers st1 = found_buffers st1') by reflexivity.
    assert (Hm' : mapped_by_scan st1' = 1) by exact Hm.
    destruct (ntfs_is_rcrd_recordp _).
    { apply spec_ret. cbn [scan_left]. split; [reflexivity|]. split; [auto|].
      split; [cbn [rstr2_ph st1']; rewrite Hr2; intros H; contradiction H; reflexivity|].
      reflexivity. }
    destruct (negb (ntfs_is_rstr_recordp _) && negb (ntfs_is_chkd_recordp _)).
    { rewrite Hfb. apply Hnext; auto. }
    eapply spec_bind; [apply spec_ntfs_restart_page_load|].
    intros [[err w] lsn] own1 n1 (-> & Hn & Hout). cbn [fst snd] in Hn, Hout |- *.
    destruct Hout as (Hcodes & Hfail & _).
    match goal with
    | |- context [Scanned ?s2] => set (st2 := s2)
    end.
    assert (Hst2 : pos st2 = pos st
                   /\ mapped_by_scan st2 = 1
                   /\ logfile_is_empty st2 = false
                   /\ found_buffers st2
                      = match w with
                        | Some p => addr p :: found_buffers st1
                        | None => found_buffers st1
                        end
                   /\ (rstr2_ph st2 <> None -> rstr1_ph st2 <> None)
                   /\ (rstr2_ph st2 = None \/ (rstr1_ph st1 <> None /\ w <> None))).
    { subst st2 st1'. unfold found_buffers, mapped_by_scan in *.
      cbn [pos upl logfile_is_empty rstr1_ph rstr2_ph].
      destruct (rstr1_ph st1) as [p1|] eqn:E1; destruct w as [p|];
        cbn [pos upl logfile_is_empty rstr1_ph rstr2_ph]; rewrite ?E1, ?Hr2;
        (split; [exact Hp1|]); (split; [exact Hm|]); (split; [reflexivity|]);
        (split; [reflexivity|]); split; try discriminate; auto;
        try (intros H; contradiction H; reflexivity).
      right. split; discriminate. }
    clearbody st2. destruct Hst2 as (Hp2 & Hm2 & He2 & Hf2 & Hboth & Hsecond).
    rewrite <- Hf2.
    destruct (Z.eqb_spec err 0) as [E0|E0].
    { (* a restart page was loaded *)
      assert (n1 = 1).
      { destruct Hn as [Hn|[_ [Hn|Hn]]]; [exact Hn| |]; rewrite E0 in Hn; discriminate Hn. }
      subst n1.
      destruct (Z.eqb_spec (pos st2) 0) as [Ez|Ez].
      - apply Hnext; auto.
        destruct Hsecond as [H|[H _]]; [exact H|].
        exfalso. apply H, Hr1. rewrite <- Hp2. exact Ez.
      - apply spec_ret. cbn [scan_left]. auto. }
    destruct (Hfail E0) as [Hw _].
    assert (Hr2' : rstr2_ph st2 = None).
    { destruct Hsecond as [H|[_ H]]; [exact H|contradiction]. }
    destruct (Z.eqb_spec err EINVAL) as [Ei|Ei]; cbn [negb].
    + (* an invalid restart page: look further *)
      assert (n1 = 1).
      { destruct Hn as [Hn|[_ [Hn|Hn]]]; [exact Hn| |]; rewrite Ei in Hn; discriminate Hn. }
      subst n1. apply Hnext; auto.
    + eapply spec_bind; [apply spec_ntfs_page_unmap|]. intros _ own1 n2 [-> ->].
      apply spec_ret. cbn [scan_left]. split; [reflexivity|]. split; [exact Hr2'|].
      split; [destruct Hn as [->|[-> _]]; auto|tauto].
Qed.

Lemma scan_head_start : scan_head scan_start.
Proof.
  unfold scan_head, scan_start. cbn [pos rstr1_ph rstr2_ph logfile_is_empty].
  split; [lia|]. split; [reflexivity|]. split; [reflexivity|].
  intros H. contradiction H. reflexivity.
Qed.

(** The code of [ntfs_logfile_check] after the test of the flag, for any
    number of rounds of the scan. *)
Lemma spec_check_body (rp : bool) (s0 : state) (fuel : nat) :
  spec X frame base
       (err <- vnode_get h ;;
        if negb (err =? 0) then
          let err := if err =? EINVAL then EIO else err in
          ntfs_error "Failed to get vnode for $LogFile." ;;
          ret (err, None)
        else
          lck_rw_lock_shared ;;
          let size := logfile_size h s0 in
          if logfile_too_small h s0
          then
            ntfs_error "$LogFile is too small." ;;
            lck_rw_unlock_shared ;;
            vnode_put ;;
            ret (EINVAL, None)
          else
            x <- scan h fuel size scan_start ;;
            match x with
            | GotoErr err st =>
              lck_rw_unlock_shared ;;
              vnode_put ;;
              match rstr1_ph st with
              | Some p =>
                IOFree p (le32_to_cpu (RESTART_PAGE_HEADER.system_page_size (contents p))) ;;
                ret (err, None)
              | None => ret (err, None)
              end
            | Scanned st =>
              match upl st with
              | Some (mapped, _) => ntfs_page_unmap mapped
              | None => ret tt
              end ;;
              lck_rw_unlock_shared ;;
              vnode_put ;;
              if logfile_is_empty st then
                NVolSetLogFileEmpty ;;
                ret (0, None)
              else
                match rstr1_ph st, rstr2_ph st with
                | None, Some _ => panic "ntfs_logfile_check(): !rstr1_ph but rstr2_ph"
                | None, None =>
                  ntfs_error "Did not find any restart pages in $LogFile and it was not empty." ;;
                  ret (EINVAL, None)
                | Some p1, r2 =>
                  p1 <- match r2 with
                        | Some p2 =>
                          if rstr2_lsn st >? rstr1_lsn st then
                            IOFree p1 (le32_to_cpu (RESTART_PAGE_HEADER.system_page_size (contents p1))) ;;
                            ret p2
                          else
                            IOFree p2 (le32_to_cpu (RESTART_PAGE_HEADER.system_page_size (contents p2))) ;;
                            ret p1
                        | None => ret p1
                        end ;;
                  if rp then ret (0, Some p1)
                  else
                    IOFree p1 (le32_to_cpu (RESTART_PAGE_HEADER.system_page_size (contents p1))) ;;
                    ret (0, None)
                end
            end)
       [] 0 (check_left rp).
Proof.
  assert (Hplain : forall err : Z, check_left rp (err, None) [] 0).
  { intros err. split; [reflexivity|]. split; [auto|]. intros H. contradiction H. reflexivity. }
  eapply spec_bind; [apply spec_vnode_get|]. intros err own1 n1 [-> ->].
  destruct (negb (err =? 0)).
  { cbv zeta. eapply spec_bind; [apply spec_emit; exact I|]. intros _ own1 n1 [-> ->].
    apply spec_ret, Hplain. }
  eapply spec_bind; [apply spec_emit; exact I|]. intros _ own1 n1 [-> ->]. cbv zeta.
  destruct (logfile_too_small h s0).
  { eapply spec_bind; [apply spec_emit; exact I|]. intros _ own1 n1 [-> ->].
    eapply spec_bind; [apply spec_emit; exact I|]. intros _ own1 n1 [-> ->].
    eapply spec_bind; [apply spec_emit; exact I|]. intros _ own1 n1 [-> ->].
    apply spec_ret, Hplain. }
  eapply spec_bind; [apply (spec_scan (logfile_size h s0) fuel scan_start scan_head_start)|].
  intros [st|e st] own1 n1 Hleft; cbn [scan_left] in Hleft.
  - destruct Hleft as (-> & -> & Hboth & Hne).
    apply (spec_bind X frame base (fun _ own' n' => own' = found_buffers st /\ n' = 0)).
    { unfold mapped_by_scan. destruct (upl st) as [[mapped paddr]|].
      - eapply spec_conseq; [apply spec_ntfs_page_unmap|]. intros _ own1 n1 [-> ->]. auto.
      - apply spec_ret. auto. }
    intros _ own1 n1 [-> ->].
    eapply spec_bind; [apply spec_emit; exact I|]. intros _ own1 n1 [-> ->].
    eapply spec_bind; [apply spec_emit; exact I|]. intros _ own1 n1 [-> ->].
    unfold found_buffers.
    destruct (logfile_is_empty st).
    { destruct (rstr1_ph st) as [p1|].
      { assert (Hf : true = false) by (apply Hne; discriminate). discriminate Hf. }
      destruct (rstr2_ph st) as [p2|].
      { exfalso. apply Hboth; [discriminate|reflexivity]. }
      eapply spec_bind; [apply spec_NVolSetLogFileEmpty|]. intros _ own1 n1 [-> ->].
      apply spec_ret, Hplain. }
    destruct (rstr1_ph st) as [p1|].
    + apply (spec_bind X frame base
               (fun p own' n' => own' = [addr p] /\ n' = 0)).
      { destruct (rstr2_ph st) as [p2|]; cbn [app]; [|apply spec_ret; auto].
        destruct (rstr2_lsn st >? rstr1_lsn st).
        - eapply spec_bind; [apply spec_IOFree_second|]. intros _ own1 n1 [-> ->].
          apply spec_ret. auto.
        - eapply spec_bind; [apply spec_IOFree_head|]. intros _ own1 n1 [-> ->].
          apply spec_ret. auto. }
      intros p own1 n1 [-> ->]. destruct rp.
      * apply spec_ret. split; [reflexivity|]. split; auto.
      * eapply spec_bind; [apply spec_IOFree_head|]. intros _ own1 n1 [-> ->].
        apply spec_ret, Hplain.
    + destruct (rstr2_ph st) as [p2|]; cbn [app]; [apply spec_panic|].
      eapply spec_bind; [apply spec_emit; exact I|]. intros _ own1 n1 [-> ->].
      apply spec_ret, Hplain.
  - destruct Hleft as (-> & Hr2 & Hn & Herr).
    eapply spec_bind; [apply spec_emit; exact I|]. intros _ own1 n2 [-> ->].
    eapply spec_bind; [apply spec_emit; exact I|]. intros _ own1 n2 [-> ->].
    unfold found_buffers. rewrite Hr2. cbn [app].
    assert (Hq : check_left rp (e, None) [] n1).
    { split; [reflexivity|]. split; [destruct Hn; auto|].
      intros H. contradiction H. reflexivity. }
    destruct (rstr1_ph st) as [p1|].
    + eapply spec_bind; [apply spec_IOFree_head|]. intros _ own1 n2 [-> ->].
      apply spec_ret, Hq.
    + apply spec_ret, Hq.
Qed.
End LedgerOfTheScan.

Lemma spec_ntfs_logfile_check (X : Prop) (frame : list nat) (base : Z)
      (h : host) (rp : bool) :
  spec X frame base (ntfs_logfile_check h rp) [] 0 (check_left rp).
Proof.
  intros s r s' Hs. unfold ntfs_logfile_check. generalize scan_fuel. intros fuel H.
  destruct (NVolLogFileEmpty s).
  - inversion H; subst. exists [], 0. split; [|exact Hs].
    split; [reflexivity|]. split; [auto|]. intros H0. contradiction H0. reflexivity.
  - exact (spec_check_body X frame base h rp s fuel s r s' Hs H).
Qed.

(** A state holds nothing of its own, whatever its record of calls. *)
Lemma holds_nothing (s : state) : holds False [] (mapped_pages (trace s)) [] 0 s.
Proof. split; [intros []|lia]. Qed.

Lemma holds_frame (held : list nat) (s : state) :
  heap_is held s -> holds True held (mapped_pages (trace s)) [] 0 s.
Proof. intros H. split; [intros _; exact H|lia]. Qed.

(** X7.  [ntfs_restart_page_load] returns 0, EINVAL, ENOMEM or EIO.  When
    it returns an error it has written neither [*wrp] nor [*lsn].  When it
    returns 0, the header and the restart area of [rp] have passed
    [ntfs_restart_page_header_is_valid] and [ntfs_restart_area_is_valid];
    [*wrp] is set exactly when [wrp] was given; [*lsn], when given, is the
    current LSN of the restart area for a RSTR page and the chkdsk LSN of
    the header otherwise; and for a RSTR page with an in-use list the copy
    handed over in [*wrp] has passed
    [ntfs_log_client_array_is_consistent]. *)
Theorem restart_page_load_outcome :
  forall (h : host) (rp : buffer) (pos : Z) (wrp lsn : bool)
         (s : state) (err : Z) (w : option kbuf) (l : option Z) (s' : state),
    ntfs_restart_page_load h rp pos wrp lsn s = Ok (err, w, l) s' ->
    (err = 0 \/ err = EINVAL \/ err = ENOMEM \/ err = EIO)
    /\ (err <> 0 -> w = None /\ l = None)
    /\ (err = 0 ->
        ntfs_restart_page_header_is_valid rp pos = TRUE
        /\ ntfs_restart_area_is_valid rp = TRUE
        /\ (w <> None <-> wrp = true)
        /\ l = (if lsn
                then Some (if ntfs_is_rstr_record (RESTART_PAGE_HEADER.magic rp)
                           then sle64_to_cpu
                                  (RESTART_AREA.current_lsn
                                     (ptr_add rp (RESTART_PAGE_HEADER.restart_area_offset rp)))
                           else sle64_to_cpu (RESTART_PAGE_HEADER.chkdsk_lsn rp))
                else None)
        /\ (forall p : kbuf,
               w = Some p ->
               ntfs_is_rstr_record (RESTART_PAGE_HEADER.magic rp) = true ->
               RESTART_AREA.client_in_use_list
                 (ptr_add rp (RESTART_PAGE_HEADER.restart_area_offset rp))
               <> LOGFILE_NO_CLIENT ->
               ntfs_log_client_array_is_consistent (contents p) = TRUE)).
Proof.
  intros h rp pos wrp lsn s err w l s' H.
  destruct (spec_ntfs_restart_page_load False [] (mapped_pages (trace s)) h rp pos wrp lsn
              [] 0 s _ s' (holds_nothing s) H) as (own' & n' & (_ & _ & Hout) & _).
  exact Hout.
Qed.

(** The restart page of [rstr_page], with LSN 100 and an in-use list, is
    loaded from position 0; at position 512 it is refused with EINVAL. *)
Lemma restart_page_load_outcome_witness :
  (exists (p : kbuf) (s' : state),
      ntfs_restart_page_load quiet_host (rstr_page 100 0) 0 true true tiny_journal
      = Ok (0, Some p, Some 100) s'
      /\ ntfs_log_client_array_is_consistent (contents p) = TRUE)
  /\ (exists s' : state,
         ntfs_restart_page_load quiet_host (rstr_page 100 0) 512 true true tiny_journal
         = Ok (EINVAL, None, None) s').
Proof.
  split.
  - destruct (ntfs_restart_page_load quiet_host (rstr_page 100 0) 0 true true tiny_journal)
      as [[[err w] l] s'| |] eqn:E.
    + pose proof (restart_page_load_outcome _ _ _ _ _ _ _ _ _ _ E) as (_ & _ & H).
      vm_compute in E. inversion E; subst err w l s'. clear E.
      destruct (H eq_refl) as (_ & _ & _ & _ & Hc).
      eexists. eexists. split; [reflexivity|].
      apply Hc; [reflexivity|reflexivity|]. vm_compute. discriminate.
    + vm_compute in E. discriminate E.
    + vm_compute in E. discriminate E.
  - destruct (ntfs_restart_page_load quiet_host (rstr_page 100 0) 512 true true tiny_journal)
      as [[[err w] l] s'| |] eqn:E.
    + pose proof (restart_page_load_outcome _ _ _ _ _ _ _ _ _ _ E) as (_ & H & _).
      assert (He : err = EINVAL) by (vm_compute in E; inversion E; reflexivity).
      destruct H as [-> ->]; [rewrite He; discriminate|].
      rewrite He. eexists. reflexivity.
    + vm_compute in E. discriminate E.
    + vm_compute in E. discriminate E.
Defined.

(** X8.  [ntfs_restart_page_load] frees the buffer it has allocated before
    it returns, unless it hands it over in [*wrp]; it frees no other buffer
    and none twice.  It unmaps every page it has mapped: the calls of
    [ntfs_page_unmap] are as many as those of [ntfs_page_map], but for the
    one call of [ntfs_page_map] after which it leaves with EIO or
    ENOMEM. *)
Theorem restart_page_load_resources :
  forall (h : host) (rp : buffer) (pos : Z) (wrp lsn : bool)
         (held : list nat) (s : state) (err : Z) (w : option kbuf) (l : option Z)
         (s' : state),
    heap_is held s ->
    ntfs_restart_page_load h rp pos wrp lsn s = Ok (err, w, l) s' ->
    heap_is (match w with Some p => addr p :: held | None => held end) s'
    /\ (mapped_pages (trace s') = mapped_pages (trace s)
        \/ (mapped_pages (trace s') = mapped_pages (trace s) + 1
            /\ (err = EIO \/ err = ENOMEM))).
Proof.
  intros h rp pos wrp lsn held s err w l s' Hheap H.
  destruct (spec_ntfs_restart_page_load True held (mapped_pages (trace s)) h rp pos wrp lsn
              [] 0 s _ s' (holds_frame held s Hheap) H)
    as (own' & n' & (Hown & Hn & _) & Hh & Hp).
  cbn [fst snd] in Hown, Hn. subst own'. split.
  - specialize (Hh I). destruct w; exact Hh.
  - rewrite Hp. destruct Hn as [->|[-> He]]; [left; lia|right; auto].
Qed.

Lemma restart_page_load_resources_witness :
  heap_is [] tiny_journal
  /\ exists (p : kbuf) (s' : state),
      ntfs_restart_page_load quiet_host (rstr_page 100 0) 0 true true tiny_journal
      = Ok (0, Some p, Some 100) s'
      /\ heap_is [addr p] s'.
Proof.
  assert (Hheap : heap_is [] tiny_journal).
  { split; [reflexivity|]. split; constructor. }
  split; [exact Hheap|].
  destruct (ntfs_restart_page_load quiet_host (rstr_page 100 0) 0 true true tiny_journal)
    as [[[err w] l] s'| |] eqn:E.
  - pose proof (restart_page_load_resources _ _ _ _ _ _ _ _ _ _ _ Hheap E) as (H & _).
    vm_compute in E. inversion E; subst err w l s'. clear E.
    eexists. eexists. split; [reflexivity|exact H].
  - vm_compute in E. discriminate E.
  - vm_compute in E. discriminate E.
Defined.

(** ** ntfs_logfile_check *)

(** X9.  [ntfs_logfile_check] frees every buffer that its scan has
    allocated, but the one it hands over in [*rp]: the buffers allocated
    and not freed when it returns are those of before and that one.  It
    frees no buffer that it has not allocated, and none twice. *)
Theorem logfile_check_buffers :
  forall (h : host) (rp : bool) (held : list nat) (s : state)
         (err : Z) (p : option kbuf) (s' : state),
    heap_is held s ->
    ntfs_logfile_check h rp s = Ok (err, p) s' ->
    heap_is (match p with Some b => addr b :: held | None => held end) s'.
Proof.
  intros h rp held s err p s' Hheap H.
  destruct (spec_ntfs_logfile_check True held (mapped_pages (trace s)) h rp
              s _ s' (holds_frame held s Hheap) H)
    as (own' & n' & (Hown & _) & Hh & _).
  cbn [snd] in Hown. subst own'. specialize (Hh I). destruct p; exact Hh.
Qed.

(** Of the two buffers allocated for the restart pages of the journal, the
    one of the second page is left, and handed over. *)
Lemma logfile_check_buffers_witness :
  heap_is [] (journal (rstr_page 100 0) (rstr_page 105 0))
  /\ exists s' : state,
      ntfs_logfile_check quiet_host true (journal (rstr_page 100 0) (rstr_page 105 0))
      = Ok (0, Some {| addr := 1; contents := rstr_page 105 0 |}) s'
      /\ heap_is [1%nat] s'.
Proof.
  assert (Hheap : heap_is [] (journal (rstr_page 100 0) (rstr_page 105 0))).
  { split; [reflexivity|]. split; constructor. }
  split; [exact Hheap|].
  destruct (ntfs_logfile_check quiet_host true (journal (rstr_page 100 0) (rstr_page 105 0)))
    as [[err p] s'| |] eqn:E.
  - pose proof (logfile_check_buffers _ _ _ _ _ _ _ Hheap E) as H.
    vm_compute in E. inversion E; subst err p s'. clear E.
    eexists. split; [reflexivity|exact H].
  - vm_compute in E. discriminate E.
  - vm_compute in E. discriminate E.
Defined.

(** X10.  [ntfs_logfile_check] unmaps every page that it or
    [ntfs_restart_page_load] has mapped: when it returns, the calls of
    [ntfs_page_unmap] are as many as those of [ntfs_page_map], but for the
    one call of [ntfs_page_map] after which it returns EIO or ENOMEM. *)
Theorem logfile_check_pages :
  forall (h : host) (rp : bool) (s : state) (err : Z) (p : option kbuf) (s' : state),
    ntfs_logfile_check h rp s = Ok (err, p) s' ->
    mapped_pages (trace s') = mapped_pages (trace s)
    \/ (mapped_pages (trace s') = mapped_pages (trace s) + 1
        /\ (err = EIO \/ err = ENOMEM)).
Proof.
  intros h rp s err p s' H.
  destruct (spec_ntfs_logfile_check False [] (mapped_pages (trace s)) h rp
              s _ s' (holds_nothing s) H)
    as (own' & n' & (_ & Hn & _) & _ & Hp).
  cbn [fst] in Hn. rewrite Hp. destruct Hn as [->|[-> He]]; [left; lia|right; auto].
Qed.

Lemma logfile_check_pages_witness :
  exists s' : state,
    ntfs_logfile_check quiet_host true (journal (rstr_page 100 0) (rstr_page 105 0))
    = Ok (0, Some {| addr := 1; contents := rstr_page 105 0 |}) s'
    /\ mapped_pages (trace s') = 0.
Proof.
  destruct (ntfs_logfile_check quiet_host true (journal (rstr_page 100 0) (rstr_page 105 0)))
    as [[err p] s'| |] eqn:E.
  - pose proof (logfile_check_pages _ _ _ _ _ _ E) as H.
    vm_compute in E. inversion E; subst err p s'. clear E.
    eexists. split; [reflexivity|].
    destruct H as [H|[_ [H|H]]]; [exact H|discriminate H|discriminate H].
  - vm_compute in E. discriminate E.
  - vm_compute in E. discriminate E.
Defined.

(** How the scan of [ntfs_logfile_check] can be left. *)
Lemma scan_leaves (h : host) (size : Z) (fuel : nat) (s : state) (x : scan_exit)
      (s' : state) :
  scan h fuel size scan_start s = Ok x s' ->
  exists (own : list nat) (n : Z), scan_left x own n.
Proof.
  intros H.
  destruct (spec_scan False [] (mapped_pages (trace s)) h size fuel scan_start
              scan_head_start s x s' (holds_nothing s) H) as (own & n & Hl & _).
  exists own, n. exact Hl.
Qed.

(** The four ways through [ntfs_logfile_check]. *)
Lemma check_cases (h : host) (rp : bool) (s : state) (r : Z * option kbuf) (s' : state) :
  ntfs_logfile_check h rp s = Ok r s' ->
  (NVolLogFileEmpty s = true /\ r = (0, None) /\ s' = s)
  \/ (NVolLogFileEmpty s = false /\ vnode_get_result h s <> 0
      /\ r = (if vnode_get_result h s =? EINVAL then EIO else vnode_get_result h s, None)
      /\ s' = called (ntfs_error_call "Failed to get vnode for $LogFile.")
                     (called vnode_get_call s))
  \/ (NVolLogFileEmpty s = false /\ vnode_get_result h s = 0
      /\ logfile_too_small h s = true
      /\ r = (EINVAL, None)
      /\ s' = called vnode_put_call
                (called lck_rw_unlock_shared_call
                   (called (ntfs_error_call "$LogFile is too small.") (scan_entry s))))
  \/ (NVolLogFileEmpty s = false /\ vnode_get_result h s = 0
      /\ logfile_too_small h s = false
      /\ exists (x : scan_exit) (s1 : state),
          scan h scan_fuel (logfile_size h s) scan_start (scan_entry s) = Ok x s1
          /\ (rstr1_ph match x with Scanned st | GotoErr _ st => st end = None ->
              rstr2_ph match x with Scanned st | GotoErr _ st => st end = None)
          /\ left_scan rp x s1 r s').
Proof.
  unfold ntfs_logfile_check. generalize scan_fuel. intros fuel Hrun.
  destruct (NVolLogFileEmpty s) eqn:He.
  { inversion Hrun; subst. left. auto. }
  right.
  cbv beta iota zeta delta [bind vnode_get emit ret lck_rw_lock_shared] in Hrun.
  destruct (Z.eqb_spec (vnode_get_result h s) 0) as [Hv|Hv]; cbn [negb] in Hrun.
  2:{ cbv beta iota zeta delta [ntfs_error emit] in Hrun. inversion Hrun; subst.
      left. auto. }
  right. fold (scan_entry s) in Hrun.
  destruct (logfile_too_small h s) eqn:Hsmall.
  { cbv beta iota zeta delta [ntfs_error emit lck_rw_unlock_shared vnode_put] in Hrun.
    inversion Hrun; subst. left. auto. }
  right. split; [reflexivity|]. split; [exact Hv|]. split; [reflexivity|].
  destruct (scan h fuel (logfile_size h s) scan_start (scan_entry s)) as [x s1| |] eqn:Hscan;
    [|discriminate|discriminate].
  exists x, s1. split; [reflexivity|].
  destruct (scan_leaves h _ _ _ _ _ Hscan) as (own & n & Hleft).
  destruct x as [st|err st]; cbn [scan_left left_scan] in Hleft |- *.
  - destruct Hleft as (_ & _ & Hboth & _).
    split.
    { intros Hn1. destruct (rstr2_ph st); [|reflexivity].
      exfalso. apply Hboth; [discriminate|exact Hn1]. }
    unfold chosen.
    destruct (upl st) as [[mapped paddr]|]; destruct (logfile_is_empty st);
      destruct (rstr1_ph st) as [p1|]; destruct (rstr2_ph st) as [p2|];
      try (exfalso; apply Hboth; [discriminate|reflexivity]);
      try destruct (rstr2_lsn st >? rstr1_lsn st); destruct rp;
      revert Hrun; run_calls; intros Hrun; inversion Hrun; subst;
      cbn [called set_LogFileEmpty trace LogFileEmpty];
      (split; [|auto]);
      first [exists []; split; [reflexivity|constructor]
            |eexists [_]; split; [reflexivity|repeat constructor]
            |eexists [_; _]; split; [reflexivity|repeat constructor]].
  - destruct Hleft as (_ & Hr2 & _). split; [intros _; exact Hr2|].
    destruct (rstr1_ph st) as [p1|]; revert Hrun; run_calls; intros Hrun;
      inversion Hrun; subst;
      cbn [called trace LogFileEmpty]; (split; [reflexivity|]); (split; [reflexivity|]).
    + eexists [_]. split; [reflexivity|repeat constructor].
    + exists []. split; [reflexivity|constructor].
Qed.

(** ** The calls of the scan *)

Lemma appends_ret {A : Type} (P : event -> Prop) (a : A) : appends P (ret a).
Proof. intros s a' s' H. inversion H; subst. exists []. split; [reflexivity|constructor]. Qed.

Lemma appends_bind {A B : Type} (P : event -> Prop) (m : M A) (k : A -> M B) :
  appends P m -> (forall a, appends P (k a)) -> appends P (bind m k).
Proof.
  intros Hm Hk s b s' H. apply bind_Ok_inv in H. destruct H as (a & s1 & H1 & H2).
  destruct (Hm _ _ _ H1) as (n1 & E1 & F1). destruct (Hk a _ _ _ H2) as (n2 & E2 & F2).
  exists (n2 ++ n1). split; [rewrite E2, E1; apply app_assoc|].
  apply Forall_app. auto.
Qed.

Lemma appends_emit (P : event -> Prop) (e : event) : P e -> appends P (emit e).
Proof.
  intros He s a s' H. inversion H; subst. exists [e]. split; [reflexivity|].
  constructor; [exact He|constructor].
Qed.

Lemma appends_panic {A : Type} (P : event -> Prop) (msg : string) :
  appends P (@panic A msg).
Proof. intros s a s' H. discriminate. Qed.

Lemma appends_out_of_fuel {A : Type} (P : event -> Prop) : appends P (@out_of_fuel A).
Proof. intros s a s' H. discriminate. Qed.

Lemma appends_ntfs_page_map (h : host) (pos : Z) : appends reading (ntfs_page_map h pos).
Proof.
  intros s a s' H. inversion H; subst. exists [ntfs_page_map_call pos].
  split; [reflexivity|repeat constructor].
Qed.

Lemma appends_IOMalloc (h : host) (size : Z) : appends reading (IOMalloc h size).
Proof.
  intros s a s' H. unfold IOMalloc in H.
  destruct (IOMalloc_succeeds h s size); inversion H; subst.
  - exists [IOMalloc_call (next_alloc s) size]. split; [reflexivity|repeat constructor].
  - exists []. split; [reflexivity|constructor].
Qed.

Lemma appends_ntfs_mst_fixup_post_read (h : host) (b : kbuf) (size : Z) :
  appends reading (ntfs_mst_fixup_post_read h b size).
Proof.
  intros s a s' H. inversion H; subst. exists [ntfs_mst_fixup_post_read_call (addr b) size].
  split; [reflexivity|repeat constructor].
Qed.

(** One step of a proof that a computation makes only calls of
    reading. *)
Ltac reading_step :=
  match goal with
  | |- appends reading (bind _ _) => apply appends_bind; [|intros ?]
  | |- appends reading (ret _) => apply appends_ret
  | |- appends reading (panic _) => apply appends_panic
  | |- appends reading out_of_fuel => apply appends_out_of_fuel
  | |- appends reading (ntfs_error _) => apply appends_emit; exact I
  | |- appends reading (IOFree _ _) => apply appends_emit; exact I
  | |- appends reading (ntfs_page_unmap _) => apply appends_emit; exact I
  | |- appends reading (ntfs_page_map _ _) => apply appends_ntfs_page_map
  | |- appends reading (IOMalloc _ _) => apply appends_IOMalloc
  | |- appends reading (ntfs_mst_fixup_post_read _ _ _) =>
    apply appends_ntfs_mst_fixup_post_read
  | |- appends reading (match ?x with _ => _ end) => destruct x
  end.

Lemma reading_load_remaining (h : host) (fuel : nat) :
  forall (trp : kbuf) (pos size have_read to_read : Z),
    appends reading (load_remaining h fuel trp pos size have_read to_read).
Proof.
  induction fuel as [|fuel IH]; intros trp pos size have_read to_read.
  - apply appends_out_of_fuel.
  - cbn [load_remaining]. cbv zeta. repeat reading_step. apply IH.
Qed.

Lemma reading_ntfs_restart_page_load (h : host) (rp : buffer) (pos : Z) (wrp lsn : bool) :
  appends reading (ntfs_restart_page_load h rp pos wrp lsn).
Proof.
  unfold ntfs_restart_page_load. cbv zeta.
  repeat (reading_step || apply reading_load_remaining).
Qed.

Lemma reading_scan (h : host) (size : Z) (fuel : nat) :
  forall st : scan_state, appends reading (scan h fuel size st).
Proof.
  induction fuel as [|fuel IH]; intros st.
  - apply appends_out_of_fuel.
  - cbn [scan]. cbv zeta. unfold scan_map.
    repeat (reading_step || apply reading_ntfs_restart_page_load || apply IH).
Qed.

(** The scan leaves the flag as it is. *)
Lemma scan_keeps_flag (h : host) (size : Z) (fuel : nat) (s : state) (x : scan_exit)
      (s1 : state) :
  scan h fuel size scan_start (scan_entry s) = Ok x s1 ->
  LogFileEmpty s1 = LogFileEmpty s.
Proof.
  intros H. destruct (keeps_scan h size fuel scan_start _ _ _ H) as (Hf & _). exact Hf.
Qed.

(** X11.  What [ntfs_logfile_check] hands over in [*rp] tells whether the
    journal is marked empty.  A restart page is handed over only with the
    return value 0 and only when [rp] was given, and the journal is not
    marked empty then; when 0 is returned, [rp] was given and no restart
    page is handed over, the journal is marked empty. *)
Theorem logfile_check_page_or_empty :
  forall (h : host) (rp : bool) (s : state) (err : Z) (p : option kbuf) (s' : state),
    ntfs_logfile_check h rp s = Ok (err, p) s' ->
    (p <> None -> err = 0 /\ rp = true /\ NVolLogFileEmpty s' = false)
    /\ (err = 0 -> rp = true -> p = None -> NVolLogFileEmpty s' = true).
Proof.
  intros h rp s err p s' H. unfold NVolLogFileEmpty.
  destruct (check_cases h rp s _ s' H)
    as [(He & Hr & ->)|[(He & Hv & Hr & ->)|[(He & Hv & Hs & Hr & ->)
                                            |(He & Hv & Hs & x & s1 & Hscan & _ & Hleft)]]].
  - inversion Hr; subst. split; [intros Hp; contradiction Hp; reflexivity|auto].
  - inversion Hr; subst. split; [intros Hp; contradiction Hp; reflexivity|].
    intros H0. exfalso. destruct (vnode_get_result h s =? EINVAL); [discriminate H0|].
    contradiction.
  - inversion Hr; subst. split; [intros Hp; contradiction Hp; reflexivity|].
    intros H0. discriminate H0.
  - revert Hscan. generalize scan_fuel. intros fuel Hscan.
    pose proof (scan_keeps_flag h _ _ _ _ _ Hscan) as Hflag.
    destruct (scan_leaves h _ _ _ _ _ Hscan) as (own & n & Hl).
    destruct x as [st|e st]; cbn [left_scan scan_left] in Hleft, Hl.
    + destruct Hleft as (_ & Hleft). destruct (logfile_is_empty st).
      * destruct Hleft as (Hr & Hf & _). inversion Hr; subst.
        split; [intros Hp; contradiction Hp; reflexivity|auto].
      * destruct Hleft as (Hf & Hr). rewrite Hf, Hflag.
        destruct (rstr1_ph st) as [p1|]; inversion Hr; subst.
        -- destruct rp.
           ++ split; [auto|]. intros _ _ Hn. discriminate Hn.
           ++ split; [intros Hp; contradiction Hp; reflexivity|]. intros _ Hn. discriminate Hn.
        -- split; [intros Hp; contradiction Hp; reflexivity|]. intros H0. discriminate H0.
    + destruct Hleft as (Hr & _). inversion Hr; subst.
      split; [intros Hp; contradiction Hp; reflexivity|].
      intros H0. exfalso. destruct Hl as (_ & _ & _ & [Hl|Hl]); rewrite H0 in Hl;
        discriminate Hl.
Qed.

(** A journal with two restart pages gives a page and is not marked empty;
    a journal whose blocks all read as 0xff gives none and is marked
    empty. *)
Lemma logfile_check_page_or_empty_witness :
  (exists s' : state,
      ntfs_logfile_check quiet_host true (journal (rstr_page 100 0) (rstr_page 105 0))
      = Ok (0, Some {| addr := 1; contents := rstr_page 105 0 |}) s'
      /\ NVolLogFileEmpty s' = false)
  /\ (exists s' : state,
         ntfs_logfile_check blank_host true (journal [] []) = Ok (0, None) s'
         /\ NVolLogFileEmpty s' = true).
Proof.
  split.
  - destruct (ntfs_logfile_check quiet_host true (journal (rstr_page 100 0) (rstr_page 105 0)))
      as [[err p] s'| |] eqn:E.
    + pose proof (logfile_check_page_or_empty _ _ _ _ _ _ E) as (H & _).
      vm_compute in E. inversion E; subst err p s'. clear E.
      eexists. split; [reflexivity|]. apply H. discriminate.
    + vm_compute in E. discriminate E.
    + vm_compute in E. discriminate E.
  - destruct (ntfs_logfile_check blank_host true (journal [] [])) as [[err p] s'| |] eqn:E.
    + pose proof (logfile_check_page_or_empty _ _ _ _ _ _ E) as (_ & H).
      vm_compute in E. inversion E; subst err p s'. clear E.
      eexists. split; [reflexivity|]. apply H; reflexivity.
    + vm_compute in E. discriminate E.
    + vm_compute in E. discriminate E.
Defined.

(** X12.  [ntfs_logfile_check] keeps EINVAL for a journal that is
    inconsistent.  It returns EINVAL only when the journal is not marked
    empty, [vnode_get] has succeeded, and either the journal is too small or
    the scan has come to its end without a restart page in a journal that
    is not empty: an EINVAL of [vnode_get] is returned as EIO, and a
    failure to read is returned as EIO or ENOMEM. *)
Theorem logfile_check_einval :
  forall (h : host) (rp : bool) (s : state) (p : option kbuf) (s' : state),
    ntfs_logfile_check h rp s = Ok (EINVAL, p) s' ->
    NVolLogFileEmpty s = false
    /\ vnode_get_result h s = 0
    /\ p = None
    /\ (logfile_too_small h s = true
        \/ exists (st : scan_state) (s1 : state),
            scan h scan_fuel (logfile_size h s) scan_start (scan_entry s)
            = Ok (Scanned st) s1
            /\ logfile_is_empty st = false
            /\ rstr1_ph st = None /\ rstr2_ph st = None).
Proof.
  intros h rp s p s' H.
  destruct (check_cases h rp s _ s' H)
    as [(He & Hr & ->)|[(He & Hv & Hr & ->)|[(He & Hv & Hs & Hr & ->)
                                            |(He & Hv & Hs & x & s1 & Hscan & Hnone & Hleft)]]].
  - discriminate Hr.
  - exfalso. inversion Hr as [[Hc Hp]].
    destruct (Z.eqb_spec (vnode_get_result h s) EINVAL) as [E|E];
      [discriminate Hc|congruence].
  - inversion Hr; subst. auto.
  - split; [exact He|]. split; [exact Hv|].
    revert Hscan. generalize scan_fuel. intros fuel Hscan.
    destruct (scan_leaves h _ _ _ _ _ Hscan) as (own & n & Hl).
    destruct x as [st|e st]; cbn [left_scan scan_left] in Hleft, Hl, Hnone.
    + destruct Hleft as (_ & Hleft). destruct (logfile_is_empty st) eqn:Ee.
      * destruct Hleft as (Hr & _). discriminate Hr.
      * destruct Hleft as (_ & Hr). destruct (rstr1_ph st) as [p1|] eqn:E1.
        -- discriminate Hr.
        -- inversion Hr; subst. split; [reflexivity|]. right. exists st, s1.
           split; [exact Hscan|]. split; [exact Ee|]. split; [exact E1|].
           apply Hnone. reflexivity.
    + exfalso. destruct Hleft as (Hr & _). inversion Hr; subst.
      destruct Hl as (_ & _ & _ & [Hl|Hl]); discriminate Hl.
Qed.

(** A journal of zeros has blocks that are not empty and no restart page:
    EINVAL.  An EINVAL of [vnode_get] comes back as EIO. *)
Lemma logfile_check_einval_witness :
  (exists s' : state,
      ntfs_logfile_check quiet_host true (journal [] []) = Ok (EINVAL, None) s'
      /\ logfile_too_small quiet_host (journal [] []) = false)
  /\ (exists s' : state,
         ntfs_logfile_check stale_vnode_host true (journal [] []) = Ok (EIO, None) s').
Proof.
  split.
  - destruct (ntfs_logfile_check quiet_host true (journal [] [])) as [[err p] s'| |] eqn:E.
    + assert (He : err = EINVAL) by (vm_compute in E; inversion E; reflexivity).
      subst err.
      pose proof (logfile_check_einval _ _ _ _ _ E) as (_ & _ & -> & _).
      exists s'. split; [reflexivity|]. vm_compute. reflexivity.
    + vm_compute in E. discriminate E.
    + vm_compute in E. discriminate E.
  - eexists. vm_compute. reflexivity.
Defined.



(** X14.  After an [ntfs_logfile_check] that was given [rp] and has
    returned 0, [ntfs_logfile_is_clean] can be called with what [*rp]
    holds: it returns, and does not panic on a NULL page, for [*rp] is NULL
    only when the journal is marked empty, and the answer is TRUE then. *)
Theorem clean_test_after_check :
  forall (h : host) (s : state) (p : option kbuf) (s' : state),
    ntfs_logfile_check h true s = Ok (0, p) s' ->
    (exists (b : bool) (s'' : state),
        ntfs_logfile_is_clean (option_map contents p) s' = Ok b s'')
    /\ (p = None -> ntfs_logfile_is_clean None s' = Ok true s').
Proof.
  intros h s p s' H.
  assert (Hnone : p = None -> NVolLogFileEmpty s' = true).
  { intros ->. unfold NVolLogFileEmpty.
    destruct (check_cases h true s _ s' H)
      as [(He & Hr & ->)|[(He & Hv & Hr & ->)|[(He & Hv & Hs & Hr & ->)
                                              |(He & Hv & Hs & x & s1 & Hscan & _ & Hleft)]]].
    - exact He.
    - exfalso. inversion Hr as [Hc].
      destruct (vnode_get_result h s =? EINVAL); [discriminate Hc|]. congruence.
    - discriminate Hr.
    - revert Hscan. generalize scan_fuel. intros fuel Hscan.
      destruct (scan_leaves h _ _ _ _ _ Hscan) as (own & n & Hl).
      destruct x as [st|e st]; cbn [left_scan scan_left] in Hleft, Hl.
      + destruct Hleft as (_ & Hleft). destruct (logfile_is_empty st).
        * apply (proj1 (proj2 Hleft)).
        * destruct Hleft as (_ & Hr). destruct (rstr1_ph st); discriminate Hr.
      + exfalso. destruct Hleft as (Hr & _). inversion Hr; subst.
        destruct Hl as (_ & _ & _ & [Hl|Hl]); discriminate Hl. }
  split.
  - unfold ntfs_logfile_is_clean. destruct (NVolLogFileEmpty s') eqn:Ef.
    + exists true, s'. reflexivity.
    + destruct p as [b|]; [|specialize (Hnone eq_refl); discriminate Hnone].
      cbn [option_map]. run_calls.
      destruct (negb (ntfs_is_rstr_record (RESTART_PAGE_HEADER.magic (contents b)))
                && negb (ntfs_is_chkd_record (RESTART_PAGE_HEADER.magic (contents b)))).
      * eexists. eexists. reflexivity.
      * match goal with
        | |- context [if ?c then _ else _] => destruct c
        end; eexists; eexists; reflexivity.
  - intros Hp. unfold ntfs_logfile_is_clean. rewrite (Hnone Hp). reflexivity.
Qed.

Lemma clean_test_after_check_witness :
  (exists (p : kbuf) (s' : state),
      ntfs_logfile_check quiet_host true (journal (rstr_page 100 0) (rstr_page 105 0))
      = Ok (0, Some p) s'
      /\ ntfs_logfile_is_clean (Some (contents p)) s' = Ok false s')
  /\ (exists s' : state,
         ntfs_logfile_check blank_host true (journal [] []) = Ok (0, None) s'
         /\ ntfs_logfile_is_clean None s' = Ok true s').
Proof.
  split.
  - eexists. eexists. split; vm_compute; reflexivity.
  - destruct (ntfs_logfile_check blank_host true (journal [] [])) as [[err p] s'| |] eqn:E.
    + assert (He : err = 0 /\ p = None) by (vm_compute in E; inversion E; auto).
      destruct He as [-> ->].
      pose proof (clean_test_after_check _ _ _ _ E) as (_ & H).
      exists s'. split; [reflexivity|]. apply H. reflexivity.
    + vm_compute in E. discriminate E.
    + vm_compute in E. discriminate E.
Defined.

(** * The panics are not reached *)

Lemma safe_ret {A : Type} (a : A) : safe (ret a).
Proof. intros s msg. discriminate. Qed.

Lemma safe_emit (e : event) : safe (emit e).
Proof. intros s msg. discriminate. Qed.

Lemma safe_out_of_fuel {A : Type} : safe (@out_of_fuel A).
Proof. intros s msg. discriminate. Qed.

Lemma safe_bind {A B : Type} (Q : A -> Prop) (m : M A) (k : A -> M B) :
  safe m ->
  (forall s a s', m s = Ok a s' -> Q a) ->
  (forall a, Q a -> safe (k a)) ->
  safe (bind m k).
Proof.
  intros Hm HQ Hk s msg. unfold bind. destruct (m s) as [a s'|msg'|] eqn:E.
  - apply (Hk a (HQ _ _ _ E)).
  - exfalso. apply (Hm s msg' E).
  - discriminate.
Qed.

Lemma safe_then {A B : Type} (m : M A) (k : A -> M B) :
  safe m -> (forall a, safe (k a)) -> safe (bind m k).
Proof. intros Hm Hk. apply (safe_bind (fun _ => True)); auto. Qed.

Lemma safe_ntfs_page_map (h : host) (pos : Z) : safe (ntfs_page_map h pos).
Proof. intros s msg. discriminate. Qed.

Lemma safe_IOMalloc (h : host) (size : Z) : safe (IOMalloc h size).
Proof.
  intros s msg. unfold IOMalloc. destruct (IOMalloc_succeeds h s size); discriminate.
Qed.

Lemma safe_ntfs_mst_fixup_post_read (h : host) (b : kbuf) (size : Z) :
  safe (ntfs_mst_fixup_post_read h b size).
Proof. intros s msg. discriminate. Qed.

Ltac safe_step :=
  match goal with
  | |- safe (bind _ _) => apply safe_then; [|intros ?]
  | |- safe (ret _) => apply safe_ret
  | |- safe out_of_fuel => apply safe_out_of_fuel
  | |- safe (emit _) => apply safe_emit
  | |- safe (ntfs_error _) => apply safe_emit
  | |- safe (IOFree _ _) => apply safe_emit
  | |- safe (ntfs_page_unmap _) => apply safe_emit
  | |- safe vnode_put => apply safe_emit
  | |- safe lck_rw_lock_shared => apply safe_emit
  | |- safe lck_rw_unlock_shared => apply safe_emit
  | |- safe NVolSetLogFileEmpty => intros ? ?; discriminate
  | |- safe (vnode_get _) => intros ? ?; discriminate
  | |- safe (ntfs_page_map _ _) => apply safe_ntfs_page_map
  | |- safe (IOMalloc _ _) => apply safe_IOMalloc
  | |- safe (ntfs_mst_fixup_post_read _ _ _) => apply safe_ntfs_mst_fixup_post_read
  | |- safe (match ?x with _ => _ end) => destruct x
  end.

(** The test [(unsigned)pos & PAGE_MASK] is the remainder of [pos] by the
    page size. *)
Lemma page_offset (h : host) (x : Z) :
  0 <= PAGE_SHIFT h <= 32 -> Z.land (u32 x) (PAGE_MASK h) = x mod PAGE_SIZE h.
Proof.
  intros Hk. unfold PAGE_MASK, PAGE_SIZE, u32.
  replace (2 ^ PAGE_SHIFT h - 1) with (Z.ones (PAGE_SHIFT h))
    by (rewrite Z.ones_equiv; lia).
  rewrite Z.land_ones by lia. apply Z.mod_mod_divide.
  exists (2 ^ (32 - PAGE_SHIFT h)). rewrite <- Z.pow_add_r by lia. f_equal. lia.
Qed.

(** The copy loop goes from one page boundary to the next. *)
Lemma safe_load_remaining (h : host) (fuel : nat) :
  0 <= PAGE_SHIFT h <= 32 ->
  forall (trp : kbuf) (pos size have_read to_read : Z),
    (pos + size) mod PAGE_SIZE h = 0 ->
    safe (load_remaining h fuel trp pos size have_read to_read).
Proof.
  intros Hk. pose proof (PAGE_SIZE_pos h (proj1 Hk)) as HP.
  induction fuel as [|fuel IH]; intros trp pos size have_read to_read Ha.
  - apply safe_out_of_fuel.
  - cbn [load_remaining]. cbv zeta. rewrite page_offset by exact Hk. rewrite Ha.
    cbn [Z.eqb negb].
    apply safe_then; [apply safe_ntfs_page_map|]. intros [err|kaddr].
    + repeat safe_step.
    + apply safe_then; [apply safe_emit|]. intros _.
      destruct (Z.gtb_spec (PAGE_SIZE h) to_read) as [Hgt|Hle].
      * replace (u32 (to_read - to_read)) with 0 by (rewrite Z.sub_diag; reflexivity).
        apply safe_ret.
      * destruct (u32 (to_read - PAGE_SIZE h) >? 0); [|apply safe_ret].
        apply IH. rewrite <- (Z.mul_1_l (PAGE_SIZE h)) at 1.
        rewrite Z_mod_plus_full. exact Ha.
Qed.

(** The first copy ends on a page boundary. *)
Lemma first_copy_aligned (h : host) (pos : Z) :
  0 <= PAGE_SHIFT h <= 31 ->
  (pos + u32 (PAGE_SIZE h - Z.land (u32 pos) (PAGE_MASK h))) mod PAGE_SIZE h = 0.
Proof.
  intros Hk. pose proof (PAGE_SIZE_pos h (proj1 Hk)) as HP.
  rewrite page_offset by lia.
  pose proof (Z.mod_pos_bound pos (PAGE_SIZE h) HP) as Hm.
  assert (Hle : PAGE_SIZE h <= 2 ^ 31)
    by (unfold PAGE_SIZE; apply Z.pow_le_mono_r; lia).
  change (2 ^ 31) with 2147483648 in Hle.
  assert (Hu : u32 (PAGE_SIZE h - pos mod PAGE_SIZE h) = PAGE_SIZE h - pos mod PAGE_SIZE h)
    by (unfold u32; apply Z.mod_small; change (2 ^ 32) with 4294967296; lia).
  rewrite Hu.
  replace (pos + (PAGE_SIZE h - pos mod PAGE_SIZE h))
    with (pos - pos mod PAGE_SIZE h + 1 * PAGE_SIZE h) by lia.
  rewrite Z_mod_plus_full, Zminus_mod_idemp_r, Z.sub_diag. apply Z.mod_0_l. lia.
Qed.

Lemma safe_ntfs_restart_page_load (h : host) (rp : buffer) (pos : Z) (wrp lsn : bool) :
  0 <= PAGE_SHIFT h <= 31 -> safe (ntfs_restart_page_load h rp pos wrp lsn).
Proof.
  intros Hk. unfold ntfs_restart_page_load. cbv zeta.
  destruct (ntfs_restart_page_header_is_valid rp pos); [|repeat safe_step].
  destruct (ntfs_restart_area_is_valid rp); [|repeat safe_step].
  apply safe_then; [apply safe_IOMalloc|]. intros [trp|]; [|repeat safe_step].
  apply safe_then; [|intros [[err|] trp']; repeat safe_step].
  match goal with
  | |- context [if ?c then ret _ else _] => destruct c
  end; [apply safe_ret|].
  apply safe_load_remaining; [lia|]. apply first_copy_aligned. exact Hk.
Qed.



Lemma safe_scan (h : host) (size : Z) (fuel : nat) :
  0 <= PAGE_SHIFT h <= 31 ->
  forall st : scan_state, safe (scan h fuel size st).
Proof.
  intros Hk. induction fuel as [|fuel IH]; intros st.
  - apply safe_out_of_fuel.
  - cbn [scan]. cbv zeta. unfold scan_map.
    repeat (safe_step || apply safe_ntfs_restart_page_load || apply IH); exact Hk.
Qed.

Lemma safe_ntfs_logfile_check (h : host) (rp : bool) :
  0 <= PAGE_SHIFT h <= 31 -> safe (ntfs_logfile_check h rp).
Proof.
  intros Hk s. unfold ntfs_logfile_check. generalize scan_fuel. intros fuel.
  match goal with
  | |- forall msg, ?m s <> _ => assert (Hm : safe m); [|exact (Hm s)]
  end.
  cbv zeta.
  destruct (NVolLogFileEmpty s); [apply safe_ret|].
  apply safe_then; [intros ? ?; discriminate|]. intros err.
  destruct (negb (err =? 0)); [repeat safe_step|].
  apply safe_then; [apply safe_emit|]. intros _.
  destruct (logfile_too_small h s); [repeat safe_step|].
  apply (safe_bind (fun x => exists own n, scan_left x own n));
    [apply safe_scan; exact Hk|intros s1 x s2; apply scan_leaves|].
  intros [st|e st] (own & n & Hl); cbn [scan_left] in Hl; [|repeat safe_step].
  destruct Hl as (_ & _ & Hboth & _).
  apply safe_then; [repeat safe_step|]. intros _.
  apply safe_then; [apply safe_emit|]. intros _.
  apply safe_then; [apply safe_emit|]. intros _.
  destruct (logfile_is_empty st); [repeat safe_step|].
  destruct (rstr1_ph st) as [p1|]; [repeat safe_step|].
  destruct (rstr2_ph st) as [p2|]; [|repeat safe_step].
  exfalso. apply Hboth; [discriminate|reflexivity].
Qed.



(** * Pages are mapped at page boundaries *)

Lemma appends_bind_with {A B : Type} (P : event -> Prop) (Q : A -> Prop)
      (m : M A) (k : A -> M B) :
  appends P m ->
  (forall s a s', m s = Ok a s' -> Q a) ->
  (forall a, Q a -> appends P (k a)) ->
  appends P (bind m k).
Proof.
  intros Hm HQ Hk s b s' H. apply bind_Ok_inv in H. destruct H as (a & s1 & H1 & H2).
  destruct (Hm _ _ _ H1) as (n1 & E1 & F1).
  destruct (Hk a (HQ _ _ _ H1) _ _ _ H2) as (n2 & E2 & F2).
  exists (n2 ++ n1). split; [rewrite E2, E1; apply app_assoc|].
  apply Forall_app. auto.
Qed.

Section AlignedMaps.
Variable h : host.
Hypothesis page_shift : 0 <= PAGE_SHIFT h <= 32.

Lemma aligned_ntfs_page_map (p : Z) :
  p mod PAGE_SIZE h = 0 -> appends (aligned_map h) (ntfs_page_map h p).
Proof.
  intros Hp s a s' H. inversion H; subst. exists [ntfs_page_map_call p].
  split; [reflexivity|]. constructor; [exact Hp|constructor].
Qed.

Lemma aligned_IOMalloc (size : Z) : appends (aligned_map h) (IOMalloc h size).
Proof.
  intros s a s' H. unfold IOMalloc in H.
  destruct (IOMalloc_succeeds h s size); inversion H; subst.
  - exists [IOMalloc_call (next_alloc s) size]. split; [reflexivity|repeat constructor].
  - exists []. split; [reflexivity|constructor].
Qed.

Lemma aligned_ntfs_mst_fixup_post_read (b : kbuf) (size : Z) :
  appends (aligned_map h) (ntfs_mst_fixup_post_read h b size).
Proof.
  intros s a s' H. inversion H; subst. exists [ntfs_mst_fixup_post_read_call (addr b) size].
  split; [reflexivity|repeat constructor].
Qed.

Ltac aligned_step :=
  match goal with
  | |- appends (aligned_map h) (bind _ _) => apply appends_bind; [|intros ?]
  | |- appends (aligned_map h) (ret _) => apply appends_ret
  | |- appends (aligned_map h) (panic _) => apply appends_panic
  | |- appends (aligned_map h) out_of_fuel => apply appends_out_of_fuel
  | |- appends (aligned_map h) (ntfs_error _) => apply appends_emit; exact I
  | |- appends (aligned_map h) (IOFree _ _) => apply appends_emit; exact I
  | |- appends (aligned_map h) (ntfs_page_unmap _) => apply appends_emit; exact I
  | |- appends (aligned_map h) (IOMalloc _ _) => apply aligned_IOMalloc
  | |- appends (aligned_map h) (ntfs_mst_fixup_post_read _ _ _) =>
    apply aligned_ntfs_mst_fixup_post_read
  | |- appends (aligned_map h) (match ?x with _ => _ end) => destruct x
  end.

(** The copy loop maps a page only after the test that guards its
    panic. *)
Lemma aligned_load_remaining (fuel : nat) :
  forall (trp : kbuf) (pos size have_read to_read : Z),
    appends (aligned_map h) (load_remaining h fuel trp pos size have_read to_read).
Proof.
  induction fuel as [|fuel IH]; intros trp pos size have_read to_read.
  - apply appends_out_of_fuel.
  - cbn [load_remaining]. cbv zeta. rewrite page_offset by exact page_shift.
    destruct (Z.eqb_spec ((pos + size) mod PAGE_SIZE h) 0) as [E|E]; cbn [negb];
      [|apply appends_panic].
    apply appends_bind; [apply aligned_ntfs_page_map; exact E|].
    intros r. repeat aligned_step. apply IH.
Qed.

Lemma aligned_ntfs_restart_page_load (rp : buffer) (pos : Z) (wrp lsn : bool) :
  appends (aligned_map h) (ntfs_restart_page_load h rp pos wrp lsn).
Proof.
  unfold ntfs_restart_page_load. cbv zeta.
  repeat (aligned_step || apply aligned_load_remaining).
Qed.

(** A position of the scan that is not on a page boundary lies in the
    first page. *)
Lemma scan_position_in_first_page (st : scan_state) :
  scan_position h st -> pos st mod PAGE_SIZE h <> 0 ->
  0 <= pos st < PAGE_SIZE h /\ ppos st = 0.
Proof.
  intros (_ & Hpp & Hal & Hpos) Hn.
  pose proof (PAGE_SIZE_pos h (proj1 page_shift)) as HP.
  assert (Hlt : pos st < PAGE_SIZE h).
  { destruct Hpos as [E|(j & Hj & E)]; [rewrite E in Hn; rewrite Z.mod_0_l in Hn; lia|].
    destruct (Z.lt_ge_cases j (PAGE_SHIFT h)) as [Hlt|Hge].
    - rewrite E. unfold PAGE_SIZE. apply Z.pow_lt_mono_r; lia.
    - exfalso. apply Hn. rewrite E. unfold PAGE_SIZE.
      replace j with ((j - PAGE_SHIFT h) + PAGE_SHIFT h) by lia.
      rewrite Z.pow_add_r by lia. apply Z_mod_mult. }
  split; [lia|].
  rewrite <- (Z.mod_small (ppos st) (PAGE_SIZE h)) by lia. exact Hal.
Qed.

Lemma aligned_scan_map (st : scan_state) :
  scan_position h st -> appends (aligned_map h) (scan_map h st).
Proof.
  intros Hst. pose proof (PAGE_SIZE_pos h (proj1 page_shift)) as HP.
  unfold scan_map. destruct (upl st) as [[mapped paddr]|] eqn:Eu.
  - destruct (Z.eqb_spec (Z.land (pos st) (Z.lnot (PAGE_MASK_64 h))) (ppos st)) as [E|E];
      cbn [negb]; [apply appends_ret|].
    apply appends_bind; [apply appends_emit; exact I|]. intros _.
    apply appends_bind; [|intros r; repeat aligned_step].
    apply aligned_ntfs_page_map.
    destruct (Z.eq_dec (pos st mod PAGE_SIZE h) 0) as [Hz|Hnz]; [exact Hz|exfalso].
    destruct (scan_position_in_first_page st Hst Hnz) as (Hlt & Hpp).
    apply E. unfold PAGE_MASK_64, PAGE_SIZE.
    rewrite land_lnot_pow2 by lia. fold (PAGE_SIZE h).
    rewrite Z.div_small by exact Hlt. lia.
  - destruct Hst as (Hnone & _). rewrite (Hnone Eu).
    apply appends_bind; [|intros r; repeat aligned_step].
    apply aligned_ntfs_page_map. apply Z.mod_0_l. lia.
Qed.

(** After the first statement of the loop body a page is mapped, and it is
    the one the position lies in. *)
Lemma scan_map_position (st : scan_state) (s s' : state) (st1 : scan_state) :
  scan_position h st ->
  scan_map h st s = Ok (inr st1) s' ->
  scan_position h st1 /\ upl st1 <> None /\ pos st1 = pos st.
Proof.
  intros Hst H. pose proof (PAGE_SIZE_pos h (proj1 page_shift)) as HP.
  assert (Hnew : pos st mod PAGE_SIZE h = 0 ->
                 forall paddr' : buffer,
                   scan_position h
                     {| pos := pos st; ppos := pos st; upl := Some (pos st, paddr');
                        logfile_is_empty := logfile_is_empty st;
                        rstr1_ph := rstr1_ph st; rstr2_ph := rstr2_ph st;
                        rstr1_lsn := rstr1_lsn st; rstr2_lsn := rstr2_lsn st |}).
  { intros Hal paddr'. destruct Hst as (_ & Hpp & _ & Hpos). unfold scan_position.
    cbn [pos ppos upl]. split; [discriminate|]. split; [lia|]. auto. }
  unfold scan_map in H. destruct (upl st) as [[mapped paddr]|] eqn:Eu.
  - destruct (Z.eqb_spec (Z.land (pos st) (Z.lnot (PAGE_MASK_64 h))) (ppos st)) as [E|E];
      cbn [negb] in H.
    + inversion H; subst st1. split; [exact Hst|]. split; [rewrite Eu; discriminate|reflexivity].
    + revert H. run_calls.
      destruct (ntfs_page_map_result h _ (pos st)) as [err|paddr']; intros H;
        inversion H; subst st1.
      split; [|split; [discriminate|reflexivity]]. apply Hnew.
      destruct (Z.eq_dec (pos st mod PAGE_SIZE h) 0) as [Hz|Hnz]; [exact Hz|exfalso].
      destruct (scan_position_in_first_page st Hst Hnz) as (Hlt & Hpp).
      apply E. unfold PAGE_MASK_64, PAGE_SIZE.
      rewrite land_lnot_pow2 by lia. fold (PAGE_SIZE h).
      rewrite Z.div_small by exact Hlt. lia.
  - revert H. run_calls.
    destruct (ntfs_page_map_result h _ (pos st)) as [err|paddr']; intros H;
      inversion H; subst st1.
    split; [|split; [discriminate|reflexivity]]. apply Hnew.
    destruct Hst as (Hnone & _). rewrite (Hnone Eu). apply Z.mod_0_l. lia.
Qed.

Lemma aligned_scan (size : Z) (fuel : nat) :
  forall st : scan_state,
    scan_position h st -> appends (aligned_map h) (scan h fuel size st).
Proof.
  induction fuel as [|fuel IH]; intros st Hst.
  - apply appends_out_of_fuel.
  - cbn [scan]. cbv zeta.
    destruct (negb (pos st <? size)); [apply appends_ret|].
    apply (appends_bind_with _ (fun r => match r with
                                         | inl _ => True
                                         | inr st1 =>
                                           upl st1 <> None /\ scan_position h st1
                                         end)); [apply aligned_scan_map; exact Hst| |].
    { intros s r s' H. destruct r as [e|st1]; [exact I|].
      destruct (scan_map_position st s s' st1 Hst H) as (H1 & H2 & H3). auto. }
    intros [e|st1] Hst1; [repeat aligned_step|].
    destruct Hst1 as (Hu & Hst1).
    (* what every [continue] needs *)
    assert (Hnext1 : forall st' : scan_state,
               pos st' = pos st1 -> ppos st' = ppos st1 -> upl st' = upl st1 ->
               appends (aligned_map h)
                       (scan h fuel size
                             (set_pos (half_block_if_zero st')
                                      (Z.shiftl (pos (half_block_if_zero st')) 1)))).
    { intros st' Hp' Hpp' Hu'. apply IH.
      destruct Hst1 as (_ & Hle & Hal & Hpos). unfold scan_position, half_block_if_zero.
      rewrite Hp'. destruct (Z.eqb_spec (pos st1) 0) as [E|E];
        cbn [set_pos pos ppos upl]; rewrite ?Hp', ?Hpp', ?Hu', Z.shiftl_mul_pow2 by lia.
      - split; [intros Hn; contradiction|].
        split; [change (NTFS_BLOCK_SIZE / 2 * 2 ^ 1) with 512; lia|].
        split; [exact Hal|]. right. exists 9. split; [lia|reflexivity].
      - split; [intros Hn; contradiction|]. split; [lia|]. split; [exact Hal|].
        right. destruct Hpos as [E0|(j & Hj & Ej)]; [contradiction|].
        exists (j + 1). split; [lia|]. rewrite Ej, Z.pow_add_r by lia. reflexivity. }
    destruct (ntfs_is_empty_recordp _).
    { destruct (logfile_is_empty st1); [apply Hnext1; reflexivity|apply appends_ret]. }
    destruct (ntfs_is_rcrd_recordp _); [apply appends_ret|].
    destruct (negb (ntfs_is_rstr_recordp _) && negb (ntfs_is_chkd_recordp _));
      [apply Hnext1; reflexivity|].
    apply appends_bind; [apply aligned_ntfs_restart_page_load|].
    intros [[err w] lsn].
    destruct (err =? 0).
    { match goal with
      | |- context [if pos ?st2 =? 0 then _ else _] =>
        assert (H2 : pos st2 = pos st1 /\ ppos st2 = ppos st1 /\ upl st2 = upl st1)
          by (destruct (rstr1_ph st1); auto);
          destruct (pos st2 =? 0)
      end.
      - apply Hnext1; apply H2.
      - apply appends_ret. }
    destruct (negb (err =? EINVAL)); [repeat aligned_step|].
    apply Hnext1; destruct (rstr1_ph st1); reflexivity.
Qed.
End AlignedMaps.

Lemma scan_position_start (h : host) : scan_position h scan_start.
Proof.
  unfold scan_position, scan_start. cbn [pos ppos upl].
  split; [reflexivity|]. split; [lia|]. split; [apply Zmod_0_l|auto].
Qed.

Lemma closing_aligned (h : host) (l : list event) :
  Forall closing l -> Forall (aligned_map h) l.
Proof.
  apply Forall_impl. intros e He. destruct e; try contradiction; exact I.
Qed.

(** X17.  [ntfs_logfile_check] calls [ntfs_page_map] at page boundaries
    only, although its scan goes through the positions 0, 512, 1024, ...:
    the positions below the page size lie in the page that is mapped, and
    the ones from the page size on are multiples of it; and
    [ntfs_restart_page_load] maps a page only behind the test of its
    panic. *)
Theorem logfile_check_maps_page_aligned :
  forall (h : host) (rp : bool) (s : state) (r : Z * option kbuf) (s' : state),
    0 <= PAGE_SHIFT h <= 32 ->
    ntfs_logfile_check h rp s = Ok r s' ->
    exists new : list event,
      trace s' = new ++ trace s
      /\ forall p : Z, In (ntfs_page_map_call p) new -> p mod PAGE_SIZE h = 0.
Proof.
  intros h rp s r s' Hk H.
  assert (Hall : exists new : list event,
             trace s' = new ++ trace s /\ Forall (aligned_map h) new).
  { destruct (check_cases h rp s _ s' H)
      as [(He & Hr & ->)|[(He & Hv & Hr & ->)|[(He & Hv & Hs & Hr & ->)
                                              |(He & Hv & Hs & x & s1 & Hscan & _ & Hleft)]]].
    - exists []. split; [reflexivity|constructor].
    - eexists [_; _]. split; [reflexivity|repeat constructor].
    - eexists [_; _; _; _; _]. split; [reflexivity|repeat constructor].
    - revert Hscan. generalize scan_fuel. intros fuel Hscan.
      destruct (aligned_scan h Hk _ fuel scan_start (scan_position_start h) _ _ _ Hscan)
        as (mid & Hmid & Fmid).
      unfold scan_entry in Hmid. cbn [called trace] in Hmid.
      destruct x as [st|e st]; cbn [left_scan] in Hleft.
      + destruct Hleft as ((post & Hpost & Fpost) & _).
        exists (post ++ vnode_put_call :: lck_rw_unlock_shared_call
                     :: match upl st with
                        | Some (mapped, _) => [ntfs_page_unmap_call mapped]
                        | None => []
                        end ++ mid ++ [lck_rw_lock_shared_call; vnode_get_call]).
        split.
        * rewrite Hpost, Hmid. rewrite <- !app_assoc. cbn [app].
          rewrite <- !app_assoc. reflexivity.
        * apply Forall_app. split; [apply closing_aligned; exact Fpost|].
          repeat (constructor; [exact I|]).
          apply Forall_app. split; [destruct (upl st) as [[m b]|]; repeat constructor|].
          apply Forall_app. split; [exact Fmid|repeat constructor].
      + destruct Hleft as (_ & _ & post & Hpost & Fpost).
        exists (post ++ vnode_put_call :: lck_rw_unlock_shared_call
                     :: mid ++ [lck_rw_lock_shared_call; vnode_get_call]).
        split.
        * rewrite Hpost, Hmid. rewrite <- !app_assoc. cbn [app].
          rewrite <- !app_assoc. reflexivity.
        * apply Forall_app. split; [apply closing_aligned; exact Fpost|].
          repeat (constructor; [exact I|]).
          apply Forall_app. split; [exact Fmid|repeat constructor]. }
  destruct Hall as (new & Hnew & Fnew). exists new. split; [exact Hnew|].
  intros p Hp. rewrite Forall_forall in Fnew. exact (Fnew _ Hp).
Qed.

(** The two pages of the journal are mapped at 0 and at 4096; the blocks
    at 512, 1024 and 2048 are looked at in the first page. *)
Lemma logfile_check_maps_page_aligned_witness :
  0 <= PAGE_SHIFT quiet_host <= 32
  /\ exists s' : state,
      ntfs_logfile_check quiet_host true (journal (rstr_page 100 0) (rstr_page 105 0))
      = Ok (0, Some {| addr := 1; contents := rstr_page 105 0 |}) s'
      /\ In (ntfs_page_map_call 4096) (trace s')
      /\ forall p : Z, In (ntfs_page_map_call p) (trace s') -> p mod 4096 = 0.
Proof.
  assert (Hk : 0 <= PAGE_SHIFT quiet_host <= 32) by (cbn; lia).
  split; [exact Hk|].
  destruct (ntfs_logfile_check quiet_host true (journal (rstr_page 100 0) (rstr_page 105 0)))
    as [[err p] s'| |] eqn:E.
  - pose proof (logfile_check_maps_page_aligned _ _ _ _ _ Hk E) as (new & Hnew & Hal).
    cbn [journal trace] in Hnew. rewrite app_nil_r in Hnew. subst new.
    vm_compute in E. inversion E; subst err p s'. clear E.
    eexists. split; [reflexivity|]. split; [|exact Hal].
    cbn [trace]. repeat (first [left; reflexivity|right]).
  - vm_compute in E. discriminate E.
  - vm_compute in E. discriminate E.
Defined.

(** * The copies stay within the buffer *)

Lemma gives_ret {A : Type} (a : A) (Q : A -> Prop) : Q a -> gives (ret a) Q.
Proof. intros HQ s a' s' H. inversion H; subst. exact HQ. Qed.

Lemma gives_bind {A B : Type} (Q1 : A -> Prop) (m : M A) (k : A -> M B) (Q : B -> Prop) :
  gives m Q1 -> (forall a, Q1 a -> gives (k a) Q) -> gives (bind m k) Q.
Proof.
  intros Hm Hk s b s' H. apply bind_Ok_inv in H. destruct H as (a & s1 & H1 & H2).
  apply (Hk a (Hm _ _ _ H1) _ _ _ H2).
Qed.

Lemma gives_then {A B : Type} (m : M A) (k : A -> M B) (Q : B -> Prop) :
  (forall a, gives (k a) Q) -> gives (bind m k) Q.
Proof.
  intros Hk. apply (gives_bind (fun _ => True)); [intros s a s' _; exact I|].
  intros a _. apply Hk.
Qed.

Lemma gives_panic {A : Type} (msg : string) (Q : A -> Prop) : gives (panic msg) Q.
Proof. intros s a s' H. discriminate. Qed.

Lemma gives_out_of_fuel {A : Type} (Q : A -> Prop) : gives out_of_fuel Q.
Proof. intros s a s' H. discriminate. Qed.

Lemma take_length (n : nat) : forall src : buffer, List.length (take n src) = n.
Proof.
  induction n as [|n IH]; intros src; [reflexivity|].
  destruct src; cbn [take List.length]; rewrite IH; reflexivity.
Qed.

(** A copy that ends within the destination leaves its length as it is;
    one that ends past it makes it longer. *)
Lemma memcpy_length (dst : buffer) (off : Z) (src : buffer) (n : Z) :
  0 <= off -> 0 <= n ->
  (off + n <= Z.of_nat (List.length dst) ->
   List.length (memcpy dst off src n) = List.length dst)
  /\ (Z.of_nat (List.length dst) < off + n -> 0 < n ->
      (List.length dst < List.length (memcpy dst off src n))%nat).
Proof.
  intros Ho Hn. unfold memcpy.
  rewrite !length_app, take_length, length_firstn, length_skipn. split; intros; lia.
Qed.

Section CopiesInBounds.
Variable h : host.

(** The copy loop, with [to_read] bytes left to fill behind the
    [have_read] ones. *)
Lemma load_remaining_in_bounds (fuel : nat) :
  forall (trp : kbuf) (pos size have_read to_read : Z),
    0 <= have_read -> 0 < to_read ->
    have_read + to_read = Z.of_nat (List.length (contents trp)) ->
    have_read + to_read < 2 ^ 32 ->
    gives (load_remaining h fuel trp pos size have_read to_read)
          (fun r => List.length (contents (snd r)) = List.length (contents trp)).
Proof.
  induction fuel as [|fuel IH]; intros trp pos size have_read to_read Hh Ht Hlen Hlt.
  - apply gives_out_of_fuel.
  - cbn [load_remaining]. cbv zeta.
    destruct (negb (Z.land (u32 (pos + size)) (PAGE_MASK h) =? 0)); [apply gives_panic|].
    apply gives_then. intros [err|kaddr].
    + apply gives_then. intros _. apply gives_ret. reflexivity.
    + apply gives_then. intros _.
      assert (HP : 0 <= PAGE_SIZE h) by (unfold PAGE_SIZE; apply Z.pow_nonneg; lia).
      set (n := if PAGE_SIZE h >? to_read then to_read else PAGE_SIZE h).
      assert (Hn : 0 <= n <= to_read)
        by (subst n; destruct (Z.gtb_spec (PAGE_SIZE h) to_read); lia).
      assert (Hcopy : List.length (memcpy (contents trp) have_read kaddr n)
                      = List.length (contents trp))
        by (apply memcpy_length; lia).
      assert (Hu1 : u32 (have_read + n) = have_read + n)
        by (unfold u32; apply Z.mod_small; lia).
      assert (Hu2 : u32 (to_read - n) = to_read - n)
        by (unfold u32; apply Z.mod_small; lia).
      rewrite Hu1, Hu2.
      destruct (Z.gtb_spec (to_read - n) 0) as [Hmore|Hdone].
      * intros s r s' H. rewrite <- Hcopy.
        refine (IH _ _ _ _ _ _ _ _ _ s r s' H); cbn [contents]; rewrite ?Hcopy; lia.
      * apply gives_ret. cbn [snd contents]. exact Hcopy.
Qed.
End CopiesInBounds.

(** X18.  Every copy of [ntfs_restart_page_load] stays within the buffer
    that it has allocated: with a fixup that leaves the length of the
    buffer as it is, the buffer handed over in [*wrp] has exactly
    [system_page_size] bytes, where a copy that ended past the end of the
    buffer would have made it longer. *)
Theorem restart_page_load_copies_in_bounds :
  forall (h : host) (rp : buffer) (pos : Z) (wrp lsn : bool)
         (s : state) (err : Z) (p : kbuf) (l : option Z) (s' : state),
    (forall (b : buffer) (size : Z),
        List.length (snd (ntfs_mst_fixup_post_read_result h b size)) = List.length b) ->
    ntfs_restart_page_load h rp pos wrp lsn s = Ok (err, Some p, l) s' ->
    Z.of_nat (List.length (contents p)) = RESTART_PAGE_HEADER.system_page_size rp.
Proof.
  intros h rp pos wrp lsn s err p l s' Hfix H.
  pose proof (le32_at_range rp 16) as Hs.
  change (le32_at rp 16) with (RESTART_PAGE_HEADER.system_page_size rp) in Hs.
  assert (Hg : gives (ntfs_restart_page_load h rp pos wrp lsn)
                     (fun r => forall b, snd (fst r) = Some b ->
                                         Z.of_nat (List.length (contents b))
                                         = RESTART_PAGE_HEADER.system_page_size rp));
    [|exact (Hg s _ s' H p eq_refl)].
  clear H. unfold ntfs_restart_page_load, le32_to_cpu. cbv zeta.
  set (sps := RESTART_PAGE_HEADER.system_page_size rp) in *.
  assert (Hnone : forall (e : Z) (lo : option Z),
             gives (ret (e, @None kbuf, lo))
                   (fun r : Z * option kbuf * option Z =>
                      forall b, snd (fst r) = Some b ->
                                       Z.of_nat (List.length (contents b)) = sps)).
  { intros e lo. apply gives_ret. intros b Hb. discriminate Hb. }
  destruct (ntfs_restart_page_header_is_valid rp pos); [|apply gives_then; intros _; apply Hnone].
  destruct (ntfs_restart_area_is_valid rp); [|apply gives_then; intros _; apply Hnone].
  apply (gives_bind (fun t => forall b, t = Some b ->
                                        Z.of_nat (List.length (contents b)) = sps)).
  { intros s0 t s1 H. unfold IOMalloc in H.
    destruct (IOMalloc_succeeds h s0 sps); inversion H; subst; intros b Hb;
      inversion Hb; subst. cbn [contents]. rewrite repeat_length. lia. }
  intros [trp|] Htrp; [|apply gives_then; intros _; apply Hnone].
  specialize (Htrp trp eq_refl).
  set (size := u32 (PAGE_SIZE h - Z.land (u32 pos) (PAGE_MASK h))).
  assert (Hsize : 0 <= size < 2 ^ 32) by (apply Z.mod_pos_bound; reflexivity).
  apply (gives_bind (fun r : option Z * kbuf =>
                       Z.of_nat (List.length (contents (snd r))) = sps)).
  { destruct (Z.geb_spec size sps) as [Hge|Hlt].
    - apply gives_ret. cbn [snd contents].
      rewrite (proj1 (memcpy_length (contents trp) 0 rp sps ltac:(lia) ltac:(lia))); lia.
    - assert (Hu : u32 (sps - size) = sps - size) by (unfold u32; apply Z.mod_small; lia).
      rewrite Hu.
      assert (Hfirst : List.length (memcpy (contents trp) 0 rp size)
                       = List.length (contents trp))
        by (apply memcpy_length; lia).
      intros s0 r s1 H.
      apply load_remaining_in_bounds in H;
        [|lia|lia|cbn [contents]; rewrite Hfirst; lia|lia].
      rewrite H. cbn [contents]. rewrite Hfirst. exact Htrp. }
  intros [[e|] t] Ht; cbn [snd] in Ht; [apply gives_then; intros _; apply Hnone|].
  apply (gives_bind (fun fx : Z * kbuf =>
                       Z.of_nat (List.length (contents (snd fx))) = sps)).
  { match goal with
    | |- context [if ?c then ntfs_mst_fixup_post_read _ _ _ else _] => destruct c
    end.
    - intros s0 fx s1 H. inversion H; subst. cbn [snd contents]. rewrite Hfix. exact Ht.
    - apply gives_ret. exact Ht. }
  intros [mst_err t'] Ht'; cbn [snd] in Ht'.
  match goal with
  | |- context [if ?c then (ntfs_error _ ;; _) else _] => destruct c
  end; [apply gives_then; intros _; apply gives_then; intros _; apply Hnone|].
  match goal with
  | |- context [match ?c with TRUE => _ | FALSE _ => _ end] => destruct c
  end; [|apply gives_then; intros _; apply gives_then; intros _; apply Hnone].
  destruct wrp; [|apply gives_then; intros _; apply Hnone].
  apply gives_ret. cbn [fst snd]. intros b Hb. inversion Hb; subst. exact Ht'.
Qed.

Lemma restart_page_load_copies_in_bounds_witness :
  (forall (b : buffer) (size : Z),
      List.length (snd (ntfs_mst_fixup_post_read_result quiet_host b size)) = List.length b)
  /\ exists (p : kbuf) (s' : state),
      ntfs_restart_page_load quiet_host (rstr_page 100 0) 0 true true tiny_journal
      = Ok (0, Some p, Some 100) s'
      /\ Z.of_nat (List.length (contents p)) = 4096.
Proof.
  assert (Hfix : forall (b : buffer) (size : Z),
             List.length (snd (ntfs_mst_fixup_post_read_result quiet_host b size))
             = List.length b) by reflexivity.
  split; [exact Hfix|].
  destruct (ntfs_restart_page_load quiet_host (rstr_page 100 0) 0 true true tiny_journal)
    as [[[err w] l] s'| |] eqn:E.
  - assert (Hw : exists p, w = Some p) by (vm_compute in E; inversion E; eexists; reflexivity).
    destruct Hw as (p & ->).
    pose proof (restart_page_load_copies_in_bounds _ _ _ _ _ _ _ _ _ _ Hfix E) as H.
    assert (He : err = 0 /\ l = Some 100) by (vm_compute in E; inversion E; auto).
    destruct He as [-> ->].
    exists p, s'. split; [reflexivity|exact H].
  - vm_compute in E. discriminate E.
  - vm_compute in E. discriminate E.
Defined.

(** * The copy has the first block of the page *)

Lemma nth_take (n : nat) :
  forall (src : buffer) (i : nat), (i < n)%nat -> nth i (take n src) 0 = nth i src 0.
Proof.
  induction n as [|n IH]; intros src i Hi; [lia|].
  destruct src as [|x src]; destruct i as [|i]; cbn [take nth]; try reflexivity.
  - rewrite IH by lia. destruct i; reflexivity.
  - apply IH. lia.
Qed.

(** The bytes that a copy to the start of a buffer has written. *)
Lemma byte_at_memcpy_start (dst src : buffer) (n i : Z) :
  0 <= i < n -> byte_at (memcpy dst 0 src n) i = byte_at src i.
Proof.
  intros Hi. unfold byte_at, memcpy. destruct (Z.ltb_spec i 0); [lia|].
  cbn [Z.to_nat firstn app]. rewrite app_nth1 by (rewrite take_length; lia).
  rewrite nth_take by lia. reflexivity.
Qed.

(** The bytes before a copy are left as they are. *)
Lemma byte_at_memcpy_before (dst src : buffer) (off n i : Z) :
  0 <= i < off -> off <= Z.of_nat (List.length dst) ->
  byte_at (memcpy dst off src n) i = byte_at dst i.
Proof.
  intros Hi Hoff. unfold byte_at, memcpy. destruct (Z.ltb_spec i 0); [lia|].
  rewrite app_nth1 by (rewrite length_firstn; lia).
  rewrite nth_firstn. destruct (Nat.ltb_spec (Z.to_nat i) (Z.to_nat off)); [reflexivity|lia].
Qed.

Lemma same_block_refl (a : buffer) : same_block a a.
Proof. intros i _. reflexivity. Qed.

Lemma same_block_trans (a b c : buffer) :
  same_block a b -> same_block b c -> same_block a c.
Proof. intros H1 H2 i Hi. rewrite (H1 i Hi). apply (H2 i Hi). Qed.

(** Buffers with the same first block have the same header and, when the
    restart area starts in it, the same fields up to [file_size]. *)
Lemma same_block_le16 (a b : buffer) (o : Z) :
  same_block a b -> 0 <= o -> o + 2 <= NTFS_BLOCK_SIZE - sizeof_u16 ->
  le16_at a o = le16_at b o.
Proof.
  intros H Ho Hlt. unfold le16_at. rewrite (H o), (H (o + 1)); [reflexivity|lia|lia].
Qed.

Lemma same_block_le32 (a b : buffer) (o : Z) :
  same_block a b -> 0 <= o -> o + 4 <= NTFS_BLOCK_SIZE - sizeof_u16 ->
  le32_at a o = le32_at b o.
Proof.
  intros H Ho Hlt. unfold le32_at.
  rewrite (same_block_le16 a b o), (same_block_le16 a b (o + 2)); auto; lia.
Qed.

Section CopyOfTheBlock.
Variable h : host.

(** The copy loop writes behind what was read before. *)
Lemma load_remaining_keeps_block (fuel : nat) :
  forall (trp : kbuf) (pos size have_read to_read : Z),
    NTFS_BLOCK_SIZE - sizeof_u16 <= have_read -> 0 < to_read ->
    have_read + to_read = Z.of_nat (List.length (contents trp)) ->
    have_read + to_read < 2 ^ 32 ->
    gives (load_remaining h fuel trp pos size have_read to_read)
          (fun r => same_block (contents (snd r)) (contents trp)).
Proof.
  induction fuel as [|fuel IH]; intros trp pos size have_read to_read Hh Ht Hlen Hlt.
  - apply gives_out_of_fuel.
  - cbn [load_remaining]. cbv zeta.
    destruct (negb (Z.land (u32 (pos + size)) (PAGE_MASK h) =? 0)); [apply gives_panic|].
    apply gives_then. intros [err|kaddr].
    + apply gives_then. intros _. apply gives_ret. apply same_block_refl.
    + apply gives_then. intros _.
      assert (HP : 0 <= PAGE_SIZE h) by (unfold PAGE_SIZE; apply Z.pow_nonneg; lia).
      unfold NTFS_BLOCK_SIZE, sizeof_u16 in Hh.
      set (n := if PAGE_SIZE h >? to_read then to_read else PAGE_SIZE h).
      assert (Hn : 0 <= n <= to_read)
        by (subst n; destruct (Z.gtb_spec (PAGE_SIZE h) to_read); lia).
      assert (Hcopy : List.length (memcpy (contents trp) have_read kaddr n)
                      = List.length (contents trp))
        by (apply memcpy_length; lia).
      assert (Hkeep : same_block (memcpy (contents trp) have_read kaddr n) (contents trp)).
      { intros i Hi. unfold NTFS_BLOCK_SIZE, sizeof_u16 in Hi.
        apply byte_at_memcpy_before; lia. }
      assert (Hu1 : u32 (have_read + n) = have_read + n)
        by (unfold u32; apply Z.mod_small; lia).
      assert (Hu2 : u32 (to_read - n) = to_read - n)
        by (unfold u32; apply Z.mod_small; lia).
      rewrite Hu1, Hu2.
      destruct (Z.gtb_spec (to_read - n) 0) as [Hmore|Hdone].
      * intros s r s' H.
        apply IH in H; cbn [contents] in *; rewrite ?Hcopy;
          unfold NTFS_BLOCK_SIZE, sizeof_u16; try lia.
        apply (same_block_trans _ _ _ H Hkeep).
      * apply gives_ret. cbn [snd contents]. exact Hkeep.
Qed.
End CopyOfTheBlock.

(** What the buffer of [ntfs_restart_page_load] holds, step by step. *)
Lemma load_keeps_block (h : host) (rp : buffer) (pos : Z) (wrp lsn : bool) :
  fixup_keeps_block h ->
  NTFS_BLOCK_SIZE <= bytes_in_page h pos ->
  gives (ntfs_restart_page_load h rp pos wrp lsn)
        (fun r : Z * option kbuf * option Z =>
           forall p : kbuf,
             snd (fst r) = Some p ->
             same_block (contents p) rp
             \/ ((exists b : buffer,
                     fst (ntfs_mst_fixup_post_read_result h b
                            (RESTART_PAGE_HEADER.system_page_size rp)) <> 0)
                 /\ RESTART_PAGE_HEADER.restart_area_offset rp
                    + RESTART_AREA.restart_area_length
                        (ptr_add rp (RESTART_PAGE_HEADER.restart_area_offset rp))
                    <= NTFS_BLOCK_SIZE - sizeof_u16)).
Proof.
  intros Hfix Hbytes. unfold bytes_in_page in Hbytes.
  pose proof (le32_at_range rp 16) as Hs.
  change (le32_at rp 16) with (RESTART_PAGE_HEADER.system_page_size rp) in Hs.
  unfold ntfs_restart_page_load, le32_to_cpu, le16_to_cpu. cbv zeta.
  set (sps := RESTART_PAGE_HEADER.system_page_size rp) in *.
  set (torn := (exists b : buffer, fst (ntfs_mst_fixup_post_read_result h b sps) <> 0)
               /\ RESTART_PAGE_HEADER.restart_area_offset rp
                  + RESTART_AREA.restart_area_length
                      (ptr_add rp (RESTART_PAGE_HEADER.restart_area_offset rp))
                  <= NTFS_BLOCK_SIZE - sizeof_u16).
  assert (Hnone : forall (e : Z) (lo : option Z),
             gives (ret (e, @None kbuf, lo))
                   (fun r : Z * option kbuf * option Z =>
                      forall p, snd (fst r) = Some p ->
                                same_block (contents p) rp \/ torn)).
  { intros e lo. apply gives_ret. intros b Hb. discriminate Hb. }
  destruct (ntfs_restart_page_header_is_valid rp pos) eqn:Hh;
    [|apply gives_then; intros _; apply Hnone].
  destruct (ntfs_restart_area_is_valid rp); [|apply gives_then; intros _; apply Hnone].
  destruct (header_valid_inv rp pos Hh) as ((Hmin & _) & _). fold sps in Hmin.
  unfold NTFS_BLOCK_SIZE, sizeof_u16 in *.
  apply (gives_bind (fun t => forall b, t = Some b ->
                                        Z.of_nat (List.length (contents b)) = sps)).
  { intros s0 t s1 H. unfold IOMalloc in H.
    destruct (IOMalloc_succeeds h s0 sps); inversion H; subst; intros b Hb;
      inversion Hb; subst. cbn [contents]. rewrite repeat_length. lia. }
  intros [trp|] Htrp; [|apply gives_then; intros _; apply Hnone].
  specialize (Htrp trp eq_refl).
  set (size := u32 (PAGE_SIZE h - Z.land (u32 pos) (PAGE_MASK h))) in *.
  assert (Hsize : 0 <= size < 2 ^ 32) by (apply Z.mod_pos_bound; reflexivity).
  apply (gives_bind (fun r : option Z * kbuf => same_block (contents (snd r)) rp)).
  { destruct (Z.geb_spec size sps) as [Hge|Hlt].
    - apply gives_ret. cbn [snd contents]. intros i Hi.
      unfold NTFS_BLOCK_SIZE, sizeof_u16 in Hi. apply byte_at_memcpy_start. lia.
    - assert (Hu : u32 (sps - size) = sps - size) by (unfold u32; apply Z.mod_small; lia).
      rewrite Hu.
      assert (Hfirst : List.length (memcpy (contents trp) 0 rp size)
                       = List.length (contents trp))
        by (apply memcpy_length; lia).
      intros s0 r s1 H.
      apply load_remaining_keeps_block in H; cbn [contents] in *; rewrite ?Hfirst;
        unfold NTFS_BLOCK_SIZE, sizeof_u16; try lia.
      apply (same_block_trans _ _ _ H). intros i Hi.
      unfold NTFS_BLOCK_SIZE, sizeof_u16 in Hi. apply byte_at_memcpy_start. lia. }
  intros [[e|] t] Ht; cbn [snd] in Ht; [apply gives_then; intros _; apply Hnone|].
  apply (gives_bind (fun fx : Z * kbuf =>
                       (fst fx = 0 /\ same_block (contents (snd fx)) rp)
                       \/ (fst fx <> 0
                           /\ exists b, fst (ntfs_mst_fixup_post_read_result h b sps) <> 0))).
  { match goal with
    | |- context [if ?c then ntfs_mst_fixup_post_read _ _ _ else _] => destruct c
    end.
    - intros s0 fx s1 H. inversion H; subst. cbn [fst snd contents].
      destruct (Z.eq_dec (fst (ntfs_mst_fixup_post_read_result h (contents t) sps)) 0)
        as [E|E].
      + left. split; [exact E|]. apply (same_block_trans _ (contents t)); [|exact Ht].
        apply Hfix. exact E.
      + right. split; [exact E|]. exists (contents t). exact E.
    - apply gives_ret. left. split; [reflexivity|exact Ht]. }
  intros [mst_err t'] Ht'; cbn [fst snd] in Ht'.
  destruct (Z.eqb_spec mst_err 0) as [E0|E0]; cbn [negb andb].
  - match goal with
    | |- context [match ?c with TRUE => _ | FALSE _ => _ end] => destruct c
    end; [|apply gives_then; intros _; apply gives_then; intros _; apply Hnone].
    destruct wrp; [|apply gives_then; intros _; apply Hnone].
    apply gives_ret. cbn [fst snd]. intros b Hb. inversion Hb; subst.
    destruct Ht' as [[_ Hsame]|[Hn _]]; [left; exact Hsame|contradiction].
  - match goal with
    | |- context [if ?a >? ?b then _ else _] => destruct (Z.gtb_spec a b) as [Hgt|Hle]
    end; [apply gives_then; intros _; apply gives_then; intros _; apply Hnone|].
    match goal with
    | |- context [match ?c with TRUE => _ | FALSE _ => _ end] => destruct c
    end; [|apply gives_then; intros _; apply gives_then; intros _; apply Hnone].
    destruct wrp; [|apply gives_then; intros _; apply Hnone].
    apply gives_ret. cbn [fst snd]. intros b Hb. right. subst torn.
    destruct Ht' as [[Hz _]|[_ Hex]]; [contradiction|]. split; [exact Hex|exact Hle].
Qed.



(** ** The page that ntfs_logfile_check returns *)

Section ReturnedPage.
Variable h : host.
Hypothesis page_shift : 9 <= PAGE_SHIFT h <= 30.
Hypothesis keeps : fixup_keeps_block h.
Hypothesis succeeds : fixup_succeeds h.

(** At each position of the scan at least a block of the page lies behind
    the position. *)
Lemma bytes_in_page_scan (p : Z) :
  p = 0 \/ (exists j : Z, 9 <= j /\ p = 2 ^ j) ->
  NTFS_BLOCK_SIZE <= bytes_in_page h p.
Proof.
  intros Hp. unfold bytes_in_page, NTFS_BLOCK_SIZE. rewrite page_offset by lia.
  assert (HP : 2 ^ 9 <= PAGE_SIZE h <= 2 ^ 30)
    by (unfold PAGE_SIZE; split; apply Z.pow_le_mono_r; lia).
  change (2 ^ 9) with 512 in HP. change (2 ^ 30) with 1073741824 in HP.
  pose proof (Z.mod_pos_bound p (PAGE_SIZE h) ltac:(lia)) as Hm.
  assert (Hle : p mod PAGE_SIZE h <= PAGE_SIZE h - 512).
  { destruct Hp as [->|(j & Hj & ->)]; [rewrite Z.mod_0_l; lia|].
    destruct (Z.lt_ge_cases j (PAGE_SHIFT h)) as [Hlt|Hge].
    - assert (Hsmall : 2 ^ j < PAGE_SIZE h) by (unfold PAGE_SIZE; apply Z.pow_lt_mono_r; lia).
      rewrite Z.mod_small by (split; [apply Z.pow_nonneg|]; lia).
      assert (H2 : 2 * 2 ^ j <= PAGE_SIZE h).
      { unfold PAGE_SIZE. replace (2 * 2 ^ j) with (2 ^ (j + 1))
          by (rewrite Z.pow_add_r by lia; lia).
        apply Z.pow_le_mono_r; lia. }
      assert (H9 : 2 ^ 9 <= 2 ^ j) by (apply Z.pow_le_mono_r; lia).
      change (2 ^ 9) with 512 in H9. lia.
    - replace (2 ^ j) with (2 ^ (j - PAGE_SHIFT h) * PAGE_SIZE h)
        by (unfold PAGE_SIZE; rewrite <- Z.pow_add_r by lia; f_equal; lia).
      rewrite Z_mod_mult. lia. }
  unfold u32. rewrite Z.mod_small; change (2 ^ 32) with 4294967296; lia.
Qed.

(** The buffer of a restart page that was loaded has the magic of the
    page. *)
Lemma load_keeps_magic (rp : buffer) (pos : Z) (wrp lsn : bool) :
  NTFS_BLOCK_SIZE <= bytes_in_page h pos ->
  restart_magic rp ->
  gives (ntfs_restart_page_load h rp pos wrp lsn)
        (fun r : Z * option kbuf * option Z =>
           forall p : kbuf, snd (fst r) = Some p -> restart_magic (contents p)).
Proof.
  intros Hbytes Hm s r s' H p Hp.
  destruct (load_keeps_block h rp pos wrp lsn keeps Hbytes s r s' H p Hp)
    as [Hsame|((b & Hb) & _)].
  - unfold restart_magic, RESTART_PAGE_HEADER.magic in *.
    rewrite (same_block_le32 _ _ 0 Hsame); [exact Hm|lia|].
    unfold NTFS_BLOCK_SIZE, sizeof_u16. lia.
  - exfalso. apply Hb. apply succeeds.
Qed.

Lemma scan_found_restart_magic (size : Z) (fuel : nat) :
  forall st : scan_state,
    scan_position h st -> found_restart_magic st ->
    scan_yields found_restart_magic (scan h fuel size st).
Proof.
  assert (Hk : 0 <= PAGE_SHIFT h <= 32) by lia.
  induction fuel as [|fuel IH]; intros st Hst Hg.
  - apply yields_out_of_fuel.
  - cbn [scan]. cbv zeta.
    destruct (negb (pos st <? size)); [apply yields_Scanned; exact Hg|].
    apply (yields_bind _ (fun r => match r with
                                   | inl _ => True
                                   | inr st1 =>
                                     scan_position h st1 /\ upl st1 <> None
                                     /\ found_restart_magic st1
                                   end)).
    { intros s r s' H. destruct r as [e|st1]; [exact I|].
      destruct (scan_map_position h Hk st s s' st1 Hst H) as (H1 & Hu1 & _).
      split; [exact H1|]. split; [exact Hu1|].
      pose proof (scan_map_fields h st s s' (inr st1) H) as (_ & _ & E1 & E2 & _).
      unfold found_restart_magic. rewrite E1, E2. exact Hg. }
    intros [e|st1] Hst1.
    { apply (yields_bind _ (fun _ => True)); [auto|]. intros _ _. apply yields_GotoErr. }
    destruct Hst1 as (Hp1 & Hu1 & Hg1).
    (* what every [continue] needs *)
    assert (Hnext : forall st' : scan_state,
               pos st' = pos st1 -> ppos st' = ppos st1 -> upl st' = upl st1 ->
               found_restart_magic st' ->
               scan_yields found_restart_magic
                           (scan h fuel size
                                 (set_pos (half_block_if_zero st')
                                          (Z.shiftl (pos (half_block_if_zero st')) 1)))).
    { intros st' Hp' Hpp' Hu' Hg'. apply IH.
      - destruct Hp1 as (Hnone & Hle & Hal & Hpos). unfold scan_position, half_block_if_zero.
        rewrite Hp'. destruct (Z.eqb_spec (pos st1) 0) as [E|E];
          cbn [set_pos pos ppos upl]; rewrite ?Hp', ?Hpp', ?Hu', Z.shiftl_mul_pow2 by lia.
        + split; [intros Hn; contradiction|].
          split; [change (NTFS_BLOCK_SIZE / 2 * 2 ^ 1) with 512; lia|].
          split; [exact Hal|]. right. exists 9. split; [lia|reflexivity].
        + split; [intros Hn; contradiction|]. split; [lia|].
          split; [exact Hal|].
          right. destruct Hpos as [E0|(j & Hj & Ej)]; [contradiction|].
          exists (j + 1). split; [lia|]. rewrite Ej, Z.pow_add_r by lia. reflexivity.
      - unfold found_restart_magic, half_block_if_zero.
        destruct (pos st' =? 0); exact Hg'. }
    destruct (ntfs_is_empty_recordp _).
    { destruct (logfile_is_empty st1); [apply Hnext; auto|apply yields_Scanned; exact Hg1]. }
    destruct (ntfs_is_rcrd_recordp _); [apply yields_Scanned; exact Hg1|].
    match goal with
    | |- context [negb (ntfs_is_rstr_recordp ?k) && negb (ntfs_is_chkd_recordp ?k)] =>
      set (kaddr := k)
    end.
    destruct (negb (ntfs_is_rstr_recordp kaddr) && negb (ntfs_is_chkd_recordp kaddr))
      eqn:Emagic.
    { apply Hnext; auto. }
    assert (Hmagic : restart_magic kaddr).
    { unfold restart_magic. unfold ntfs_is_rstr_recordp, ntfs_is_chkd_recordp in Emagic.
      unfold RESTART_PAGE_HEADER.magic.
      destruct (ntfs_is_rstr_record (le32_at kaddr 0)); [reflexivity|].
      destruct (ntfs_is_chkd_record (le32_at kaddr 0)); [reflexivity|discriminate Emagic]. }
    apply (yields_bind _ (fun r : Z * option kbuf * option Z =>
                            forall p : kbuf,
                              snd (fst r) = Some p -> restart_magic (contents p))).
    { apply load_keeps_magic; [|exact Hmagic]. apply bytes_in_page_scan.
      destruct Hp1 as (_ & _ & _ & Hpos). exact Hpos. }
    intros [[err w] lsn] Hw. cbn [fst snd] in Hw.
    match goal with
    | |- context [Scanned ?s2] => set (st2 := s2)
    end.
    assert (H2 : pos st2 = pos st1 /\ ppos st2 = ppos st1 /\ upl st2 = upl st1
                 /\ found_restart_magic st2).
    { subst st2. destruct Hg1 as (G1 & G2). unfold found_restart_magic.
      destruct (rstr1_ph st1) as [p1|] eqn:E1; destruct w as [p|];
        cbn [pos ppos upl rstr1_ph rstr2_ph]; rewrite ?E1;
        (split; [reflexivity|]); (split; [reflexivity|]); (split; [reflexivity|]);
        split; intros q Hq; inversion Hq; subst; auto. }
    clearbody st2. destruct H2 as (Hp2 & Hpp2 & Hu2 & Hg2).
    destruct (err =? 0).
    { destruct (pos st2 =? 0); [apply Hnext; auto|apply yields_Scanned; exact Hg2]. }
    destruct (negb (err =? EINVAL)).
    { apply (yields_bind _ (fun _ => True)); [auto|]. intros _ _. apply yields_GotoErr. }
    apply Hnext; auto.
Qed.
End ReturnedPage.



(** ** The clean test on the copy *)

Lemma byte_at_ptr_add (b : buffer) (n o : Z) :
  0 <= n -> 0 <= o -> byte_at (ptr_add b n) o = byte_at b (n + o).
Proof.
  intros Hn Ho. unfold byte_at, ptr_add.
  destruct (Z.ltb_spec o 0); [lia|]. destruct (Z.ltb_spec (n + o) 0); [lia|].
  rewrite nth_skipn. rewrite Z2Nat.inj_add by lia. reflexivity.
Qed.

Lemma le16_at_ptr_add (b : buffer) (n o : Z) :
  0 <= n -> 0 <= o -> le16_at (ptr_add b n) o = le16_at b (n + o).
Proof.
  intros Hn Ho. unfold le16_at. rewrite !byte_at_ptr_add by lia.
  rewrite Z.add_assoc. reflexivity.
Qed.

(** Two buffers with the same first block, whose restart area starts far
    enough from the end of it, get the same answer. *)
Lemma is_clean_same_block (a b : buffer) (s : state) :
  same_block a b ->
  RESTART_PAGE_HEADER.restart_area_offset b + RESTART_AREA.offsetof_file_size
  <= NTFS_BLOCK_SIZE - sizeof_u16 ->
  ntfs_logfile_is_clean (Some a) s = ntfs_logfile_is_clean (Some b) s.
Proof.
  intros Hsame Hra. unfold RESTART_AREA.offsetof_file_size in Hra.
  assert (Hmagic : RESTART_PAGE_HEADER.magic a = RESTART_PAGE_HEADER.magic b).
  { apply same_block_le32; [exact Hsame|lia|unfold NTFS_BLOCK_SIZE, sizeof_u16; lia]. }
  assert (Hofs : RESTART_PAGE_HEADER.restart_area_offset a
                 = RESTART_PAGE_HEADER.restart_area_offset b).
  { apply same_block_le16; [exact Hsame|lia|unfold NTFS_BLOCK_SIZE, sizeof_u16; lia]. }
  pose proof (le16_at_range b 24) as Hr.
  change (le16_at b 24) with (RESTART_PAGE_HEADER.restart_area_offset b) in Hr.
  unfold ntfs_logfile_is_clean. destruct (NVolLogFileEmpty s); [reflexivity|].
  unfold le16_to_cpu. rewrite Hmagic, Hofs.
  unfold RESTART_AREA.client_in_use_list, RESTART_AREA.flags.
  rewrite !le16_at_ptr_add by lia.
  rewrite (same_block_le16 a b (RESTART_PAGE_HEADER.restart_area_offset b + 12)),
          (same_block_le16 a b (RESTART_PAGE_HEADER.restart_area_offset b + 14));
    try exact Hsame; unfold NTFS_BLOCK_SIZE, sizeof_u16 in *; try lia.
  reflexivity.
Qed.



(** * The journal is found empty *)

Lemma appends_when_bind {A B : Type} (C : B -> Prop) (P : event -> Prop)
      (m : M A) (k : A -> M B) :
  appends P m -> (forall a, appends_when C P (k a)) -> appends_when C P (bind m k).
Proof.
  intros Hm Hk s b s' H Hc. apply bind_Ok_inv in H. destruct H as (a & s1 & H1 & H2).
  destruct (Hm _ _ _ H1) as (n1 & E1 & F1). destruct (Hk a _ _ _ H2 Hc) as (n2 & E2 & F2).
  exists (n2 ++ n1). split; [rewrite E2, E1; apply app_assoc|].
  apply Forall_app. auto.
Qed.

Lemma appends_when_never {A : Type} (C : A -> Prop) (P : event -> Prop) (m : M A) :
  gives m (fun a => ~ C a) -> appends_when C P m.
Proof. intros Hm s a s' H Hc. exfalso. apply (Hm s a s' H Hc). Qed.

Lemma appends_when_ret {A : Type} (C : A -> Prop) (P : event -> Prop) (a : A) :
  appends_when C P (ret a).
Proof. intros s a' s' H _. inversion H; subst. exists []. split; [reflexivity|constructor]. Qed.

Section FoundEmpty.
Variable h : host.

Lemma mapping_scan_map (st : scan_state) : appends mapping (scan_map h st).
Proof.
  assert (Hmap : forall p, appends mapping (ntfs_page_map h p)).
  { intros p s a s' H. inversion H; subst. exists [ntfs_page_map_call p].
    split; [reflexivity|repeat constructor]. }
  unfold scan_map. destruct (upl st) as [[mapped paddr]|].
  - destruct (negb (Z.land (pos st) (Z.lnot (PAGE_MASK_64 h)) =? ppos st));
      [|apply appends_ret].
    apply appends_bind; [apply appends_emit; exact I|]. intros _.
    apply appends_bind; [apply Hmap|]. intros [e|b]; apply appends_ret.
  - apply appends_bind; [apply Hmap|]. intros [e|b]; apply appends_ret.
Qed.

(** Once a block that is not empty was seen, the scan is not left with
    [logfile_is_empty] set. *)
Lemma scan_stays_nonempty (size : Z) (fuel : nat) :
  forall st : scan_state,
    logfile_is_empty st = false ->
    gives (scan h fuel size st) (fun x => ~ all_empty x).
Proof.
  assert (Hno : forall st : scan_state,
             logfile_is_empty st = false -> ~ all_empty (Scanned st)).
  { intros st He Ha. cbn [all_empty] in Ha. congruence. }
  assert (Herr : forall (e : Z) (st : scan_state), ~ all_empty (GotoErr e st)).
  { intros e st Ha. exact Ha. }
  induction fuel as [|fuel IH]; intros st He.
  - apply gives_out_of_fuel.
  - cbn [scan]. cbv zeta.
    destruct (negb (pos st <? size)); [apply gives_ret, Hno, He|].
    assert (Hnext : forall st' : scan_state,
               logfile_is_empty st' = false ->
               gives (scan h fuel size
                           (set_pos (half_block_if_zero st')
                                    (Z.shiftl (pos (half_block_if_zero st')) 1)))
                     (fun x => ~ all_empty x)).
    { intros st' He'. apply IH. unfold half_block_if_zero.
      destruct (pos st' =? 0); exact He'. }
    apply (gives_bind (fun r => match r with
                                | inl _ => True
                                | inr st1 => logfile_is_empty st1 = false
                                end)).
    { intros s r s' H. pose proof (scan_map_fields h st s s' r H) as Hf.
      destruct r as [e|st1]; [exact I|]. destruct Hf as (_ & Hf & _). congruence. }
    intros [e|st1] He1.
    { apply gives_then. intros _. apply gives_ret, Herr. }
    destruct (ntfs_is_empty_recordp _).
    { rewrite He1. apply gives_ret, Hno, He1. }
    destruct (ntfs_is_rcrd_recordp _); [apply gives_ret, Hno; reflexivity|].
    destruct (negb (ntfs_is_rstr_recordp _) && negb (ntfs_is_chkd_recordp _));
      [apply Hnext; reflexivity|].
    apply gives_then. intros [[err w] lsn].
    destruct (err =? 0).
    { match goal with
      | |- context [if pos ?st2 =? 0 then _ else _] =>
        assert (H2 : logfile_is_empty st2 = false)
          by (destruct (rstr1_ph st1); reflexivity);
          destruct (pos st2 =? 0)
      end; [apply Hnext, H2|apply gives_ret, Hno, H2]. }
    destruct (negb (err =? EINVAL)).
    { apply gives_then. intros _. apply gives_ret, Herr. }
    apply Hnext. destruct (rstr1_ph st1); reflexivity.
Qed.

(** A scan that is left with [logfile_is_empty] set has mapped and
    unmapped pages and made no other call. *)
Lemma scan_found_empty (size : Z) (fuel : nat) :
  forall st : scan_state, appends_when all_empty mapping (scan h fuel size st).
Proof.
  assert (Herr : forall (e : Z) (st : scan_state), ~ all_empty (GotoErr e st)).
  { intros e st Ha. exact Ha. }
  induction fuel as [|fuel IH]; intros st.
  - intros s a s' H. discriminate H.
  - cbn [scan]. cbv zeta.
    destruct (negb (pos st <? size)); [apply appends_when_ret|].
    apply appends_when_bind; [apply mapping_scan_map|]. intros [e|st1].
    { apply appends_when_never. apply gives_then. intros _. apply gives_ret, Herr. }
    destruct (ntfs_is_empty_recordp _).
    { destruct (logfile_is_empty st1); [apply IH|apply appends_when_ret]. }
    apply appends_when_never.
    assert (Hnext : forall st' : scan_state,
               logfile_is_empty st' = false ->
               gives (scan h fuel size
                           (set_pos (half_block_if_zero st')
                                    (Z.shiftl (pos (half_block_if_zero st')) 1)))
                     (fun x => ~ all_empty x)).
    { intros st' He'. apply scan_stays_nonempty. unfold half_block_if_zero.
      destruct (pos st' =? 0); exact He'. }
    assert (Hno : forall st' : scan_state,
               logfile_is_empty st' = false -> ~ all_empty (Scanned st')).
    { intros st' He Ha. cbn [all_empty] in Ha. congruence. }
    destruct (ntfs_is_rcrd_recordp _); [apply gives_ret, Hno; reflexivity|].
    destruct (negb (ntfs_is_rstr_recordp _) && negb (ntfs_is_chkd_recordp _));
      [apply Hnext; reflexivity|].
    apply gives_then. intros [[err w] lsn].
    destruct (err =? 0).
    { match goal with
      | |- context [if pos ?st2 =? 0 then _ else _] =>
        assert (H2 : logfile_is_empty st2 = false)
          by (destruct (rstr1_ph st1); reflexivity);
          destruct (pos st2 =? 0)
      end; [apply Hnext, H2|apply gives_ret, Hno, H2]. }
    destruct (negb (err =? EINVAL)).
    { apply gives_then. intros _. apply gives_ret, Herr. }
    apply Hnext. destruct (rstr1_ph st1); reflexivity.
Qed.

(** A scan that is left with [logfile_is_empty] set has come to the end
    of the journal. *)
Lemma scan_found_empty_at_end (size : Z) (fuel : nat) :
  forall st : scan_state,
    scan_yields (fun st' => logfile_is_empty st' = true -> size <= pos st')
                (scan h fuel size st).
Proof.
  induction fuel as [|fuel IH]; intros st.
  - apply yields_out_of_fuel.
  - cbn [scan]. cbv zeta.
    destruct (Z.ltb_spec (pos st) size) as [Hlt|Hge]; cbn [negb];
      [|apply yields_Scanned; intros _; exact Hge].
    apply (yields_bind _ (fun _ => True)); [auto|]. intros [e|st1] _.
    { apply (yields_bind _ (fun _ => True)); [auto|]. intros _ _. apply yields_GotoErr. }
    destruct (ntfs_is_empty_recordp _).
    { destruct (logfile_is_empty st1) eqn:E; [apply IH|].
      apply yields_Scanned. intros H. congruence. }
    destruct (ntfs_is_rcrd_recordp _); [apply yields_Scanned; discriminate|].
    destruct (negb (ntfs_is_rstr_recordp _) && negb (ntfs_is_chkd_recordp _)); [apply IH|].
    apply (yields_bind _ (fun _ => True)); [auto|]. intros [[err w] lsn] _.
    destruct (err =? 0).
    { match goal with
      | |- context [if pos ?st2 =? 0 then _ else _] =>
        assert (H2 : logfile_is_empty st2 = false)
          by (destruct (rstr1_ph st1); reflexivity);
          destruct (pos st2 =? 0)
      end; [apply IH|apply yields_Scanned; intros H; congruence]. }
    destruct (negb (err =? EINVAL)).
    { apply (yields_bind _ (fun _ => True)); [auto|]. intros _ _. apply yields_GotoErr. }
    apply IH.
Qed.
End FoundEmpty.


